(** * dr_wav: a shallow embedding of the WAVE decoder and its specification

    The development follows [dr_wav.h]: the target's integer model, the
    outcome monad of a C call, binary32/binary64 arithmetic, the byte-source
    callbacks, the RIFF/fmt/data scanner of [drwav_open], the streaming
    operations [drwav_read_raw], [drwav_read], [drwav_seek], and the
    sample converters. *)

From Stdlib Require Import ZArith List Bool Lia Strings.Byte QArith.
From Stdlib Require Import Floats.SpecFloat.
Import ListNotations.

Local Open Scope Z_scope.

(** ** The target: integer widths and object representation

    The source is C; its arithmetic is fixed here for an LP64
    little-endian target: [unsigned char] 8 bits, [unsigned short] 16,
    [int]/[unsigned int] 32, [size_t] and [uint64_t] 64. *)
Module Target.

Definition INT_MAX : Z := 2147483647.
Definition UINT_MAX : Z := 4294967295.
Definition SIZE_MAX : Z := 18446744073709551615.

Definition to_uchar (z : Z) : Z := z mod 2 ^ 8.
Definition to_ushort (z : Z) : Z := z mod 2 ^ 16.
Definition to_uint (z : Z) : Z := z mod 2 ^ 32.
Definition to_uint64 (z : Z) : Z := z mod 2 ^ 64.
Definition to_size_t (z : Z) : Z := z mod 2 ^ 64.

(** Conversion to a signed type wraps to the two's complement value. *)
Definition to_signed (bits : Z) (z : Z) : Z :=
  let m := z mod 2 ^ bits in
  if m <? 2 ^ (bits - 1) then m else m - 2 ^ bits.

Definition to_short : Z -> Z := to_signed 16.
Definition to_int : Z -> Z := to_signed 32.

(** The bytes of an [int] object, lowest address first. *)
Definition int_object_repr (n : Z) : list Z :=
  let u := to_uint n in
  [ u mod 256; (u / 2 ^ 8) mod 256; (u / 2 ^ 16) mod 256; (u / 2 ^ 24) mod 256 ].

End Target.
Import Target.

(** ** Outcomes of a call

    A call returns a value, or reaches an operation on which C gives it no
    value: a division by zero, a shift by the width of the operand or more,
    an access outside an array, a failed [assert], a call through a null
    function pointer.  [OutOfFuel] belongs to the model only: the loops whose
    length the byte source decides are run on a counter. *)
Inductive fault : Type :=
| DivisionByZero
| ShiftOutOfRange
| OutOfBounds
| AssertionFailed
| NullCall.

Inductive outcome (A : Type) : Type :=
| Ret (a : A)
| Stuck (f : fault)
| OutOfFuel.

Arguments Ret {A} a.
Arguments Stuck {A} f.
Arguments OutOfFuel {A}.

Definition bind {A B : Type} (m : outcome A) (k : A -> outcome B) : outcome B :=
  match m with
  | Ret a => k a
  | Stuck f => Stuck f
  | OutOfFuel => OutOfFuel
  end.

Declare Scope outcome_scope.
Delimit Scope outcome_scope with outcome.
Notation "x <- m ;; k" := (bind m (fun x => k))
  (at level 61, m at next level, right associativity) : outcome_scope.
Notation "' p <- m ;; k" := (bind m (fun p => k))
  (at level 61, p pattern, m at next level, right associativity) : outcome_scope.
Local Open Scope outcome_scope.

(** [a / b] on unsigned operands. *)
Definition udiv (a b : Z) : outcome Z :=
  if b =? 0 then Stuck DivisionByZero else Ret (a / b).

(** [a << n] on a 32-bit unsigned operand. *)
Definition shl_uint (a n : Z) : outcome Z :=
  if (0 <=? n) && (n <? 32) then Ret (to_uint (Z.shiftl a n)) else Stuck ShiftOutOfRange.

(** [a << n] on an [int] whose result is representable. *)
Definition shl_int (a n : Z) : outcome Z :=
  if (0 <=? n) && (n <? 32) then Ret (to_int (Z.shiftl a n)) else Stuck ShiftOutOfRange.

(** A pointer argument: null, or the array it points to. *)
Definition ptr (A : Type) : Type := option A.

(** [load a i] is [a[i]]. *)
Definition load {A : Type} (a : list A) (i : Z) : outcome A :=
  if i <? 0 then Stuck OutOfBounds
  else match nth_error a (Z.to_nat i) with
       | Some x => Ret x
       | None => Stuck OutOfBounds
       end.

(** The array [dst] after [vals] were stored from its first element on. *)
Definition overwrite {A : Type} (dst vals : list A) : list A :=
  vals ++ skipn (length vals) dst.

Definition store_all {A : Type} (dst vals : list A) : outcome (list A) :=
  if (length vals <=? length dst)%nat then Ret (overwrite dst vals)
  else Stuck OutOfBounds.

(** [for (i = 0; i < n; ++i) out[i] = body i]: the values in order. *)
Fixpoint for_each {A : Type} (body : Z -> outcome A) (i : Z) (count : nat)
  : outcome (list A) :=
  match count with
  | O => Ret []
  | S count' =>
      x <- body i ;;
      rest <- for_each body (i + 1) count' ;;
      Ret (x :: rest)
  end.

Definition byte_val (b : byte) : Z := Z.of_N (Byte.to_N b).

(** ** Floating point: binary32 and binary64 *)
Module Float.

Definition f32 : Type := spec_float.
Definition f64 : Type := spec_float.

Definition f32_of_int (z : Z) : f32 := binary_normalize 24 128 z 0 false.
Definition f64_of_int (z : Z) : f64 := binary_normalize 53 1024 z 0 false.

Definition f32_div : f32 -> f32 -> f32 := SFdiv 24 128.
Definition f32_mul : f32 -> f32 -> f32 := SFmul 24 128.
Definition f32_sub : f32 -> f32 -> f32 := SFsub 24 128.
Definition f64_div : f64 -> f64 -> f64 := SFdiv 53 1024.

(** The cast [(float)d] of a [double]: round to nearest, ties to even. *)
Definition f32_of_f64 (d : f64) : f32 :=
  match d with
  | S754_finite s m e => binary_round 24 128 s m e
  | _ => d
  end.

(** The real number a finite float stands for. *)
Definition SF2Q (x : spec_float) : option Q :=
  match x with
  | S754_zero _ => Some (0 # 1)%Q
  | S754_finite s m e =>
      Some (((if s then Zneg m else Zpos m) # 1) * Qpower (2 # 1) e)%Q
  | _ => None
  end.

Definition exactly (x : spec_float) (q : Q) : Prop :=
  exists r, SF2Q x = Some r /\ (r == q)%Q.

Definition exactlyb (x : spec_float) (q : Q) : bool :=
  match SF2Q x with
  | Some r => Qeq_bool r q
  | None => false
  end.

End Float.
Import Float.

(** ** Sample converters *)

(** *** [drwav_s16PCM_to_f32] *)

(** The loop body: [s16PCM[i] / 32768.0f]. *)
Definition s16_sample_to_f32 (v : Z) : f32 :=
  f32_div (f32_of_int v) (f32_of_int 32768).

Definition drwav_s16PCM_to_f32 (totalSampleCount : Z) (s16PCM : ptr (list Z))
    (f32Out : ptr (list f32)) : outcome (ptr (list f32)) :=
  match s16PCM, f32Out with
  | None, _ | _, None => Ret f32Out
  | Some src, Some dst =>
      vals <- for_each (fun i => v <- load src i ;; Ret (s16_sample_to_f32 v))
                       0 (Z.to_nat totalSampleCount) ;;
      out <- store_all dst vals ;;
      Ret (Some out)
  end.

(** *** [drwav_alaw_to_f32] *)

Definition alaw_sample_to_f32 (x : byte) : outcome f32 :=
  let a := to_uchar (Z.lxor (byte_val x) 0x55) in
  t <- shl_int (Z.land a 0x0F) 4 ;;
  let s := Z.shiftr (Z.land a 0x70) 4 in
  t <- (if s =? 0 then Ret (to_int (t + 8))
        else shl_int (to_int (t + 0x108)) (s - 1)) ;;
  let t := if Z.land a 0x80 =? 0 then to_int (- t) else t in
  Ret (f32_div (f32_of_int t) (f32_of_int 32768)).

Definition drwav_alaw_to_f32 (totalSampleCount : Z) (alaw : ptr (list byte))
    (f32Out : ptr (list f32)) : outcome (ptr (list f32)) :=
  match alaw, f32Out with
  | None, _ | _, None => Ret f32Out
  | Some src, Some dst =>
      vals <- for_each (fun i => x <- load src i ;; alaw_sample_to_f32 x)
                       0 (Z.to_nat totalSampleCount) ;;
      out <- store_all dst vals ;;
      Ret (Some out)
  end.

(** *** [drwav_ulaw_to_f32] *)

Definition ulaw_sample_to_f32 (x : byte) : outcome f32 :=
  let u := to_uchar (Z.lnot (byte_val x)) in
  t <- shl_int (to_int (Z.shiftl (Z.land u 0x0F) 3 + 0x84))
               (Z.shiftr (Z.land u 0x70) 4) ;;
  let t := if negb (Z.land u 0x80 =? 0) then to_int (0x84 - t) else to_int (t - 0x84) in
  Ret (f32_div (f32_of_int t) (f32_of_int 32768)).

(** [for (unsigned int i = 0; i < totalSampleCount; ++i)] with a [size_t]
    bound: a bound above [UINT_MAX] is never reached by the counter, and
    the output pointer leaves its array. *)
Definition uint_counter_reaches (totalSampleCount : Z) : outcome unit :=
  if UINT_MAX <? totalSampleCount then Stuck OutOfBounds else Ret tt.

Definition drwav_ulaw_to_f32 (totalSampleCount : Z) (ulaw : ptr (list byte))
    (f32Out : ptr (list f32)) : outcome (ptr (list f32)) :=
  match ulaw, f32Out with
  | None, _ | _, None => Ret f32Out
  | Some src, Some dst =>
      _ <- uint_counter_reaches totalSampleCount ;;
      vals <- for_each (fun i => x <- load src i ;; ulaw_sample_to_f32 x)
                       0 (Z.to_nat totalSampleCount) ;;
      out <- store_all dst vals ;;
      Ret (Some out)
  end.

(** *** [drwav_u8PCM_to_f32] *)

Definition u8_sample_to_f32 (x : byte) : f32 :=
  f32_sub (f32_mul (f32_div (f32_of_int (byte_val x)) (f32_of_int 255)) (f32_of_int 2))
          (f32_of_int 1).

Definition drwav_u8PCM_to_f32 (totalSampleCount : Z) (u8PCM : ptr (list byte))
    (f32Out : ptr (list f32)) : outcome (ptr (list f32)) :=
  match u8PCM, f32Out with
  | None, _ | _, None => Ret f32Out
  | Some src, Some dst =>
      vals <- for_each (fun i => x <- load src i ;; Ret (u8_sample_to_f32 x))
                       0 (Z.to_nat totalSampleCount) ;;
      out <- store_all dst vals ;;
      Ret (Some out)
  end.

(** *** [drwav_s24PCM_to_f32] and [drwav_s32PCM_to_f32] *)

(** [(float)(x / 2147483648.0)] for an [int] x. *)
Definition int_over_2p31 (x : Z) : f32 :=
  f32_of_f64 (f64_div (f64_of_int x) (f64_of_int 2147483648)).

Definition s24_sample_to_f32 (s0 s1 s2 : byte) : f32 :=
  let sample32 :=
    to_int (Z.lor (Z.lor (to_uint (Z.shiftl (byte_val s0) 8))
                         (to_uint (Z.shiftl (byte_val s1) 16)))
                  (to_uint (Z.shiftl (byte_val s2) 24))) in
  int_over_2p31 sample32.

Definition drwav_s24PCM_to_f32 (totalSampleCount : Z) (s24PCM : ptr (list byte))
    (f32Out : ptr (list f32)) : outcome (ptr (list f32)) :=
  match s24PCM, f32Out with
  | None, _ | _, None => Ret f32Out
  | Some src, Some dst =>
      vals <- for_each (fun i =>
                          s0 <- load src (i * 3 + 0) ;;
                          s1 <- load src (i * 3 + 1) ;;
                          s2 <- load src (i * 3 + 2) ;;
                          Ret (s24_sample_to_f32 s0 s1 s2))
                       0 (Z.to_nat totalSampleCount) ;;
      out <- store_all dst vals ;;
      Ret (Some out)
  end.

Definition drwav_s32PCM_to_f32 (totalSampleCount : Z) (s32PCM : ptr (list Z))
    (f32Out : ptr (list f32)) : outcome (ptr (list f32)) :=
  match s32PCM, f32Out with
  | None, _ | _, None => Ret f32Out
  | Some src, Some dst =>
      vals <- for_each (fun i => x <- load src i ;; Ret (int_over_2p31 x))
                       0 (Z.to_nat totalSampleCount) ;;
      out <- store_all dst vals ;;
      Ret (Some out)
  end.

(** *** [drwav__pcm_to_f32] *)

(** The arrays seen through [(const short* )pPCM] and [(const int* )pPCM]:
    the target stores the low byte first. *)
Fixpoint as_shorts (bytes : list byte) : list Z :=
  match bytes with
  | b0 :: b1 :: rest => to_short (byte_val b0 + byte_val b1 * 2 ^ 8) :: as_shorts rest
  | _ => []
  end.

Fixpoint as_ints (bytes : list byte) : list Z :=
  match bytes with
  | b0 :: b1 :: b2 :: b3 :: rest =>
      to_int (byte_val b0 + byte_val b1 * 2 ^ 8 + byte_val b2 * 2 ^ 16
              + byte_val b3 * 2 ^ 24) :: as_ints rest
  | _ => []
  end.

(** The inner loop of the generic converter,
    [for (j = 0; j < bytesPerSample && j < 4; ++j)]. *)
Fixpoint pcm_accumulate (fuel : nat) (pPCM : list byte) (bytesPerSample : Z)
    (j sample shift : Z) : outcome Z :=
  match fuel with
  | O => OutOfFuel
  | S fuel' =>
      if (j <? bytesPerSample) && (j <? 4) then
        b <- load pPCM j ;;
        v <- shl_uint (byte_val b) shift ;;
        pcm_accumulate fuel' pPCM bytesPerSample (to_ushort (j + 1))
                       (Z.lor sample v) (to_uint (shift + 8))
      else Ret sample
  end.

(** One turn of the outer loop, on the sample [pPCM] points to. *)
Definition pcm_generic_sample (pPCM : list byte) (bytesPerSample : Z) : outcome f32 :=
  let shift := to_uint ((8 - bytesPerSample) * 8) in
  sample <- pcm_accumulate 5 pPCM bytesPerSample 0 0 shift ;;
  Ret (int_over_2p31 (to_int sample)).

Fixpoint pcm_generic_loop (count : nat) (pPCM : list byte) (bytesPerSample : Z)
  : outcome (list f32) :=
  match count with
  | O => Ret []
  | S count' =>
      x <- pcm_generic_sample pPCM bytesPerSample ;;
      rest <- pcm_generic_loop count' (skipn (Z.to_nat bytesPerSample) pPCM)
                               bytesPerSample ;;
      Ret (x :: rest)
  end.

Definition drwav__pcm_to_f32 (totalSampleCount : Z) (pPCM : ptr (list byte))
    (bytesPerSample : Z) (f32Out : ptr (list f32)) : outcome (Z * ptr (list f32)) :=
  match pPCM, f32Out with
  | None, _ | _, None => Ret (0, f32Out)
  | Some src, Some dst =>
      if bytesPerSample =? 1 then
        out <- drwav_u8PCM_to_f32 totalSampleCount pPCM f32Out ;; Ret (1, out)
      else if bytesPerSample =? 2 then
        out <- drwav_s16PCM_to_f32 totalSampleCount (Some (as_shorts src)) f32Out ;;
        Ret (1, out)
      else if bytesPerSample =? 3 then
        out <- drwav_s24PCM_to_f32 totalSampleCount pPCM f32Out ;; Ret (1, out)
      else if bytesPerSample =? 4 then
        out <- drwav_s32PCM_to_f32 totalSampleCount (Some (as_ints src)) f32Out ;;
        Ret (1, out)
      else
        _ <- uint_counter_reaches totalSampleCount ;;
        vals <- pcm_generic_loop (Z.to_nat totalSampleCount) src bytesPerSample ;;
        out <- store_all dst vals ;;
        Ret (1, Some out)
  end.

(** ** Format constants *)
Definition DR_WAVE_FORMAT_PCM : Z := 0x1.
Definition DR_WAVE_FORMAT_ADPCM : Z := 0x2.
Definition DR_WAVE_FORMAT_IEEE_FLOAT : Z := 0x3.
Definition DR_WAVE_FORMAT_ALAW : Z := 0x6.
Definition DR_WAVE_FORMAT_MULAW : Z := 0x7.
Definition DR_WAVE_FORMAT_EXTENSIBLE : Z := 0xFFFE.

(** ** Little helpers of the parser *)

(** [int n = 1; return ( *(char* )&n) == 1;] *)
Definition drwav__is_little_endian : bool :=
  nth 0 (int_object_repr 1) 0 =? 1.

(** [data[i]] in a local array the caller has just had filled. *)
Definition at_ (data : list byte) (i : nat) : Z := byte_val (nth i data "000"%byte).

(** The operands are promoted to [int]; the shift of [data[3]] into the
    sign bit is taken as the two's complement hardware does it, so that the
    conversion to [unsigned int] gives the 32 bits assembled. *)
Definition drwav__read_u16 (data : list byte) : Z :=
  if drwav__is_little_endian
  then to_ushort (Z.lor (Z.shiftl (at_ data 0) 0) (Z.shiftl (at_ data 1) 8))
  else to_ushort (Z.lor (Z.shiftl (at_ data 1) 0) (Z.shiftl (at_ data 0) 8)).

Definition drwav__read_u32 (data : list byte) : Z :=
  if drwav__is_little_endian
  then to_uint (Z.lor (Z.lor (Z.lor (Z.shiftl (at_ data 0) 0) (Z.shiftl (at_ data 1) 8))
                             (Z.shiftl (at_ data 2) 16)) (Z.shiftl (at_ data 3) 24))
  else to_uint (Z.lor (Z.lor (Z.lor (Z.shiftl (at_ data 3) 0) (Z.shiftl (at_ data 2) 8))
                             (Z.shiftl (at_ data 1) 16)) (Z.shiftl (at_ data 0) 24)).

Definition drwav__read_guid (data : list byte) : list byte :=
  map (fun i => nth i data "000"%byte) (seq 0 16).

(** [data[0] == c0 && ... && data[3] == c3] *)
Definition fourcc_is (data : list byte) (c0 c1 c2 c3 : byte) : bool :=
  Byte.eqb (nth 0 data "000"%byte) c0 && Byte.eqb (nth 1 data "000"%byte) c1
  && Byte.eqb (nth 2 data "000"%byte) c2 && Byte.eqb (nth 3 data "000"%byte) c3.

(** ** The decoder's data *)
Module Fmt.
Record t : Type := mk {
  formatTag : Z;
  channels : Z;
  sampleRate : Z;
  avgBytesPerSec : Z;
  blockAlign : Z;
  bitsPerSample : Z;
  extendedSize : Z;
  validBitsPerSample : Z;
  channelMask : Z;
  subFormat : list byte
}.
End Fmt.
Definition drwav_fmt : Type := Fmt.t.

Section Decoder.

(** What [pUserData] points to. *)
Variable U : Type.

(** [drwav_read_proc]: the bytes the callback stores at [pBufferOut], whose
    number is the value it returns, and the user data afterwards. *)
Definition drwav_read_proc : Type := U -> Z -> list byte * U.

(** [drwav_seek_proc]: the [int] returned and the user data afterwards. *)
Definition drwav_seek_proc : Type := U -> Z -> Z * U.

Record drwav : Type := mk_drwav {
  onRead : option drwav_read_proc;
  onSeek : option drwav_seek_proc;
  pUserData : U;
  fmt : drwav_fmt;
  sampleRate : Z;
  channels : Z;
  bitsPerSample : Z;
  bytesPerSample : Z;
  translatedFormatTag : Z;
  totalSampleCount : Z;
  bytesRemaining : Z
}.

Definition with_stream (w : drwav) (u : U) (remaining : Z) : drwav :=
  mk_drwav (onRead w) (onSeek w) u (fmt w) (sampleRate w) (channels w)
           (bitsPerSample w) (bytesPerSample w) (translatedFormatTag w)
           (totalSampleCount w) remaining.

(** The value [size_t] callbacks return for the bytes they delivered. *)
Definition returned_count (data : list byte) : Z := to_size_t (Z.of_nat (length data)).

(** What the caller of [drwav_open] cannot choose: the contents of the
    uninitialised local [fmt], and whether [malloc] finds memory. *)
Record environment : Type := mk_environment {
  uninitialised_fmt : drwav_fmt;
  malloc_succeeds : bool
}.

(** *** [drwav__read_fmt] *)
Definition drwav__read_fmt (onRead : drwav_read_proc) (onSeek : drwav_seek_proc)
    (pUserData : U) (fmtOut : drwav_fmt) : Z * drwav_fmt * U :=
  let '(fmt, u) := onRead pUserData 24 in
  if negb (returned_count fmt =? 24) then (0, fmtOut, u)
  else if negb (fourcc_is fmt "f" "m" "t" " ") then (0, fmtOut, u)
  else
    let chunkSize := drwav__read_u32 (skipn 4 fmt) in
    if chunkSize <? 16 then (0, fmtOut, u)
    else if negb (chunkSize =? 16) && negb (chunkSize =? 18) && negb (chunkSize =? 40)
    then (0, fmtOut, u)
    else
      let formatTag := drwav__read_u16 (skipn 8 fmt) in
      let channels := drwav__read_u16 (skipn 10 fmt) in
      let sampleRate := drwav__read_u32 (skipn 12 fmt) in
      let avgBytesPerSec := drwav__read_u32 (skipn 16 fmt) in
      let blockAlign := drwav__read_u16 (skipn 20 fmt) in
      let bitsPerSample := drwav__read_u16 (skipn 22 fmt) in
      let base ext valid mask sub :=
        Fmt.mk formatTag channels sampleRate avgBytesPerSec blockAlign bitsPerSample
               ext valid mask sub in
      let untouched :=
        base (Fmt.extendedSize fmtOut) (Fmt.validBitsPerSample fmtOut)
             (Fmt.channelMask fmtOut) (Fmt.subFormat fmtOut) in
      if chunkSize >? 16 then
        if chunkSize =? 18 then
          let '(r, u) := onSeek u 2 in (r, untouched, u)
        else
          let '(fmt_cbSize, u) := onRead u 2 in
          if negb (returned_count fmt_cbSize =? 2) then (0, untouched, u)
          else
            let extendedSize := drwav__read_u16 fmt_cbSize in
            let sized :=
              base extendedSize (Fmt.validBitsPerSample fmtOut)
                   (Fmt.channelMask fmtOut) (Fmt.subFormat fmtOut) in
            if negb (extendedSize =? 22) then (0, sized, u)
            else
              let '(fmtext, u) := onRead u 22 in
              if negb (returned_count fmtext =? 22) then (0, sized, u)
              else
                (1, base extendedSize (drwav__read_u16 fmtext)
                         (drwav__read_u32 (skipn 2 fmtext))
                         (drwav__read_guid (skipn 6 fmtext)), u)
      else
        (1, base 0 0 0 (repeat "000"%byte 16), u).

(** *** [drwav_open] *)

(** [while (bytesRemainingToSeek > 0)]: [false] when a seek failed, on
    which [drwav_open] returns NULL. *)
Fixpoint drwav_open__skip (fuel : nat) (onSeek : drwav_seek_proc) (u : U)
    (bytesRemainingToSeek : Z) : outcome (bool * U) :=
  match fuel with
  | O => OutOfFuel
  | S fuel' =>
      if bytesRemainingToSeek >? 0 then
        if bytesRemainingToSeek >? 0x7FFFFFFF then
          let '(r, u) := onSeek u 0x7FFFFFFF in
          if r =? 0 then Ret (false, u)
          else drwav_open__skip fuel' onSeek u
                 (to_uint64 (bytesRemainingToSeek - 0x7FFFFFFF))
        else
          let '(r, u) := onSeek u (to_int bytesRemainingToSeek) in
          if r =? 0 then Ret (false, u)
          else drwav_open__skip fuel' onSeek u 0
      else Ret (true, u)
  end.

(** The [for (;;)] that looks for the "data" chunk: [None] for the
    [return NULL]s, the size of the chunk when it is found. *)
Fixpoint drwav_open__find_data (fuel : nat) (onRead : drwav_read_proc)
    (onSeek : drwav_seek_proc) (u : U) : outcome (option (Z * U)) :=
  match fuel with
  | O => OutOfFuel
  | S fuel' =>
      let '(chunk, u) := onRead u 8 in
      if negb (returned_count chunk =? 8) then Ret None
      else
        let dataSize := drwav__read_u32 (skipn 4 chunk) in
        if fourcc_is chunk "d" "a" "t" "a" then Ret (Some (dataSize, u))
        else
          let dataSize :=
            if negb (dataSize mod 2 =? 0) then to_uint64 (dataSize + 1) else dataSize in
          '(ok, u) <- drwav_open__skip 4 onSeek u dataSize ;;
          if ok : bool then drwav_open__find_data fuel' onRead onSeek u
          else Ret None
  end.

Definition drwav_open (fuel : nat) (env : environment)
    (onRead : option drwav_read_proc) (onSeek : option drwav_seek_proc)
    (pUserData : U) : outcome (ptr drwav) :=
  match onRead, onSeek with
  | Some rd, Some sk =>
      let '(riff, u) := rd pUserData 12 in
      if negb (returned_count riff =? 12) then Ret None
      else if negb (fourcc_is riff "R" "I" "F" "F") then Ret None
      else
        let chunkSize := drwav__read_u32 (skipn 4 riff) in
        if chunkSize <? 36 then Ret None
        else if negb (fourcc_is (skipn 8 riff) "W" "A" "V" "E") then Ret None
        else
          let '(ok, fmt, u) := drwav__read_fmt rd sk u (uninitialised_fmt env) in
          if ok =? 0 then Ret None
          else
            let translatedFormatTag :=
              if Fmt.formatTag fmt =? DR_WAVE_FORMAT_EXTENSIBLE
              then drwav__read_u16 (Fmt.subFormat fmt)
              else Fmt.formatTag fmt in
            found <- drwav_open__find_data fuel rd sk u ;;
            match found with
            | None => Ret None
            | Some (dataSize, u) =>
                if negb (malloc_succeeds env) then Ret None
                else
                  q <- udiv (Fmt.blockAlign fmt) (Fmt.channels fmt) ;;
                  let bytesPerSample := to_ushort (to_uint q) in
                  totalSampleCount <- udiv dataSize bytesPerSample ;;
                  Ret (Some (mk_drwav onRead onSeek u fmt (Fmt.sampleRate fmt)
                               (Fmt.channels fmt) (Fmt.bitsPerSample fmt)
                               bytesPerSample translatedFormatTag
                               totalSampleCount dataSize))
            end
  | _, _ => Ret None
  end.

(** *** [drwav_read_raw] *)
Definition drwav_read_raw (pWav : ptr drwav) (pBufferOut : ptr (list byte))
    (bytesToRead : Z) : outcome (Z * ptr (list byte) * ptr drwav) :=
  match pWav, pBufferOut with
  | Some w, Some buf =>
      if bytesToRead =? 0 then Ret (0, pBufferOut, pWav)
      else
        let bytesToRead :=
          if bytesToRead >? bytesRemaining w then to_size_t (bytesRemaining w)
          else bytesToRead in
        match onRead w with
        | None => Stuck NullCall
        | Some rd =>
            let '(data, u) := rd (pUserData w) bytesToRead in
            let bytesRead := returned_count data in
            Ret (bytesRead, Some (overwrite buf data),
                 Some (with_stream w u (to_uint64 (bytesRemaining w - bytesRead))))
        end
  | _, _ => Ret (0, pBufferOut, pWav)
  end.

(** *** [drwav_read] *)
Definition drwav_read (pWav : ptr drwav) (samplesToRead : Z)
    (pBufferOut : ptr (list byte)) (bufferOutSize : Z)
  : outcome (Z * ptr (list byte) * ptr drwav) :=
  match pWav, pBufferOut with
  | Some w, Some _ =>
      if samplesToRead =? 0 then Ret (0, pBufferOut, pWav)
      else
        maxSamples <- udiv bufferOutSize (bytesPerSample w) ;;
        let samplesToRead :=
          if samplesToRead >? maxSamples then maxSamples else samplesToRead in
        '(bytesRead, buf, pWav') <-
           drwav_read_raw pWav pBufferOut (to_size_t (samplesToRead * bytesPerSample w)) ;;
        n <- udiv bytesRead (bytesPerSample w) ;;
        Ret (n, buf, pWav')
  | _, _ => Ret (0, pBufferOut, pWav)
  end.

(** *** [drwav_seek] *)

(** [while (offset > 0)] *)
Fixpoint drwav_seek__loop (fuel : nat) (onSeek : drwav_seek_proc) (w : drwav)
    (offset direction : Z) : outcome drwav :=
  match fuel with
  | O => OutOfFuel
  | S fuel' =>
      if offset >? 0 then
        let offset32 := if offset >? INT_MAX then INT_MAX else to_int offset in
        let '(_, u) := onSeek (pUserData w) (to_int (offset32 * direction)) in
        let w := with_stream w u (to_uint64 (bytesRemaining w - offset32 * direction)) in
        drwav_seek__loop fuel' onSeek w (to_uint64 (offset - offset32)) direction
      else Ret w
  end.

(** [ndebug] tells whether the translation unit is compiled with [NDEBUG],
    which removes the [assert]. *)
Definition drwav_seek (ndebug : bool) (pWav : ptr drwav) (sample : Z)
  : outcome (Z * ptr drwav) :=
  match pWav with
  | None => Ret (0, pWav)
  | Some w =>
      match onSeek w with
      | None => Ret (0, pWav)
      | Some sk =>
          if totalSampleCount w =? 0 then Ret (1, pWav)
          else
            let sample :=
              if sample >=? totalSampleCount w then to_uint64 (totalSampleCount w - 1)
              else sample in
            let totalSizeInBytes := to_uint64 (totalSampleCount w * bytesPerSample w) in
            if negb ndebug && negb (totalSizeInBytes >=? bytesRemaining w)
            then Stuck AssertionFailed
            else
              let currentBytePos := to_uint64 (totalSizeInBytes - bytesRemaining w) in
              let targetBytePos := to_uint64 (sample * bytesPerSample w) in
              let '(offset, direction) :=
                if currentBytePos <? targetBytePos
                then (to_uint64 (targetBytePos - currentBytePos), 1)
                else (to_uint64 (currentBytePos - targetBytePos), -1) in
              w' <- drwav_seek__loop (Z.to_nat (offset / INT_MAX) + 2) sk w offset direction ;;
              Ret (1, Some w')
      end
  end.

End Decoder.

Arguments mk_drwav {U}.
Arguments onRead {U}.
Arguments onSeek {U}.
Arguments pUserData {U}.
Arguments fmt {U}.
Arguments sampleRate {U}.
Arguments channels {U}.
Arguments bitsPerSample {U}.
Arguments bytesPerSample {U}.
Arguments translatedFormatTag {U}.
Arguments totalSampleCount {U}.
Arguments bytesRemaining {U}.
Arguments with_stream {U}.
Arguments drwav__read_fmt {U}.
Arguments drwav_open__skip {U}.
Arguments drwav_open__find_data {U}.
Arguments drwav_open {U}.
Arguments drwav_read_raw {U}.
Arguments drwav_read {U}.
Arguments drwav_seek__loop {U}.
Arguments drwav_seek {U}.

(** ** The memory byte source *)

Record drwav_memory : Type := mk_memory {
  data : list byte;
  dataSize : Z;
  currentReadPos : Z
}.

(** [assert(memory->dataSize >= memory->currentReadPos)] holds whenever the
    callbacks are reached through [drwav_open_memory]: see [memory_ok] and
    its preservation below. *)
Definition drwav__on_read_memory : drwav_read_proc drwav_memory :=
  fun memory bytesToRead =>
    let bytesRemaining := to_size_t (dataSize memory - currentReadPos memory) in
    let bytesToRead :=
      if bytesToRead >? bytesRemaining then bytesRemaining else bytesToRead in
    if bytesToRead >? 0 then
      (firstn (Z.to_nat bytesToRead) (skipn (Z.to_nat (currentReadPos memory)) (data memory)),
       mk_memory (data memory) (dataSize memory)
                 (to_size_t (currentReadPos memory + bytesToRead)))
    else ([], memory).

Definition drwav__on_seek_memory : drwav_seek_proc drwav_memory :=
  fun memory offset =>
    let offset :=
      if offset >? 0 then
        if to_size_t (currentReadPos memory + offset) >? dataSize memory
        then to_int (to_size_t (dataSize memory - currentReadPos memory))
        else offset
      else
        if currentReadPos memory <? to_size_t (- offset)
        then to_int (- to_int (currentReadPos memory))
        else offset in
    (1, mk_memory (data memory) (dataSize memory)
                  (to_size_t (currentReadPos memory + offset))).

(** [drwav_open_memory(data, dataSize)] on an array of [dataSize] bytes.
    Every turn of the chunk loop of [drwav_open] consumes eight bytes, which
    bounds the turns. *)
Definition drwav_open_memory (malloc_user_data : bool) (env : environment)
    (contents : list byte) : outcome (ptr (drwav drwav_memory)) :=
  if negb malloc_user_data then Ret None
  else
    drwav_open (S (length contents / 8)) env
               (Some drwav__on_read_memory) (Some drwav__on_seek_memory)
               (mk_memory contents (Z.of_nat (length contents)) 0).

(** ** Concrete containers *)

Definition octets (l : list Z) : list byte :=
  map (fun z => match Byte.of_N (Z.to_N z) with Some b => b | None => "000"%byte end) l.

Definition le16 (v : Z) : list Z := [v mod 256; (v / 256) mod 256].
Definition le32 (v : Z) : list Z :=
  [v mod 256; (v / 256) mod 256; (v / 65536) mod 256; (v / 16777216) mod 256].

(** A canonical 16-byte-fmt PCM container. *)
Definition wav_file (channels sampleRate blockAlign bitsPerSample : Z)
    (payload : list Z) : list byte :=
  let n := Z.of_nat (length payload) in
  octets ([82; 73; 70; 70] ++ le32 (36 + n) ++ [87; 65; 86; 69]
          ++ [102; 109; 116; 32] ++ le32 16 ++ le16 1 ++ le16 channels
          ++ le32 sampleRate ++ le32 (sampleRate * blockAlign) ++ le16 blockAlign
          ++ le16 bitsPerSample
          ++ [100; 97; 116; 97] ++ le32 n ++ payload).

Definition zero_fmt : drwav_fmt := Fmt.mk 0 0 0 0 0 0 0 0 0 [].
Definition plain_env : environment := mk_environment zero_fmt true.

(** Mono, 16 bits, and a data chunk of five bytes: two samples and a half. *)
Definition odd_container : list byte := wav_file 1 44100 2 16 [0; 0; 0; 64; 0].

(** The decoder [drwav_open_memory] returns for it. *)
Definition odd_decoder : drwav drwav_memory :=
  mk_drwav (Some drwav__on_read_memory) (Some drwav__on_seek_memory)
           (mk_memory odd_container 49 44)
           (Fmt.mk 1 1 44100 88200 2 16 0 0 0 (repeat "000"%byte 16))
           44100 1 16 2 1 2 5.

(** ** Reading samples as floats *)

(** *** Object representations of floats *)

(** The binary32 value of a 32-bit pattern, and the binary64 value of a
    64-bit pattern.  All NaN patterns give the one NaN of [spec_float]. *)
Definition f32_of_bits (bits : Z) : f32 :=
  let s := Z.testbit bits 31 in
  let e := Z.land (Z.shiftr bits 23) 0xFF in
  let m := Z.land bits 0x7FFFFF in
  if e =? 0 then
    if m =? 0 then S754_zero s else S754_finite s (Z.to_pos m) (-149)
  else if e =? 0xFF then
    if m =? 0 then S754_infinity s else S754_nan
  else S754_finite s (Z.to_pos (m + 0x800000)) (e - 150).

Definition f64_of_bits (bits : Z) : f64 :=
  let s := Z.testbit bits 63 in
  let e := Z.land (Z.shiftr bits 52) 0x7FF in
  let m := Z.land bits 0xFFFFFFFFFFFFF in
  if e =? 0 then
    if m =? 0 then S754_zero s else S754_finite s (Z.to_pos m) (-1074)
  else if e =? 0x7FF then
    if m =? 0 then S754_infinity s else S754_nan
  else S754_finite s (Z.to_pos (m + 0x10000000000000)) (e - 1075).

(** The pattern of a binary32 value in canonical form; NaN is given the
    quiet pattern 0x7FC00000. *)
Definition bits_of_f32 (x : f32) : Z :=
  match x with
  | S754_zero s => if s then 0x80000000 else 0
  | S754_infinity s => if s then 0xFF800000 else 0x7F800000
  | S754_nan => 0x7FC00000
  | S754_finite s m e =>
      (if s then 0x80000000 else 0)
      + (if Z.pos m <? 0x800000 then Z.pos m
         else (e + 150) * 0x800000 + (Z.pos m - 0x800000))
  end.

(** The arrays seen through [(float* )pDataIn] and [(double* )pDataIn], and
    the bytes of a [float] array: the target stores the low byte first. *)
Fixpoint as_floats (bytes : list byte) : list f32 :=
  match bytes with
  | b0 :: b1 :: b2 :: b3 :: rest =>
      f32_of_bits (byte_val b0 + byte_val b1 * 2 ^ 8 + byte_val b2 * 2 ^ 16
                   + byte_val b3 * 2 ^ 24) :: as_floats rest
  | _ => []
  end.

Fixpoint as_doubles (bytes : list byte) : list f64 :=
  match bytes with
  | b0 :: b1 :: b2 :: b3 :: b4 :: b5 :: b6 :: b7 :: rest =>
      f64_of_bits (byte_val b0 + byte_val b1 * 2 ^ 8 + byte_val b2 * 2 ^ 16
                   + byte_val b3 * 2 ^ 24 + byte_val b4 * 2 ^ 32 + byte_val b5 * 2 ^ 40
                   + byte_val b6 * 2 ^ 48 + byte_val b7 * 2 ^ 56) :: as_doubles rest
  | _ => []
  end.

Definition f32_object_repr (floats : list f32) : list byte :=
  flat_map (fun x => octets (le32 (bits_of_f32 x))) floats.

(** *** [drwav_f64_to_f32] and [drwav__ieee_to_f32] *)

Definition drwav_f64_to_f32 (totalSampleCount : Z) (f64In : ptr (list f64))
    (f32Out : ptr (list f32)) : outcome (ptr (list f32)) :=
  match f64In, f32Out with
  | None, _ | _, None => Ret f32Out
  | Some src, Some dst =>
      vals <- for_each (fun i => x <- load src i ;; Ret (f32_of_f64 x))
                       0 (Z.to_nat totalSampleCount) ;;
      out <- store_all dst vals ;;
      Ret (Some out)
  end.

(** The copying branch is taken at [bytesPerSample == 32]. *)
Definition drwav__ieee_to_f32 (totalSampleCount : Z) (pDataIn : ptr (list byte))
    (bytesPerSample : Z) (f32Out : ptr (list f32)) : outcome (Z * ptr (list f32)) :=
  match pDataIn, f32Out with
  | None, _ | _, None => Ret (0, f32Out)
  | Some src, Some dst =>
      if bytesPerSample =? 32 then
        _ <- uint_counter_reaches totalSampleCount ;;
        vals <- for_each (fun i => load (as_floats src) i) 0 (Z.to_nat totalSampleCount) ;;
        out <- store_all dst vals ;;
        Ret (1, Some out)
      else
        out <- drwav_f64_to_f32 totalSampleCount (Some (as_doubles src)) f32Out ;;
        Ret (1, out)
  end.

(** *** [drwav_read_f32] *)

(** The four conversion loops of [drwav_read_f32] differ in the converter
    they call. *)
Inductive slow_path : Type := PathPCM | PathIEEE | PathALAW | PathMULAW.

Definition convert_samples (path : slow_path) (samplesRead : Z) (sampleData : list byte)
    (bytesPerSample : Z) (pBufferOut : list f32) : outcome (ptr (list f32)) :=
  match path with
  | PathPCM =>
      '(_, out) <- drwav__pcm_to_f32 samplesRead (Some sampleData) bytesPerSample
                                     (Some pBufferOut) ;;
      Ret out
  | PathIEEE =>
      '(_, out) <- drwav__ieee_to_f32 samplesRead (Some sampleData) bytesPerSample
                                      (Some pBufferOut) ;;
      Ret out
  | PathALAW => drwav_alaw_to_f32 samplesRead (Some sampleData) (Some pBufferOut)
  | PathMULAW => drwav_ulaw_to_f32 samplesRead (Some sampleData) (Some pBufferOut)
  end.

Section TypedRead.

Context {U : Type}.

(** [while (samplesToRead > 0)], with [sampleData] the local array of 4096
    bytes, [written] the floats before [pBufferOut] and [pBufferOut] the
    array from the pointer on.  [drwav_read] and the converters hand back
    the pointers they were given. *)
Fixpoint drwav_read_f32__loop (fuel : nat) (path : slow_path) (w : drwav U)
    (samplesToRead : Z) (sampleData : list byte) (written pBufferOut : list f32)
    (totalSamplesRead : Z) : outcome (Z * list f32 * drwav U) :=
  match fuel with
  | O => OutOfFuel
  | S fuel' =>
      if samplesToRead >? 0 then
        r <- drwav_read (Some w) samplesToRead (Some sampleData) 4096 ;;
        match r with
        | (samplesRead, Some sampleData', Some w') =>
            if samplesRead =? 0 then Ret (totalSamplesRead, written ++ pBufferOut, w')
            else
              out <- convert_samples path samplesRead sampleData' (bytesPerSample w')
                                     pBufferOut ;;
              match out with
              | Some out =>
                  drwav_read_f32__loop fuel' path w'
                    (to_size_t (samplesToRead - samplesRead)) sampleData'
                    (written ++ firstn (Z.to_nat samplesRead) out)
                    (skipn (Z.to_nat samplesRead) out)
                    (to_size_t (totalSamplesRead + samplesRead))
              | None => Stuck NullCall
              end
        | _ => Stuck NullCall
        end
      else Ret (totalSamplesRead, written ++ pBufferOut, w)
  end.

(** [sampleData] is what the uninitialised local array holds. *)
Definition drwav_read_f32 (fuel : nat) (sampleData : list byte) (pWav : ptr (drwav U))
    (samplesToRead : Z) (pBufferOut : ptr (list f32))
  : outcome (Z * ptr (list f32) * ptr (drwav U)) :=
  match pWav, pBufferOut with
  | Some w, Some out =>
      if samplesToRead =? 0 then Ret (0, pBufferOut, pWav)
      else if (translatedFormatTag w =? DR_WAVE_FORMAT_IEEE_FLOAT)
              && (bytesPerSample w =? 4) then
        '(samplesRead, buf, pWav') <-
           drwav_read pWav samplesToRead (Some (f32_object_repr out))
                      (to_size_t (samplesToRead * 4)) ;;
        Ret (samplesRead, option_map as_floats buf, pWav')
      else
        let slow path :=
          '(total, out', w') <-
             drwav_read_f32__loop fuel path w samplesToRead sampleData [] out 0 ;;
          Ret (total, Some out', Some w') in
        if translatedFormatTag w =? DR_WAVE_FORMAT_PCM then slow PathPCM
        else if translatedFormatTag w =? DR_WAVE_FORMAT_IEEE_FLOAT then slow PathIEEE
        else if translatedFormatTag w =? DR_WAVE_FORMAT_ALAW then slow PathALAW
        else if translatedFormatTag w =? DR_WAVE_FORMAT_MULAW then slow PathMULAW
        else Ret (0, pBufferOut, pWav)
  | _, _ => Ret (0, pBufferOut, pWav)
  end.

End TypedRead.

(** ** The closed forms of the specification (section 4.4) *)
Module Spec.

(** "normalize by dividing by 32768.0": the real quotient, as a binary32. *)
Definition normalize (t : Z) : f32 := binary_normalize 24 128 t (-15) false.

(** mu-law: complement the byte; mantissa and segment;
    magnitude = ((mantissa << 3) + 0x84) << segment; subtract the magnitude
    from 0x84 if the sign bit is set, else 0x84 from the magnitude. *)
Definition ulaw_to_float (x : byte) : f32 :=
  let u := 255 - byte_val x in
  let mantissa := u mod 16 in
  let segment := (u / 16) mod 8 in
  let magnitude := (mantissa * 2 ^ 3 + 0x84) * 2 ^ segment in
  let sign_bit := 128 <=? u in
  normalize (if sign_bit then 0x84 - magnitude else magnitude - 0x84).

(** A-law: XOR with 0x55; the mantissa goes to bits 4-7; segment 0 adds 8;
    a segment above 0 adds 0x108 and shifts left by segment - 1; the sign
    comes from bit 7 of the encoded byte, set for a positive sample. *)
Definition alaw_to_float (x : byte) : f32 :=
  let a := Z.lxor (byte_val x) 0x55 in
  let mantissa := a mod 16 in
  let segment := (a / 16) mod 8 in
  let magnitude :=
    if segment =? 0 then mantissa * 2 ^ 4 + 8
    else (mantissa * 2 ^ 4 + 0x108) * 2 ^ (segment - 1) in
  let positive := Z.testbit (byte_val x) 7 in
  normalize (if positive then magnitude else - magnitude).

(** Generic fallback: "accumulate up to 4 leading bytes of each sample into
    a 32-bit value via successive left-shifts (most-significant byte
    first, unused low bytes left zero when width < 4, extra bytes beyond 4
    ignored), interpret as signed 32-bit, then apply the same
    /2147483648.0 normalization". *)
Fixpoint most_significant_first (count : nat) (bytes : list byte) (shift : Z) : Z :=
  match count, bytes with
  | S count', b :: rest =>
      byte_val b * 2 ^ shift + most_significant_first count' rest (shift - 8)
  | _, _ => 0
  end.

Definition generic_pcm_to_float (bytesPerSample : Z) (sample : list byte) : f32 :=
  let value := most_significant_first (Z.to_nat (Z.min bytesPerSample 4)) sample 24 in
  binary_normalize 24 128 (to_int value) (-31) false.

(** Section 4.3, typed read: "compute the maximum whole samples the
    destination can hold; clamp samplesRequested to that and independently
    to remaining whole samples; issue a raw read of clampedSamples x
    bytesPerSample bytes; return floor(bytesActuallyRead / bytesPerSample)". *)
Definition typed_read {U : Type} (w : drwav U) (samplesRequested : Z)
    (destination : ptr (list byte)) (capacityBytes : Z)
  : outcome (Z * ptr (list byte) * ptr (drwav U)) :=
  let maxSamples := capacityBytes / bytesPerSample w in
  let remainingSamples := bytesRemaining w / bytesPerSample w in
  let clampedSamples := Z.min (Z.min samplesRequested maxSamples) remainingSamples in
  '(bytesActuallyRead, destination', w') <-
     drwav_read_raw (Some w) destination (clampedSamples * bytesPerSample w) ;;
  Ret (bytesActuallyRead / bytesPerSample w, destination', w').

End Spec.

(** * Properties *)

(** ** Loops over arrays *)

Lemma load_app_here {A : Type} (pre rest : list A) (x : A) :
  load (pre ++ x :: rest) (Z.of_nat (length pre)) = Ret x.
Proof.
  unfold load.
  destruct (Z.of_nat (length pre) <? 0) eqn:E; [apply Z.ltb_lt in E; lia|].
  rewrite Nat2Z.id, nth_error_app2 by lia.
  now rewrite Nat.sub_diag.
Qed.

Lemma for_each_load {A B : Type} (f : A -> outcome B) (g : A -> B) :
  forall (rest pre : list A),
    (forall x, In x rest -> f x = Ret (g x)) ->
    for_each (fun i => x <- load (pre ++ rest) i ;; f x)
             (Z.of_nat (length pre)) (length rest) = Ret (map g rest).
Proof.
  induction rest as [|x rest IH]; intros pre Hf; simpl.
  - reflexivity.
  - rewrite load_app_here. simpl. rewrite (Hf x) by now left. simpl.
    replace (Z.of_nat (length pre) + 1) with (Z.of_nat (length (pre ++ [x])))
      by (rewrite length_app; simpl; lia).
    replace (pre ++ x :: rest) with ((pre ++ [x]) ++ rest)
      by (now rewrite <- app_assoc).
    rewrite IH by (intros; apply Hf; now right).
    reflexivity.
Qed.

Lemma for_each_load_all {A B : Type} (f : A -> outcome B) (g : A -> B) (src : list A) :
  (forall x, In x src -> f x = Ret (g x)) ->
  for_each (fun i => x <- load src i ;; f x) 0 (length src) = Ret (map g src).
Proof. intros H. exact (for_each_load f g src [] H). Qed.

Lemma store_all_fits {A : Type} (dst vals : list A) :
  (length vals <= length dst)%nat -> store_all dst vals = Ret (overwrite dst vals).
Proof.
  intros H. unfold store_all.
  now apply Nat.leb_le in H as ->.
Qed.

(** ** Signed 16-bit PCM *)

(** [count] consecutive integers from [lo] on. *)
Fixpoint consecutive (lo : Z) (count : nat) : list Z :=
  match count with
  | O => []
  | S count' => lo :: consecutive (lo + 1) count'
  end.

Lemma consecutive_complete (count : nat) :
  forall lo v, lo <= v < lo + Z.of_nat count -> In v (consecutive lo count).
Proof.
  induction count as [|count IH]; intros lo v H.
  - lia.
  - simpl. destruct (Z.eq_dec lo v) as [->|Hne]; [now left|].
    right. apply IH. lia.
Qed.

Definition s16_values : list Z := consecutive (-32768) (Z.to_nat 65536).

Lemma s16_values_complete (v : Z) : -32768 <= v <= 32767 -> In v s16_values.
Proof.
  intros H. apply consecutive_complete. rewrite Z2Nat.id; lia.
Qed.

Lemma exactlyb_exactly (x : spec_float) (q : Q) : exactlyb x q = true -> exactly x q.
Proof.
  unfold exactlyb, exactly. destruct (SF2Q x) as [r|]; [|discriminate].
  intros H. exists r. split; [reflexivity|now apply Qeq_bool_iff].
Qed.

Lemma s16_exact_everywhere :
  forallb (fun v => exactlyb (s16_sample_to_f32 v) (v # 32768)) s16_values = true.
Proof. vm_compute. reflexivity. Qed.

Lemma s16_sample_exact (v : Z) :
  -32768 <= v <= 32767 -> exactly (s16_sample_to_f32 v) (v # 32768).
Proof.
  intros H. apply exactlyb_exactly.
  exact (proj1 (forallb_forall _ _) s16_exact_everywhere v (s16_values_complete v H)).
Qed.

(** C8. [drwav_s16PCM_to_f32] stores, for each 16-bit sample [v], the
    binary32 quotient [v / 32768.0f]; that float is exactly the real number
    v/32768; at -32768 it is -1.0 and at 32767 it is 32767/32768. *)
Theorem drwav_s16PCM_to_f32_scales :
  forall (s16PCM : list Z) (f32Out : list f32),
    Forall (fun v => -32768 <= v <= 32767) s16PCM ->
    (length s16PCM <= length f32Out)%nat ->
    drwav_s16PCM_to_f32 (Z.of_nat (length s16PCM)) (Some s16PCM) (Some f32Out)
    = Ret (Some (overwrite f32Out (map s16_sample_to_f32 s16PCM)))
    /\ Forall (fun v => exactly (s16_sample_to_f32 v) (v # 32768)) s16PCM
    /\ s16_sample_to_f32 (-32768) = S754_finite true 8388608 (-23)
    /\ exactly (S754_finite true 8388608 (-23)) (-1 # 1)
    /\ s16_sample_to_f32 32767 = S754_finite false 16776704 (-24)
    /\ exactly (S754_finite false 16776704 (-24)) (32767 # 32768).
Proof.
  intros s16PCM f32Out Hrange Hfit.
  split; [|split; [|repeat split]].
  - unfold drwav_s16PCM_to_f32. rewrite Nat2Z.id.
    rewrite (for_each_load_all (fun v => Ret (s16_sample_to_f32 v)) s16_sample_to_f32)
      by reflexivity.
    simpl. rewrite store_all_fits by now rewrite length_map.
    reflexivity.
  - eapply Forall_impl; [|exact Hrange]. intros v. apply s16_sample_exact.
  - apply exactlyb_exactly. vm_compute. reflexivity.
  - apply exactlyb_exactly. vm_compute. reflexivity.
Qed.

Lemma drwav_s16PCM_to_f32_scales_witness :
  drwav_s16PCM_to_f32 4 (Some [-32768; 32767; 0; 16384])
    (Some [S754_nan; S754_nan; S754_nan; S754_nan; S754_nan])
  = Ret (Some [S754_finite true 8388608 (-23); S754_finite false 16776704 (-24);
               S754_zero false; S754_finite false 8388608 (-24); S754_nan]).
Proof.
  refine (proj1 (drwav_s16PCM_to_f32_scales [-32768; 32767; 0; 16384]
                   [S754_nan; S754_nan; S754_nan; S754_nan; S754_nan] _ _)).
  - repeat constructor; lia.
  - simpl; lia.
Defined.

(** ** A-law and mu-law *)

(** C3. For each of the 256 byte values, [drwav_alaw_to_f32] and
    [drwav_ulaw_to_f32] store exactly the binary32 value of the closed forms
    of section 4.4. *)
Theorem companded_samples_match_closed_forms :
  forall (x : byte) (old : f32),
    drwav_alaw_to_f32 1 (Some [x]) (Some [old]) = Ret (Some [Spec.alaw_to_float x])
    /\ drwav_ulaw_to_f32 1 (Some [x]) (Some [old]) = Ret (Some [Spec.ulaw_to_float x]).
Proof.
  intros x old. destruct x; split; vm_compute; reflexivity.
Qed.

(** ** Typed and raw reads *)

Lemma to_size_t_small (z : Z) : 0 <= z <= SIZE_MAX -> to_size_t z = z.
Proof. intros H. unfold to_size_t. apply Z.mod_small. unfold SIZE_MAX in H. lia. Qed.

Lemma to_uint64_small (z : Z) : 0 <= z <= SIZE_MAX -> to_uint64 z = z.
Proof. exact (to_size_t_small z). Qed.

Lemma bind_ret {A B : Type} (a : A) (k : A -> outcome B) : bind (Ret a) k = k a.
Proof. reflexivity. Qed.

Lemma udiv_pos (a b : Z) : 0 < b -> udiv a b = Ret (a / b).
Proof.
  intros H. unfold udiv. destruct (b =? 0) eqn:E; [apply Z.eqb_eq in E; lia|reflexivity].
Qed.

Section Stream.

Context {U : Type}.

(** The read callback "returns at most the requested byte count". *)
Definition returns_at_most_requested (rd : drwav_read_proc U) : Prop :=
  forall u n, 0 <= n -> Z.of_nat (length (fst (rd u n))) <= n.

(** What [drwav_read_raw] asks of the byte source. *)
Definition raw_request (w : drwav U) (bytesToRead : Z) : Z :=
  Z.min bytesToRead (bytesRemaining w).

Lemma drwav_read_raw_unfold (w : drwav U) (rd : drwav_read_proc U)
      (buf : list byte) (bytesToRead : Z) :
  onRead w = Some rd ->
  0 < bytesToRead ->
  0 <= bytesRemaining w <= SIZE_MAX ->
  drwav_read_raw (Some w) (Some buf) bytesToRead
  = let '(data, u) := rd (pUserData w) (raw_request w bytesToRead) in
    Ret (returned_count data, Some (overwrite buf data),
         Some (with_stream w u (to_uint64 (bytesRemaining w - returned_count data)))).
Proof.
  intros Hrd Hpos Hrem. unfold drwav_read_raw, raw_request.
  destruct (bytesToRead =? 0) eqn:E; [apply Z.eqb_eq in E; lia|].
  rewrite Hrd.
  destruct (bytesToRead >? bytesRemaining w) eqn:G.
  - apply Z.gtb_lt in G. rewrite to_size_t_small, Z.min_r by lia. reflexivity.
  - rewrite Z.min_l; [reflexivity|].
    destruct (Z.gtb_spec bytesToRead (bytesRemaining w)); [discriminate|lia].
Qed.

(** [drwav_read] is [drwav_read_raw] on the bytes of the samples that fit
    the buffer. *)
Lemma drwav_read_unfold (w : drwav U) (samplesToRead : Z) (buf : list byte)
      (bufferOutSize : Z) :
  0 < bytesPerSample w ->
  0 <= samplesToRead ->
  0 <= bufferOutSize <= SIZE_MAX ->
  let clamped := Z.min samplesToRead (bufferOutSize / bytesPerSample w) in
  0 <= clamped * bytesPerSample w <= bufferOutSize
  /\ drwav_read (Some w) samplesToRead (Some buf) bufferOutSize
     = ('(bytesRead, buf', pWav') <-
           drwav_read_raw (Some w) (Some buf) (clamped * bytesPerSample w) ;;
        Ret (bytesRead / bytesPerSample w, buf', pWav')).
Proof.
  intros Hbps Hs Hcap clamped.
  set (maxSamples := bufferOutSize / bytesPerSample w) in *.
  assert (Hmax : 0 <= maxSamples) by (apply Z.div_pos; lia).
  assert (Hmul : maxSamples * bytesPerSample w <= bufferOutSize).
  { unfold maxSamples. rewrite Z.mul_comm. apply Z.mul_div_le. lia. }
  assert (Hclamped : 0 <= clamped <= maxSamples) by (unfold clamped; lia).
  assert (Hbytes : 0 <= clamped * bytesPerSample w <= bufferOutSize) by nia.
  split; [exact Hbytes|].
  unfold drwav_read.
  destruct (samplesToRead =? 0) eqn:E.
  - apply Z.eqb_eq in E.
    replace clamped with 0 by (unfold clamped; lia). simpl.
    now rewrite Z.div_0_l by lia.
  - rewrite udiv_pos by lia. rewrite bind_ret. fold maxSamples.
    replace (if samplesToRead >? maxSamples then maxSamples else samplesToRead)
      with clamped.
    2:{ unfold clamped. destruct (Z.gtb_spec samplesToRead maxSamples); lia. }
    rewrite to_size_t_small by lia.
    destruct (drwav_read_raw (Some w) (Some buf) (clamped * bytesPerSample w))
      as [[[n b] p]| |]; [|reflexivity|reflexivity].
    rewrite !bind_ret. now rewrite udiv_pos by lia.
Qed.

(** C1, as the code has it. [drwav_read] clamps [samplesToRead] to
    [bufferOutSize / bytesPerSample] only, hands [drwav_read_raw] that many
    samples' bytes, and returns the quotient of the bytes read by
    [bytesPerSample]; it is [drwav_read_raw] that clamps, in bytes, to
    [bytesRemaining], so the byte source is asked for
    [min (clamped * bytesPerSample) bytesRemaining] bytes. *)
Theorem drwav_read_clamps_to_capacity :
  forall (w : drwav U) (rd : drwav_read_proc U) (samplesToRead : Z)
         (buf : list byte) (bufferOutSize : Z),
    onRead w = Some rd ->
    0 < bytesPerSample w ->
    0 <= samplesToRead ->
    0 <= bufferOutSize <= SIZE_MAX ->
    0 <= bytesRemaining w <= SIZE_MAX ->
    let maxSamples := bufferOutSize / bytesPerSample w in
    let clamped := Z.min samplesToRead maxSamples in
    drwav_read (Some w) samplesToRead (Some buf) bufferOutSize
    = ('(bytesRead, buf', pWav') <-
          drwav_read_raw (Some w) (Some buf) (clamped * bytesPerSample w) ;;
       Ret (bytesRead / bytesPerSample w, buf', pWav'))
    /\ (clamped = 0 ->
        drwav_read (Some w) samplesToRead (Some buf) bufferOutSize
        = Ret (0, Some buf, Some w))
    /\ (0 < clamped ->
        drwav_read (Some w) samplesToRead (Some buf) bufferOutSize
        = let '(data, u) :=
            rd (pUserData w) (Z.min (clamped * bytesPerSample w) (bytesRemaining w)) in
          Ret (returned_count data / bytesPerSample w,
               Some (overwrite buf data),
               Some (with_stream w u
                       (to_uint64 (bytesRemaining w - returned_count data))))).
Proof.
  intros w rd samplesToRead buf bufferOutSize Hrd Hbps Hs Hcap Hrem maxSamples clamped.
  destruct (drwav_read_unfold w samplesToRead buf bufferOutSize Hbps Hs Hcap)
    as [Hbytes Hcode].
  fold maxSamples in Hbytes, Hcode. fold clamped in Hbytes, Hcode.
  split; [exact Hcode|split].
  - intros H0. rewrite Hcode, H0. reflexivity.
  - intros Hpos. rewrite Hcode.
    rewrite (drwav_read_raw_unfold w rd) by (try assumption; nia).
    unfold raw_request.
    destruct (rd (pUserData w) (Z.min (clamped * bytesPerSample w) (bytesRemaining w)))
      as [data u].
    reflexivity.
Qed.

(** *** Sequences of reads *)

Inductive stream_call : Type :=
| CallReadRaw (pBufferOut : ptr (list byte)) (bytesToRead : Z)
| CallRead (samplesToRead : Z) (pBufferOut : ptr (list byte)) (bufferOutSize : Z).

(** The arguments are [size_t] values. *)
Definition call_in_range (c : stream_call) : Prop :=
  match c with
  | CallReadRaw _ bytesToRead => 0 <= bytesToRead <= SIZE_MAX
  | CallRead samplesToRead _ bufferOutSize =>
      0 <= samplesToRead <= SIZE_MAX /\ 0 <= bufferOutSize <= SIZE_MAX
  end.

Definition do_call (pWav : ptr (drwav U)) (c : stream_call)
  : outcome (Z * ptr (list byte) * ptr (drwav U)) :=
  match c with
  | CallReadRaw pBufferOut bytesToRead => drwav_read_raw pWav pBufferOut bytesToRead
  | CallRead samplesToRead pBufferOut bufferOutSize =>
      drwav_read pWav samplesToRead pBufferOut bufferOutSize
  end.

(** The decoder after each call of the sequence. *)
Fixpoint run_calls (pWav : ptr (drwav U)) (calls : list stream_call)
  : outcome (list (ptr (drwav U))) :=
  match calls with
  | [] => Ret []
  | c :: calls' =>
      '(_, _, pWav') <- do_call pWav c ;;
      rest <- run_calls pWav' calls' ;;
      Ret (pWav' :: rest)
  end.

Fixpoint non_increasing (l : list Z) : Prop :=
  match l with
  | a :: (b :: _) as tl => b <= a /\ non_increasing tl
  | _ => True
  end.

(** What a read leaves of the decoder: everything but the stream. *)
Definition same_decoder (w w' : drwav U) : Prop :=
  onRead w' = onRead w /\ bytesPerSample w' = bytesPerSample w.

Lemma drwav_read_raw_step (w : drwav U) (rd : drwav_read_proc U)
      (pBufferOut : ptr (list byte)) (bytesToRead : Z) :
  onRead w = Some rd ->
  returns_at_most_requested rd ->
  0 <= bytesRemaining w <= SIZE_MAX ->
  0 <= bytesToRead <= SIZE_MAX ->
  exists n buf' w',
    drwav_read_raw (Some w) pBufferOut bytesToRead = Ret (n, buf', Some w')
    /\ same_decoder w w'
    /\ 0 <= n <= raw_request w bytesToRead
    /\ bytesRemaining w' = bytesRemaining w - n.
Proof.
  intros Hrd Hwb Hrem Hn.
  destruct pBufferOut as [buf|].
  2:{ exists 0, None, w. unfold raw_request. repeat split; simpl; lia. }
  destruct (Z.eq_dec bytesToRead 0) as [->|Hnz].
  { exists 0, (Some buf), w. unfold raw_request. repeat split; simpl; lia. }
  rewrite (drwav_read_raw_unfold w rd) by (try assumption; lia).
  pose proof (Hwb (pUserData w) (raw_request w bytesToRead)) as Hlen.
  destruct (rd (pUserData w) (raw_request w bytesToRead)) as [data u]. simpl in Hlen.
  assert (Hreq : 0 <= raw_request w bytesToRead <= bytesRemaining w)
    by (unfold raw_request; lia).
  specialize (Hlen (proj1 Hreq)).
  assert (Hcount : returned_count data = Z.of_nat (length data)).
  { unfold returned_count. apply to_size_t_small. lia. }
  eexists _, _, _. split; [reflexivity|].
  rewrite Hcount. repeat split; try lia.
  simpl. apply to_uint64_small. lia.
Qed.

Lemma do_call_step (w : drwav U) (rd : drwav_read_proc U) (c : stream_call) :
  onRead w = Some rd ->
  returns_at_most_requested rd ->
  0 < bytesPerSample w ->
  0 <= bytesRemaining w <= SIZE_MAX ->
  call_in_range c ->
  exists n buf' w',
    do_call (Some w) c = Ret (n, buf', Some w')
    /\ same_decoder w w'
    /\ 0 <= bytesRemaining w' <= bytesRemaining w.
Proof.
  intros Hrd Hwb Hbps Hrem Hc.
  destruct c as [pBufferOut bytesToRead|samplesToRead pBufferOut bufferOutSize];
    simpl in Hc; unfold do_call.
  - destruct (drwav_read_raw_step w rd pBufferOut bytesToRead Hrd Hwb Hrem Hc)
      as (n & buf' & w' & Hcall & Hsame & Hn & Hrem').
    exists n, buf', w'. unfold raw_request in Hn.
    split; [exact Hcall|split; [exact Hsame|lia]].
  - destruct Hc as [Hs Hcap].
    destruct pBufferOut as [buf|].
    2:{ exists 0, None, w. repeat split; simpl; lia. }
    destruct (drwav_read_unfold w samplesToRead buf bufferOutSize Hbps (proj1 Hs) Hcap)
      as [Hfit Hcode].
    rewrite Hcode.
    set (bytes := Z.min samplesToRead (bufferOutSize / bytesPerSample w) * bytesPerSample w)
      in *.
    assert (Hbytes : 0 <= bytes <= SIZE_MAX) by lia.
    destruct (drwav_read_raw_step w rd (Some buf) bytes Hrd Hwb Hrem Hbytes)
      as (n & buf' & w' & Hcall & Hsame & Hn & Hrem').
    rewrite Hcall, bind_ret.
    eexists _, _, _. split; [reflexivity|].
    unfold raw_request in Hn. split; [exact Hsame|lia].
Qed.

Lemma reads_never_increase :
  forall (calls : list stream_call) (w : drwav U) (rd : drwav_read_proc U),
    onRead w = Some rd ->
    returns_at_most_requested rd ->
    0 < bytesPerSample w ->
    0 <= bytesRemaining w <= SIZE_MAX ->
    Forall call_in_range calls ->
    exists ws,
      run_calls (Some w) calls = Ret (map Some ws)
      /\ non_increasing (map bytesRemaining (w :: ws))
      /\ Forall (fun w' => same_decoder w w'
                           /\ 0 <= bytesRemaining w' <= bytesRemaining w) ws.
Proof.
  induction calls as [|c calls IH]; intros w rd Hrd Hwb Hbps Hrem Hcalls.
  - exists []. repeat split; constructor.
  - inversion Hcalls as [|? ? Hc Hrest]; subst.
    destruct (do_call_step w rd c Hrd Hwb Hbps Hrem Hc)
      as (n & buf' & w' & Hcall & [Hrd' Hbps'] & Hrem').
    destruct (IH w' rd) as (ws & Hrun & Hmono & Hbound); try assumption.
    + now rewrite Hrd'.
    + now rewrite Hbps'.
    + lia.
    + exists (w' :: ws). simpl. rewrite Hcall, bind_ret, Hrun, bind_ret.
      split; [reflexivity|split].
      * split; [lia|exact Hmono].
      * constructor; [split; [split; assumption|lia]|].
        eapply Forall_impl; [|exact Hbound]. cbv beta.
        intros w'' [[Hrd'' Hbps''] Hrem'']. unfold same_decoder.
        rewrite Hrd'', Hbps''. repeat split; try assumption; lia.
Qed.

(** A raw read over a well-behaved source: the request is clamped to
    [bytesRemaining], which then drops by the bytes delivered. *)
Lemma drwav_read_raw_clamps (w : drwav U) (rd : drwav_read_proc U)
      (buf : list byte) (bytesToRead : Z) :
  onRead w = Some rd ->
  returns_at_most_requested rd ->
  0 <= bytesRemaining w <= SIZE_MAX ->
  0 < bytesToRead <= SIZE_MAX ->
  drwav_read_raw (Some w) (Some buf) bytesToRead
  = let '(data, u) := rd (pUserData w) (Z.min bytesToRead (bytesRemaining w)) in
    Ret (Z.of_nat (length data), Some (overwrite buf data),
         Some (with_stream w u (bytesRemaining w - Z.of_nat (length data)))).
Proof.
  intros Hrd Hwb Hrem Hn.
  rewrite (drwav_read_raw_unfold w rd) by (try assumption; lia).
  unfold raw_request.
  pose proof (Hwb (pUserData w) (Z.min bytesToRead (bytesRemaining w))) as Hlen.
  destruct (rd (pUserData w) (Z.min bytesToRead (bytesRemaining w))) as [data u].
  cbn [fst] in Hlen. specialize (Hlen ltac:(lia)).
  assert (Hcount : returned_count data = Z.of_nat (length data)).
  { unfold returned_count. apply to_size_t_small. lia. }
  rewrite Hcount, to_uint64_small by lia. reflexivity.
Qed.

End Stream.

(** ** Seeking *)

(** The magnitudes [offset32] the loops hand to the relative seek for a
    distance of [offset] bytes. *)
Fixpoint chunks_of (fuel : nat) (offset : Z) : list Z :=
  match fuel with
  | O => []
  | S fuel' =>
      if offset >? 0
      then Z.min offset INT_MAX :: chunks_of fuel' (offset - Z.min offset INT_MAX)
      else []
  end.

Definition seek_chunks (offset : Z) : list Z :=
  chunks_of (Z.to_nat (offset / INT_MAX) + 1) offset.

(** The relative offsets of a seek by the signed distance [delta]. *)
Definition signed_steps (delta : Z) : list Z :=
  if 0 <? delta then seek_chunks delta else map Z.opp (seek_chunks (- delta)).

Definition sum (l : list Z) : Z := fold_right Z.add 0 l.

Lemma chunks_of_spec (fuel : nat) :
  forall offset,
    0 <= offset <= Z.of_nat fuel * INT_MAX ->
    Forall (fun c => 0 < c <= INT_MAX) (chunks_of fuel offset)
    /\ sum (chunks_of fuel offset) = offset.
Proof.
  induction fuel as [|fuel IH]; intros offset H.
  - simpl. split; [constructor|]. simpl in H. lia.
  - cbn [chunks_of]. rewrite Nat2Z.inj_succ in H.
    destruct (Z.gtb_spec offset 0) as [Hpos|Hle].
    + destruct (IH (offset - Z.min offset INT_MAX)) as [Hall Hsum];
        [unfold INT_MAX in *; lia|].
      split; [constructor; [unfold INT_MAX; lia|exact Hall]|].
      unfold sum in *. cbn [fold_right]. rewrite Hsum. lia.
    + split; [constructor|]. unfold sum. simpl. lia.
Qed.

Lemma seek_chunks_spec (offset : Z) :
  0 <= offset ->
  Forall (fun c => 0 < c <= INT_MAX) (seek_chunks offset)
  /\ sum (seek_chunks offset) = offset.
Proof.
  intros H. apply chunks_of_spec. split; [lia|].
  assert (0 <= offset / INT_MAX) by (apply Z.div_pos; unfold INT_MAX; lia).
  pose proof (Z.mod_pos_bound offset INT_MAX ltac:(unfold INT_MAX; lia)).
  pose proof (Z.div_mod offset INT_MAX ltac:(unfold INT_MAX; lia)).
  unfold INT_MAX in *. lia.
Qed.

Lemma sum_map_opp (l : list Z) : sum (map Z.opp l) = - sum l.
Proof. unfold sum. induction l as [|x l IH]; simpl; [reflexivity|]. rewrite IH. lia. Qed.

Lemma signed_steps_spec (delta : Z) :
  Forall (fun o => o <> 0 /\ - INT_MAX <= o <= INT_MAX) (signed_steps delta)
  /\ sum (signed_steps delta) = delta
  /\ Forall (fun o => 0 < o <-> 0 < delta) (signed_steps delta).
Proof.
  unfold signed_steps. destruct (Z.ltb_spec 0 delta) as [Hpos|Hneg].
  - destruct (seek_chunks_spec delta ltac:(lia)) as [Hall Hsum].
    split; [|split]; [| exact Hsum |];
      (eapply Forall_impl; [|exact Hall]); unfold INT_MAX; intros; lia.
  - destruct (seek_chunks_spec (- delta) ltac:(lia)) as [Hall Hsum].
    rewrite sum_map_opp, Hsum.
    split; [|split]; [| lia |]; apply Forall_map;
      (eapply Forall_impl; [|exact Hall]); unfold INT_MAX; intros; lia.
Qed.

Section Seek.

Context {U : Type}.

(** The user data after the relative seeks [steps], whatever they return. *)
Definition apply_seeks (sk : drwav_seek_proc U) (u : U) (steps : list Z) : U :=
  fold_left (fun u o => snd (sk u o)) steps u.

Lemma with_stream_same (w : drwav U) :
  with_stream w (pUserData w) (bytesRemaining w) = w.
Proof. destruct w; reflexivity. Qed.

Lemma with_stream_twice (w : drwav U) (u u' : U) (r r' : Z) :
  with_stream (with_stream w u r) u' r' = with_stream w u' r'.
Proof. reflexivity. Qed.

Lemma to_int_small (z : Z) : - INT_MAX <= z <= INT_MAX -> to_int z = z.
Proof.
  unfold INT_MAX, to_int, to_signed. intros H.
  change (2 ^ 32) with 4294967296. change (2 ^ (32 - 1)) with 2147483648.
  destruct (Z.ltb_spec 0 (z + 1)) as [Hp|Hn].
  - rewrite Z.mod_small by lia.
    destruct (Z.ltb_spec z 2147483648); lia.
  - replace (z mod 4294967296) with (z + 4294967296).
    + destruct (Z.ltb_spec (z + 4294967296) 2147483648); lia.
    + apply (Zmod_unique z 4294967296 (-1)); lia.
Qed.

Lemma to_uint64_sub_l (a c : Z) : to_uint64 (to_uint64 a - c) = to_uint64 (a - c).
Proof. unfold to_uint64. apply Zminus_mod_idemp_l. Qed.

Lemma to_uint64_range (z : Z) : 0 <= to_uint64 z <= SIZE_MAX.
Proof.
  unfold to_uint64, SIZE_MAX.
  pose proof (Z.mod_pos_bound z (2 ^ 64) ltac:(lia)). lia.
Qed.

Lemma drwav_seek__loop_turn (fuel : nat) (sk : drwav_seek_proc U) (w : drwav U)
      (offset direction : Z) :
  drwav_seek__loop (S fuel) sk w offset direction
  = if offset >? 0 then
      let offset32 := if offset >? INT_MAX then INT_MAX else to_int offset in
      let '(_, u) := sk (pUserData w) (to_int (offset32 * direction)) in
      drwav_seek__loop fuel sk
        (with_stream w u (to_uint64 (bytesRemaining w - offset32 * direction)))
        (to_uint64 (offset - offset32)) direction
    else Ret w.
Proof. reflexivity. Qed.

Lemma drwav_seek__loop_runs (sk : drwav_seek_proc U) (direction : Z) :
  direction = 1 \/ direction = -1 ->
  forall (fuel : nat) (w : drwav U) (offset : Z),
    0 <= offset <= SIZE_MAX ->
    offset <= Z.of_nat fuel * INT_MAX ->
    0 <= bytesRemaining w <= SIZE_MAX ->
    drwav_seek__loop (S fuel) sk w offset direction
    = Ret (with_stream w
             (apply_seeks sk (pUserData w)
                (map (fun c => c * direction) (chunks_of fuel offset)))
             (to_uint64 (bytesRemaining w - offset * direction))).
Proof.
  intros Hdir.
  induction fuel as [|fuel IH]; intros w offset Hoff Hfuel Hrem.
  - assert (offset = 0) as -> by (simpl in Hfuel; lia).
    simpl. rewrite Z.sub_0_r, to_uint64_small by lia.
    now rewrite with_stream_same.
  - rewrite drwav_seek__loop_turn. cbn [chunks_of].
    destruct (Z.gtb_spec offset 0) as [Hpos|Hle].
    + cbv zeta.
      set (offset32 := if offset >? INT_MAX then INT_MAX else to_int offset).
      assert (H32 : offset32 = Z.min offset INT_MAX).
      { unfold offset32. destruct (Z.gtb_spec offset INT_MAX); [lia|].
        rewrite to_int_small; lia. }
      rewrite H32.
      assert (Hmin : 0 < Z.min offset INT_MAX <= INT_MAX) by (unfold INT_MAX in *; lia).
      rewrite (to_int_small (Z.min offset INT_MAX * direction)) by (destruct Hdir; subst; lia).
      destruct (sk (pUserData w) (Z.min offset INT_MAX * direction)) as [r u] eqn:Hsk.
      rewrite (to_uint64_small (offset - Z.min offset INT_MAX)) by lia.
      rewrite IH.
      * cbn [map apply_seeks fold_left]. rewrite Hsk. cbn [snd].
        rewrite with_stream_twice. f_equal. f_equal.
        cbn [bytesRemaining with_stream]. rewrite to_uint64_sub_l. f_equal. lia.
      * lia.
      * rewrite Nat2Z.inj_succ in Hfuel. unfold INT_MAX in *. lia.
      * apply to_uint64_range.
    + assert (offset = 0) as -> by lia.
      cbn [map apply_seeks fold_left]. rewrite Z.mul_0_l, Z.sub_0_r, to_uint64_small by lia.
      now rewrite with_stream_same.
Qed.

Lemma seek_fuel_enough (offset : Z) :
  0 <= offset -> offset <= Z.of_nat (Z.to_nat (offset / INT_MAX) + 1) * INT_MAX.
Proof.
  intros H.
  assert (0 <= offset / INT_MAX) by (apply Z.div_pos; unfold INT_MAX; lia).
  pose proof (Z.mod_pos_bound offset INT_MAX ltac:(unfold INT_MAX; lia)).
  pose proof (Z.div_mod offset INT_MAX ltac:(unfold INT_MAX; lia)).
  unfold INT_MAX in *. lia.
Qed.

Lemma map_mul_one (l : list Z) : map (fun c => c * 1) l = l.
Proof. induction l as [|x l IH]; simpl; [reflexivity|]. now rewrite IH, Z.mul_1_r. Qed.

Lemma map_mul_minus_one (l : list Z) : map (fun c => c * -1) l = map Z.opp l.
Proof. apply map_ext. intros; lia. Qed.

(** The clamped sample index of [drwav_seek]. *)
Definition seek_target (w : drwav U) (sample : Z) : Z :=
  if sample >=? totalSampleCount w then to_uint64 (totalSampleCount w - 1) else sample.

(** [totalSizeInBytes], [targetBytePos] and [currentBytePos], as computed
    on [uint64_t]. *)
Definition seek_total_bytes (w : drwav U) : Z :=
  to_uint64 (totalSampleCount w * bytesPerSample w).
Definition seek_target_byte (w : drwav U) (sample : Z) : Z :=
  to_uint64 (seek_target w sample * bytesPerSample w).
Definition seek_current_byte (w : drwav U) : Z :=
  to_uint64 (seek_total_bytes w - bytesRemaining w).

(** The condition of [assert(totalSizeInBytes >= pWav->bytesRemaining)]. *)
Definition seek_assertion (w : drwav U) : Prop :=
  bytesRemaining w <= seek_total_bytes w.

(** What [drwav_seek] does whenever it gets past its assertion: it returns
    1, has issued the relative seeks of the signed distance from the
    current to the target byte and has taken no notice of their results. *)
Lemma seek_remaining_after (w : drwav U) (sample : Z) :
  to_uint64 (bytesRemaining w - (seek_target_byte w sample - seek_current_byte w))
  = to_uint64 (seek_total_bytes w - seek_target_byte w sample).
Proof.
  unfold seek_current_byte, to_uint64.
  replace (bytesRemaining w
           - (seek_target_byte w sample
              - (seek_total_bytes w - bytesRemaining w) mod 2 ^ 64))
    with ((bytesRemaining w - seek_target_byte w sample)
          + (seek_total_bytes w - bytesRemaining w) mod 2 ^ 64) by lia.
  rewrite Zplus_mod_idemp_r. f_equal. lia.
Qed.

Lemma drwav_seek_runs (ndebug : bool) (w : drwav U) (sk : drwav_seek_proc U)
      (sample : Z) :
  onSeek w = Some sk ->
  totalSampleCount w <> 0 ->
  0 <= bytesRemaining w <= SIZE_MAX ->
  ndebug = true \/ seek_assertion w ->
  let delta := seek_target_byte w sample - seek_current_byte w in
  drwav_seek ndebug (Some w) sample
  = Ret (1, Some (with_stream w
                    (apply_seeks sk (pUserData w) (signed_steps delta))
                    (to_uint64 (seek_total_bytes w - seek_target_byte w sample)))).
Proof.
  intros Hsk Htotal Hrem Hassert delta.
  unfold drwav_seek. rewrite Hsk.
  destruct (Z.eqb_spec (totalSampleCount w) 0) as [E|_]; [contradiction|].
  fold (seek_target w sample). fold (seek_total_bytes w).
  fold (seek_target_byte w sample). fold (seek_current_byte w).
  assert (Hguard : negb ndebug && negb (seek_total_bytes w >=? bytesRemaining w) = false).
  { destruct Hassert as [->|Ha]; [reflexivity|].
    unfold seek_assertion in Ha.
    destruct (Z.geb_spec (seek_total_bytes w) (bytesRemaining w)); [|lia].
    now rewrite andb_false_r. }
  rewrite Hguard.
  pose proof (to_uint64_range (seek_target w sample * bytesPerSample w)) as Ht.
  pose proof (to_uint64_range (seek_total_bytes w - bytesRemaining w)) as Hc.
  fold (seek_target_byte w sample) in Ht. fold (seek_current_byte w) in Hc.
  assert (Hfinal : forall x, x = bytesRemaining w + seek_current_byte w
                                 - seek_target_byte w sample ->
                   to_uint64 x = to_uint64 (seek_total_bytes w - seek_target_byte w sample)).
  { intros x ->. rewrite <- seek_remaining_after. f_equal. lia. }
  destruct (Z.ltb_spec (seek_current_byte w) (seek_target_byte w sample)) as [Hlt|Hge].
  - rewrite to_uint64_small by lia.
    replace (Z.to_nat ((seek_target_byte w sample - seek_current_byte w) / INT_MAX) + 2)%nat
      with (S (Z.to_nat ((seek_target_byte w sample - seek_current_byte w) / INT_MAX) + 1))
      by lia.
    rewrite drwav_seek__loop_runs; try lia; [|apply seek_fuel_enough; lia].
    rewrite bind_ret, map_mul_one.
    unfold signed_steps, delta.
    destruct (Z.ltb_spec 0 (seek_target_byte w sample - seek_current_byte w)); [|lia].
    unfold seek_chunks. erewrite Hfinal; [reflexivity|lia].
  - rewrite to_uint64_small by lia.
    replace (Z.to_nat ((seek_current_byte w - seek_target_byte w sample) / INT_MAX) + 2)%nat
      with (S (Z.to_nat ((seek_current_byte w - seek_target_byte w sample) / INT_MAX) + 1))
      by lia.
    rewrite drwav_seek__loop_runs; try lia; [|apply seek_fuel_enough; lia].
    rewrite bind_ret, map_mul_minus_one.
    unfold signed_steps, delta.
    destruct (Z.ltb_spec 0 (seek_target_byte w sample - seek_current_byte w)); [lia|].
    replace (- (seek_target_byte w sample - seek_current_byte w))
      with (seek_current_byte w - seek_target_byte w sample) by lia.
    unfold seek_chunks. erewrite Hfinal; [reflexivity|lia].
Qed.

(** The seek on a decoder without samples. *)
Lemma drwav_seek_empty (ndebug : bool) (w : drwav U) (sample : Z) :
  onSeek w <> None ->
  totalSampleCount w = 0 ->
  drwav_seek ndebug (Some w) sample = Ret (1, Some w).
Proof.
  intros Hsk Htotal. unfold drwav_seek.
  destruct (onSeek w); [|contradiction]. now rewrite Htotal.
Qed.

(** The seek whenever the bookkeeping is exact: [bytesRemaining] is at most
    [totalSampleCount * bytesPerSample] and that product is a [uint64_t]. *)
Lemma drwav_seek_lands (ndebug : bool) (w : drwav U) (sk : drwav_seek_proc U)
      (sample : Z) :
  onSeek w = Some sk ->
  0 < totalSampleCount w <= SIZE_MAX ->
  0 <= bytesPerSample w ->
  totalSampleCount w * bytesPerSample w <= SIZE_MAX ->
  0 <= bytesRemaining w <= totalSampleCount w * bytesPerSample w ->
  0 <= sample ->
  let index := Z.min sample (totalSampleCount w - 1) in
  let current := totalSampleCount w * bytesPerSample w - bytesRemaining w in
  let delta := index * bytesPerSample w - current in
  drwav_seek ndebug (Some w) sample
  = Ret (1, Some (with_stream w
                    (apply_seeks sk (pUserData w) (signed_steps delta))
                    ((totalSampleCount w - index) * bytesPerSample w)))
  /\ bytesRemaining w - delta = (totalSampleCount w - index) * bytesPerSample w.
Proof.
  intros Hsk Htotal Hbps Hsize Hrem Hsample index current delta.
  assert (Htarget : seek_target w sample = index).
  { unfold seek_target, index.
    destruct (Z.geb_spec sample (totalSampleCount w)).
    - rewrite to_uint64_small by lia. lia.
    - lia. }
  assert (HT : seek_total_bytes w = totalSampleCount w * bytesPerSample w).
  { unfold seek_total_bytes. apply to_uint64_small. nia. }
  assert (Hidx : 0 <= index <= totalSampleCount w - 1) by (unfold index; lia).
  assert (Ht : seek_target_byte w sample = index * bytesPerSample w).
  { unfold seek_target_byte. rewrite Htarget. apply to_uint64_small. nia. }
  assert (Hc : seek_current_byte w = current).
  { unfold seek_current_byte. rewrite HT. apply to_uint64_small. unfold current. lia. }
  split; [|unfold delta, current; lia].
  rewrite (drwav_seek_runs ndebug w sk) by
      (try assumption; try lia; right; unfold seek_assertion; lia).
  rewrite HT, Ht, Hc. fold delta.
  rewrite to_uint64_small by nia.
  do 4 f_equal. lia.
Qed.

End Seek.

(** *** The memory source under backward seeks *)

Lemma sum_nonpos (steps : list Z) : Forall (fun o => o < 0) steps -> sum steps <= 0.
Proof.
  unfold sum. induction 1 as [|o steps Ho _ IH]; simpl; lia.
Qed.

Lemma drwav__on_seek_memory_backward (m : drwav_memory) (offset : Z) :
  - INT_MAX <= offset < 0 ->
  0 <= currentReadPos m <= SIZE_MAX ->
  drwav__on_seek_memory m offset
  = (1, mk_memory (data m) (dataSize m) (Z.max 0 (currentReadPos m + offset))).
Proof.
  intros Ho Hpos. unfold drwav__on_seek_memory.
  destruct (Z.gtb_spec offset 0) as [|_]; [lia|].
  assert (Hneg : 0 < - offset <= SIZE_MAX) by (unfold INT_MAX, SIZE_MAX in *; lia).
  rewrite (to_size_t_small (- offset)) by lia.
  destruct (Z.ltb_spec (currentReadPos m) (- offset)) as [Hlt|Hge].
  - rewrite (to_int_small (currentReadPos m)) by (unfold INT_MAX in *; lia).
    rewrite to_int_small by (unfold INT_MAX in *; lia).
    rewrite Z.add_opp_diag_r, Z.max_l by lia. reflexivity.
  - rewrite to_size_t_small, Z.max_r by lia. reflexivity.
Qed.

Lemma apply_seeks_memory_backward (steps : list Z) :
  forall m : drwav_memory,
    Forall (fun o => - INT_MAX <= o < 0) steps ->
    0 <= currentReadPos m <= SIZE_MAX ->
    apply_seeks drwav__on_seek_memory m steps
    = mk_memory (data m) (dataSize m) (Z.max 0 (currentReadPos m + sum steps)).
Proof.
  induction steps as [|o steps IH]; intros m Hall Hpos.
  - unfold sum. simpl. rewrite Z.add_0_r, Z.max_r by lia. now destruct m.
  - inversion Hall as [|? ? Ho Hrest]; subst.
    assert (Hsum : sum steps <= 0).
    { apply sum_nonpos. eapply Forall_impl; [|exact Hrest]. simpl; intros; lia. }
    unfold apply_seeks in *. cbn [fold_left].
    rewrite drwav__on_seek_memory_backward by assumption. cbn [snd].
    rewrite IH by (cbn [currentReadPos]; try assumption; lia).
    cbn [data dataSize currentReadPos]. f_equal.
    unfold sum in *. cbn [fold_right]. lia.
Qed.

(** ** Little-endian fields *)

Lemma byte_val_range (b : byte) : 0 <= byte_val b < 256.
Proof.
  unfold byte_val. pose proof (Byte.to_N_bounded b). lia.
Qed.

Lemma lor_shiftl_add (a b n : Z) :
  0 <= n -> 0 <= a < 2 ^ n -> Z.lor a (Z.shiftl b n) = a + b * 2 ^ n.
Proof.
  intros Hn Ha. rewrite Z.shiftl_mul_pow2 by lia.
  assert (Hdisjoint : Z.land a (b * 2 ^ n) = 0).
  { apply Z.bits_inj'. intros i Hi.
    rewrite Z.land_spec, Z.bits_0.
    destruct (Z.lt_ge_cases i n) as [Hlow|Hhigh].
    - now rewrite Z.mul_pow2_bits_low, andb_false_r.
    - assert (Z.testbit a i = false) as ->; [|reflexivity].
      apply Z.testbit_false; [lia|].
      rewrite Z.div_small; [reflexivity|].
      split; [lia|]. apply Z.lt_le_trans with (2 ^ n); [lia|].
      apply Z.pow_le_mono_r; lia. }
  now rewrite <- Z.lxor_lor, <- Z.add_nocarry_lxor.
Qed.

(** The value of the little-endian field at the start of [data]. *)
Definition le_u16 (data : list byte) : Z := at_ data 0 + at_ data 1 * 2 ^ 8.
Definition le_u32 (data : list byte) : Z :=
  at_ data 0 + at_ data 1 * 2 ^ 8 + at_ data 2 * 2 ^ 16 + at_ data 3 * 2 ^ 24.

Lemma at_range (data : list byte) (i : nat) : 0 <= at_ data i < 256.
Proof. apply byte_val_range. Qed.

Lemma le_u32_range (data : list byte) : 0 <= le_u32 data < 2 ^ 32.
Proof.
  unfold le_u32.
  pose proof (at_range data 0). pose proof (at_range data 1).
  pose proof (at_range data 2). pose proof (at_range data 3). lia.
Qed.

Lemma drwav__read_u16_le (data : list byte) : drwav__read_u16 data = le_u16 data.
Proof.
  unfold drwav__read_u16, le_u16.
  change drwav__is_little_endian with true. cbv iota.
  pose proof (at_range data 0). pose proof (at_range data 1).
  rewrite Z.shiftl_0_r, lor_shiftl_add by lia.
  unfold to_ushort. apply Z.mod_small. lia.
Qed.

Lemma drwav__read_u32_le (data : list byte) : drwav__read_u32 data = le_u32 data.
Proof.
  unfold drwav__read_u32, le_u32.
  change drwav__is_little_endian with true. cbv iota.
  pose proof (at_range data 0). pose proof (at_range data 1).
  pose proof (at_range data 2). pose proof (at_range data 3).
  rewrite Z.shiftl_0_r.
  rewrite (lor_shiftl_add (at_ data 0)) by lia.
  rewrite (lor_shiftl_add (at_ data 0 + _)) by lia.
  rewrite (lor_shiftl_add (at_ data 0 + _ + _)) by lia.
  unfold to_uint. apply Z.mod_small. lia.
Qed.

(** ** Opening: the format chunk *)

Section OpenFmt.

Context {U : Type}.
Variable rd : drwav_read_proc U.
Variable sk : drwav_seek_proc U.

(** The format chunk as section 4.2 wants it, [u] being the user data once
    the twelve RIFF bytes are consumed: the id is "fmt ", the declared
    little-endian size is 16, 18 or 40, and at 40 the two bytes that
    follow the 24-byte block hold 22. *)
Definition fmt_chunk_acceptable (u : U) : bool :=
  let '(fmt, u) := rd u 24 in
  let size := le_u32 (skipn 4 fmt) in
  fourcc_is fmt "f" "m" "t" " "
  && ((size =? 16) || (size =? 18)
      || ((size =? 40) && (let '(fmt_cbSize, _) := rd u 2 in le_u16 fmt_cbSize =? 22))).

Lemma drwav__read_fmt_rejects (u : U) (fmtOut : drwav_fmt) :
  fmt_chunk_acceptable u = false ->
  fst (fst (drwav__read_fmt rd sk u fmtOut)) = 0.
Proof.
  unfold fmt_chunk_acceptable, drwav__read_fmt.
  destruct (rd u 24) as [fmt u1]. intros H.
  destruct (returned_count fmt =? 24); [|reflexivity]. cbn [negb].
  destruct (fourcc_is fmt "f" "m" "t" " "); [|reflexivity].
  cbn [negb andb] in H |- *.
  rewrite (drwav__read_u32_le (skipn 4 fmt)).
  set (size := le_u32 (skipn 4 fmt)) in *.
  destruct (Z.ltb_spec size 16) as [Hsmall|Hbig]; [reflexivity|].
  destruct (Z.eqb_spec size 16) as [E16|N16]; [discriminate H|].
  destruct (Z.eqb_spec size 18) as [E18|N18]; [discriminate H|].
  destruct (Z.eqb_spec size 40) as [E40|N40]; [|reflexivity].
  cbn [negb andb orb] in H |- *.
  destruct (Z.gtb_spec size 16) as [_|Hle]; [|lia].
  destruct (rd u1 2) as [fmt_cbSize u2].
  destruct (returned_count fmt_cbSize =? 2); [|reflexivity]. cbn [negb].
  rewrite drwav__read_u16_le, H. reflexivity.
Qed.

(** C4. Whenever the format chunk's id is not "fmt ", or its declared
    little-endian size is none of 16, 18 and 40, or that size is 40 and
    the extension-size field is not 22, [drwav_open] returns NULL. *)
Theorem drwav_open_rejects_format_chunk :
  forall (fuel : nat) (env : environment) (u : U),
    fmt_chunk_acceptable (snd (rd u 12)) = false ->
    drwav_open fuel env (Some rd) (Some sk) u = Ret None.
Proof.
  intros fuel env u H. unfold drwav_open.
  destruct (rd u 12) as [riff u1]. cbn [snd] in H.
  destruct (negb (returned_count riff =? 12)); [reflexivity|].
  destruct (negb (fourcc_is riff "R" "I" "F" "F")); [reflexivity|].
  destruct (drwav__read_u32 (skipn 4 riff) <? 36); [reflexivity|].
  destruct (negb (fourcc_is (skipn 8 riff) "W" "A" "V" "E")); [reflexivity|].
  pose proof (drwav__read_fmt_rejects u1 (uninitialised_fmt env) H) as Hfmt.
  destruct (drwav__read_fmt rd sk u1 (uninitialised_fmt env)) as [[ok fmt] u2].
  cbn [fst] in Hfmt. now rewrite Hfmt.
Qed.

(** What a successful [drwav_open] went through. *)
Lemma drwav_open_inv (fuel : nat) (env : environment) (u : U) (w : drwav U) :
  drwav_open fuel env (Some rd) (Some sk) u = Ret (Some w) ->
  exists riff u1 ok f u2 dataSize u3,
    rd u 12 = (riff, u1)
    /\ drwav__read_fmt rd sk u1 (uninitialised_fmt env) = (ok, f, u2)
    /\ ok <> 0
    /\ drwav_open__find_data fuel rd sk u2 = Ret (Some (dataSize, u3))
    /\ Fmt.channels f <> 0
    /\ bytesPerSample w = to_ushort (to_uint (Fmt.blockAlign f / Fmt.channels f))
    /\ bytesPerSample w <> 0
    /\ totalSampleCount w = dataSize / bytesPerSample w
    /\ bytesRemaining w = dataSize
    /\ pUserData w = u3
    /\ onRead w = Some rd
    /\ onSeek w = Some sk
    /\ fmt w = f.
Proof.
  unfold drwav_open. intros H.
  destruct (rd u 12) as [riff u1].
  destruct (negb (returned_count riff =? 12)); [discriminate|].
  destruct (negb (fourcc_is riff "R" "I" "F" "F")); [discriminate|].
  destruct (drwav__read_u32 (skipn 4 riff) <? 36); [discriminate|].
  destruct (negb (fourcc_is (skipn 8 riff) "W" "A" "V" "E")); [discriminate|].
  destruct (drwav__read_fmt rd sk u1 (uninitialised_fmt env)) as [[ok f] u2] eqn:Hfmt.
  destruct (Z.eqb_spec ok 0) as [|Hok]; [discriminate|].
  destruct (drwav_open__find_data fuel rd sk u2) as [[[dataSize u3]|]| |] eqn:Hfind;
    try discriminate.
  rewrite bind_ret in H.
  destruct (negb (malloc_succeeds env)); [discriminate|].
  unfold udiv in H.
  destruct (Z.eqb_spec (Fmt.channels f) 0) as [|Hch]; [discriminate|].
  rewrite bind_ret in H.
  destruct (Z.eqb_spec (to_ushort (to_uint (Fmt.blockAlign f / Fmt.channels f))) 0)
    as [|Hbps]; [discriminate|].
  rewrite bind_ret in H. injection H as <-.
  exists riff, u1, ok, f, u2, dataSize, u3.
  cbn [bytesPerSample totalSampleCount bytesRemaining pUserData onRead onSeek fmt].
  repeat split; try reflexivity; assumption.
Qed.

End OpenFmt.

(** ** Opening: the search for the data chunk *)

(** A chunk of declared size [size] takes one pad byte more when [size] is
    odd. *)
Definition padded (size : Z) : Z := size + size mod 2.

(** The relative seeks that skip [n] bytes. *)
Definition skip_steps (n : Z) : list Z := chunks_of 3 n.

Lemma skip_steps_spec (size : Z) :
  0 <= size < 2 ^ 32 ->
  Forall (fun o => 0 < o <= 0x7FFFFFFF) (skip_steps (padded size))
  /\ sum (skip_steps (padded size)) = padded size.
Proof.
  intros H. apply chunks_of_spec. unfold padded, INT_MAX.
  pose proof (Z.mod_pos_bound size 2 ltac:(lia)). simpl Z.of_nat. lia.
Qed.

Section OpenScan.

Context {U : Type}.
Variable rd : drwav_read_proc U.
Variable sk : drwav_seek_proc U.

(** The seeks [steps] in order, up to the first that reports failure. *)
Fixpoint seek_all (u : U) (steps : list Z) : bool * U :=
  match steps with
  | [] => (true, u)
  | o :: steps' =>
      let '(r, u') := sk u o in
      if r =? 0 then (false, u') else seek_all u' steps'
  end.

Lemma drwav_open__skip_runs (fuel : nat) :
  forall (u : U) (n : Z),
    0 <= n <= Z.of_nat fuel * INT_MAX ->
    n <= SIZE_MAX ->
    drwav_open__skip (S fuel) sk u n = Ret (seek_all u (chunks_of fuel n)).
Proof.
  induction fuel as [|fuel IH]; intros u n Hn Hmax.
  - assert (n = 0) as -> by (simpl in Hn; lia). reflexivity.
  - change (drwav_open__skip (S (S fuel)) sk u n)
      with (if n >? 0 then
              if n >? 0x7FFFFFFF then
                let '(r, u) := sk u 0x7FFFFFFF in
                if r =? 0 then Ret (false, u)
                else drwav_open__skip (S fuel) sk u (to_uint64 (n - 0x7FFFFFFF))
              else
                let '(r, u) := sk u (to_int n) in
                if r =? 0 then Ret (false, u)
                else drwav_open__skip (S fuel) sk u 0
            else Ret (true, u)).
    cbn [chunks_of]. rewrite Nat2Z.inj_succ in Hn.
    destruct (Z.gtb_spec n 0) as [Hpos|Hle]; [|reflexivity].
    destruct (Z.gtb_spec n 0x7FFFFFFF) as [Hbig|Hsmall].
    + replace (Z.min n INT_MAX) with 0x7FFFFFFF by (unfold INT_MAX; lia).
      cbn [seek_all]. destruct (sk u 0x7FFFFFFF) as [r u'].
      destruct (r =? 0); [reflexivity|].
      rewrite to_uint64_small by (unfold SIZE_MAX, INT_MAX in *; lia).
      apply IH; unfold INT_MAX in *; lia.
    + replace (Z.min n INT_MAX) with n by (unfold INT_MAX; lia).
      rewrite to_int_small by (unfold INT_MAX; lia).
      cbn [seek_all]. destruct (sk u n) as [r u'].
      destruct (r =? 0); [reflexivity|].
      rewrite Z.sub_diag. now rewrite IH by (unfold INT_MAX, SIZE_MAX; lia).
Qed.

(** One turn of the chunk loop. *)
Lemma drwav_open__find_data_turn (fuel : nat) (u : U) :
  drwav_open__find_data (S fuel) rd sk u
  = let '(chunk, u1) := rd u 8 in
    if negb (returned_count chunk =? 8) then Ret None
    else if fourcc_is chunk "d" "a" "t" "a"
         then Ret (Some (le_u32 (skipn 4 chunk), u1))
         else
           let '(ok, u2) := seek_all u1 (skip_steps (padded (le_u32 (skipn 4 chunk)))) in
           if ok then drwav_open__find_data fuel rd sk u2 else Ret None.
Proof.
  cbn [drwav_open__find_data].
  destruct (rd u 8) as [chunk u1].
  destruct (negb (returned_count chunk =? 8)); [reflexivity|].
  rewrite drwav__read_u32_le.
  destruct (fourcc_is chunk "d" "a" "t" "a"); [reflexivity|].
  pose proof (le_u32_range (skipn 4 chunk)) as Hsize.
  set (size := le_u32 (skipn 4 chunk)) in *.
  assert (Hpad : (if negb (size mod 2 =? 0) then to_uint64 (size + 1) else size)
                 = padded size).
  { unfold padded. pose proof (Z.mod_pos_bound size 2 ltac:(lia)).
    destruct (Z.eqb_spec (size mod 2) 0) as [E|N]; cbn [negb].
    - lia.
    - rewrite to_uint64_small by (unfold SIZE_MAX; lia). lia. }
  rewrite Hpad.
  rewrite (drwav_open__skip_runs 3).
  2:{ unfold padded, INT_MAX. pose proof (Z.mod_pos_bound size 2 ltac:(lia)).
      simpl Z.of_nat. lia. }
  2:{ unfold padded, SIZE_MAX. pose proof (Z.mod_pos_bound size 2 ltac:(lia)). lia. }
  rewrite bind_ret. reflexivity.
Qed.

(** The search as the specification tells it: [scans_to u r] when, from
    the user data [u], the headers read and the chunks skipped lead to [r],
    the size of the data chunk with the user data at its payload, or
    [None] when a header is not read in full or a seek fails before. *)
Inductive scans_to : U -> option (Z * U) -> Prop :=
| scan_header_short (u : U) (chunk : list byte) (u1 : U) :
    rd u 8 = (chunk, u1) ->
    returned_count chunk <> 8 ->
    scans_to u None
| scan_data_found (u : U) (chunk : list byte) (u1 : U) :
    rd u 8 = (chunk, u1) ->
    returned_count chunk = 8 ->
    fourcc_is chunk "d" "a" "t" "a" = true ->
    scans_to u (Some (le_u32 (skipn 4 chunk), u1))
| scan_seek_failed (u : U) (chunk : list byte) (u1 u2 : U) :
    rd u 8 = (chunk, u1) ->
    returned_count chunk = 8 ->
    fourcc_is chunk "d" "a" "t" "a" = false ->
    seek_all u1 (skip_steps (padded (le_u32 (skipn 4 chunk)))) = (false, u2) ->
    scans_to u None
| scan_chunk_skipped (u : U) (chunk : list byte) (u1 u2 : U) (r : option (Z * U)) :
    rd u 8 = (chunk, u1) ->
    returned_count chunk = 8 ->
    fourcc_is chunk "d" "a" "t" "a" = false ->
    seek_all u1 (skip_steps (padded (le_u32 (skipn 4 chunk)))) = (true, u2) ->
    scans_to u2 r ->
    scans_to u r.

Lemma drwav_open__find_data_sound (fuel : nat) :
  forall (u : U) (r : option (Z * U)),
    drwav_open__find_data fuel rd sk u = Ret r -> scans_to u r.
Proof.
  induction fuel as [|fuel IH]; intros u r H; [discriminate|].
  rewrite drwav_open__find_data_turn in H.
  destruct (rd u 8) as [chunk u1] eqn:Hrd.
  destruct (Z.eqb_spec (returned_count chunk) 8) as [Hcount|Hcount]; cbn [negb] in H.
  - destruct (fourcc_is chunk "d" "a" "t" "a") eqn:Hid.
    + injection H as <-. eapply scan_data_found; eassumption.
    + destruct (seek_all u1 (skip_steps (padded (le_u32 (skipn 4 chunk)))))
        as [[|] u2] eqn:Hseek.
      * eapply scan_chunk_skipped; eauto.
      * injection H as <-. eapply scan_seek_failed; eassumption.
  - injection H as <-. eapply scan_header_short; eassumption.
Qed.

Lemma drwav_open__find_data_complete (u : U) (r : option (Z * U)) :
  scans_to u r ->
  exists fuel0 : nat,
    forall fuel, (fuel0 <= fuel)%nat -> drwav_open__find_data fuel rd sk u = Ret r.
Proof.
  induction 1 as [u chunk u1 Hrd Hcount
                 |u chunk u1 Hrd Hcount Hid
                 |u chunk u1 u2 Hrd Hcount Hid Hseek
                 |u chunk u1 u2 r Hrd Hcount Hid Hseek _ [fuel0 IH]].
  - exists 1%nat. intros [|fuel] Hf; [lia|].
    rewrite drwav_open__find_data_turn, Hrd.
    destruct (Z.eqb_spec (returned_count chunk) 8); [contradiction|reflexivity].
  - exists 1%nat. intros [|fuel] Hf; [lia|].
    rewrite drwav_open__find_data_turn, Hrd, Hcount, Hid. reflexivity.
  - exists 1%nat. intros [|fuel] Hf; [lia|].
    rewrite drwav_open__find_data_turn, Hrd, Hcount, Hid, Hseek. reflexivity.
  - exists (S fuel0). intros [|fuel] Hf; [lia|].
    rewrite drwav_open__find_data_turn, Hrd, Hcount, Hid, Hseek.
    apply IH. lia.
Qed.

(** C9. A chunk whose id is not "data" is skipped by relative seeks, each
    at most 0x7FFFFFFF, that add up to its declared size plus the pad byte
    of an odd size: the skip loop of [drwav_open] issues exactly these
    seeks, up to the first that fails, and the chunk loop returns what the
    search [scans_to] describes, so that a chunk skipped is followed by the
    header behind it.  [drwav_open] returns a decoder only when the search
    reaches a "data" header, does return one when it reaches it (the header
    and the format chunk being accepted, [malloc] succeeding and the two
    divisors not 0), and returns NULL when a header read or a seek fails
    before. *)
Theorem drwav_open_scans_for_data :
  forall (env : environment) (u0 : U) (riff : list byte) (u1 : U) (ok : Z)
         (f : drwav_fmt) (u2 : U),
    rd u0 12 = (riff, u1) ->
    drwav__read_fmt rd sk u1 (uninitialised_fmt env) = (ok, f, u2) ->
    (forall size, 0 <= size < 2 ^ 32 ->
       Forall (fun o => 0 < o <= 0x7FFFFFFF) (skip_steps (padded size))
       /\ sum (skip_steps (padded size)) = size + size mod 2)
    /\ (forall fuel w,
          drwav_open fuel env (Some rd) (Some sk) u0 = Ret (Some w) ->
          exists dataSize u3,
            scans_to u2 (Some (dataSize, u3))
            /\ bytesRemaining w = dataSize /\ pUserData w = u3)
    /\ (scans_to u2 None ->
        exists fuel0 : nat,
          forall fuel, (fuel0 <= fuel)%nat ->
                       drwav_open fuel env (Some rd) (Some sk) u0 = Ret None)
    /\ (forall (u : U) (size : Z),
          0 <= size < 2 ^ 32 ->
          drwav_open__skip 4 sk u (padded size)
          = Ret (seek_all u (skip_steps (padded size))))
    /\ (forall (u : U) (fuel : nat) (r : option (Z * U)),
          drwav_open__find_data fuel rd sk u = Ret r -> scans_to u r)
    /\ (forall (u : U) (r : option (Z * U)),
          scans_to u r ->
          exists fuel0 : nat,
            forall fuel, (fuel0 <= fuel)%nat ->
                         drwav_open__find_data fuel rd sk u = Ret r)
    /\ (forall (dataSize : Z) (u3 : U),
          scans_to u2 (Some (dataSize, u3)) ->
          returned_count riff = 12 ->
          fourcc_is riff "R" "I" "F" "F" = true ->
          36 <= le_u32 (skipn 4 riff) ->
          fourcc_is (skipn 8 riff) "W" "A" "V" "E" = true ->
          ok <> 0 ->
          malloc_succeeds env = true ->
          Fmt.channels f <> 0 ->
          to_ushort (to_uint (Fmt.blockAlign f / Fmt.channels f)) <> 0 ->
          exists fuel0 : nat,
            forall fuel, (fuel0 <= fuel)%nat ->
              exists w,
                drwav_open fuel env (Some rd) (Some sk) u0 = Ret (Some w)
                /\ bytesRemaining w = dataSize /\ pUserData w = u3).
Proof.
  intros env u0 riff u1 ok f u2 Hriff Hfmt.
  split; [exact skip_steps_spec|].
  split; [|split; [|split; [|split; [|split]]]].
  - intros fuel w Hopen.
    destruct (drwav_open_inv rd sk fuel env u0 w Hopen)
      as (riff' & u1' & ok' & f' & u2' & dataSize & u3 & Hriff' & Hfmt' & _ & Hfind
          & _ & _ & _ & _ & Hrem & Hu & _).
    rewrite Hriff in Hriff'. injection Hriff' as <- <-.
    rewrite Hfmt in Hfmt'. injection Hfmt' as <- <- <-.
    exists dataSize, u3. split; [|split; assumption].
    eapply drwav_open__find_data_sound; eassumption.
  - intros Hscan.
    destruct (drwav_open__find_data_complete u2 None Hscan) as [fuel0 Hfuel].
    exists fuel0. intros fuel Hle. unfold drwav_open. rewrite Hriff, Hfmt.
    destruct (negb (returned_count riff =? 12)); [reflexivity|].
    destruct (negb (fourcc_is riff "R" "I" "F" "F")); [reflexivity|].
    destruct (drwav__read_u32 (skipn 4 riff) <? 36); [reflexivity|].
    destruct (negb (fourcc_is (skipn 8 riff) "W" "A" "V" "E")); [reflexivity|].
    destruct (ok =? 0); [reflexivity|].
    rewrite Hfuel by assumption. reflexivity.
  - intros u size Hsize. unfold skip_steps.
    pose proof (Z.mod_pos_bound size 2 ltac:(lia)).
    apply (drwav_open__skip_runs 3); unfold padded, INT_MAX, SIZE_MAX; simpl Z.of_nat; lia.
  - intros u fuel r. apply drwav_open__find_data_sound.
  - intros u r. apply drwav_open__find_data_complete.
  - intros dataSize u3 Hscan Hcount Hid Hsize Hwave Hok Hmalloc Hch Hbps.
    destruct (drwav_open__find_data_complete u2 _ Hscan) as [fuel0 Hfind].
    exists fuel0. intros fuel Hfuel.
    unfold drwav_open. rewrite Hriff, Hcount, Hid, Hwave, drwav__read_u32_le.
    cbn [Z.eqb Pos.eqb negb].
    destruct (Z.ltb_spec (le_u32 (skipn 4 riff)) 36) as [|_]; [lia|].
    rewrite Hfmt.
    destruct (Z.eqb_spec ok 0) as [|_]; [contradiction|].
    rewrite (Hfind fuel Hfuel), bind_ret, Hmalloc. cbn [negb].
    unfold udiv.
    destruct (Z.eqb_spec (Fmt.channels f) 0) as [|_]; [contradiction|].
    rewrite bind_ret.
    destruct (Z.eqb_spec (to_ushort (to_uint (Fmt.blockAlign f / Fmt.channels f))) 0)
      as [|_]; [contradiction|].
    rewrite bind_ret. eexists. split; [reflexivity|]. split; reflexivity.
Qed.

End OpenScan.

(** ** The memory source and concrete containers *)

Lemma drwav__on_read_memory_at_most :
  returns_at_most_requested drwav__on_read_memory.
Proof.
  intros m n Hn. unfold drwav__on_read_memory.
  set (remaining := to_size_t (dataSize m - currentReadPos m)).
  assert (Hlen : forall k (l : list byte),
             Z.of_nat (length (firstn (Z.to_nat k) l)) <= Z.max 0 k).
  { intros k l. pose proof (firstn_le_length (Z.to_nat k) l). lia. }
  destruct (Z.gtb_spec n remaining) as [Hgt|Hle].
  - destruct (Z.gtb_spec remaining 0); cbn [fst length]; [|lia].
    specialize (Hlen remaining (skipn (Z.to_nat (currentReadPos m)) (data m))). lia.
  - destruct (Z.gtb_spec n 0); cbn [fst length]; [|lia].
    specialize (Hlen n (skipn (Z.to_nat (currentReadPos m)) (data m))). lia.
Qed.

(** Mono, 16 bits, four samples. *)
Definition even_container : list byte := wav_file 1 44100 2 16 [0; 0; 0; 64; 0; 192; 255; 127].

Definition even_decoder : drwav drwav_memory :=
  mk_drwav (Some drwav__on_read_memory) (Some drwav__on_seek_memory)
           (mk_memory even_container 52 44)
           (Fmt.mk 1 1 44100 88200 2 16 0 0 0 (repeat "000"%byte 16))
           44100 1 16 2 1 4 8.

Lemma drwav_open_memory_even :
  drwav_open_memory true plain_env even_container = Ret (Some even_decoder).
Proof. reflexivity. Qed.

Lemma drwav_open_memory_odd :
  drwav_open_memory true plain_env odd_container = Ret (Some odd_decoder).
Proof. reflexivity. Qed.

Definition scratch : list byte := repeat "000"%byte 100.

(** *** C1: the witness and the counterexample *)

Lemma drwav_read_clamps_to_capacity_witness :
  drwav_read (Some even_decoder) 3 (Some scratch) 5
  = ('(bytesRead, buf', pWav') <- drwav_read_raw (Some even_decoder) (Some scratch) (2 * 2) ;;
     Ret (bytesRead / 2, buf', pWav')).
Proof.
  refine (proj1 (drwav_read_clamps_to_capacity even_decoder drwav__on_read_memory
                   3 scratch 5 _ _ _ _ _)).
  - reflexivity.
  - reflexivity.
  - discriminate.
  - split; discriminate.
  - split; discriminate.
Defined.

(** With five bytes left of 2-byte samples, [drwav_read] asks the source for
    all five and leaves [bytesRemaining] at 0; a read clamped to the two
    remaining whole samples would ask for four and leave 1. *)
Lemma drwav_read_not_clamped_to_remaining_samples :
  drwav_read (Some odd_decoder) 10 (Some scratch) 100
  <> Spec.typed_read odd_decoder 10 (Some scratch) 100
  /\ (exists buf w', drwav_read (Some odd_decoder) 10 (Some scratch) 100
                     = Ret (2, buf, Some w')
                     /\ bytesRemaining w' = 0 /\ currentReadPos (pUserData w') = 49)
  /\ (exists buf w', Spec.typed_read odd_decoder 10 (Some scratch) 100
                     = Ret (2, buf, Some w')
                     /\ bytesRemaining w' = 1 /\ currentReadPos (pUserData w') = 48).
Proof.
  split; [|split].
  - intros H.
    assert (Hrem : forall r : outcome (Z * ptr (list byte) * ptr (drwav drwav_memory)),
               r = Spec.typed_read odd_decoder 10 (Some scratch) 100 ->
               match r with
               | Ret (_, _, Some w') => bytesRemaining w'
               | _ => -1
               end = 1).
    { intros r ->. vm_compute. reflexivity. }
    specialize (Hrem _ H). vm_compute in Hrem. discriminate.
  - eexists _, _. split; [reflexivity|]. split; reflexivity.
  - eexists _, _. split; [reflexivity|]. split; reflexivity.
Qed.

(** *** Seeking in the memory source *)

(** A backward [drwav_seek] over the memory source, compiled with [NDEBUG]:
    the source stops at its first byte. *)
Lemma drwav_seek_memory_backward (w : drwav drwav_memory) (sample : Z) :
  onSeek w = Some drwav__on_seek_memory ->
  totalSampleCount w <> 0 ->
  0 <= bytesRemaining w <= SIZE_MAX ->
  0 <= currentReadPos (pUserData w) <= SIZE_MAX ->
  seek_target_byte w sample < seek_current_byte w ->
  drwav_seek true (Some w) sample
  = Ret (1, Some (with_stream w
                    (mk_memory (data (pUserData w)) (dataSize (pUserData w))
                       (Z.max 0 (currentReadPos (pUserData w)
                                 + (seek_target_byte w sample - seek_current_byte w))))
                    (to_uint64 (seek_total_bytes w - seek_target_byte w sample)))).
Proof.
  intros Hsk Htotal Hrem Hpos Hback.
  rewrite (drwav_seek_runs true w drwav__on_seek_memory sample Hsk Htotal Hrem
             (or_introl eq_refl)).
  destruct (signed_steps_spec (seek_target_byte w sample - seek_current_byte w))
    as (Hbound & Hsum & Hsign).
  rewrite apply_seeks_memory_backward, Hsum; [reflexivity| |assumption].
  pose proof (Forall_and Hbound Hsign) as Hall.
  eapply Forall_impl; [|exact Hall]. cbv beta. intros o [[Hnz Hrange] Hdir]. lia.
Qed.

(** C2, at a container whose data chunk is not a whole number of samples:
    [drwav_open] leaves [bytesRemaining] (5) above
    [totalSampleCount * bytesPerSample] (4), which [drwav_seek] asserts not
    to happen.  With the assertion compiled in, the seek to sample 0 stops
    there; with [NDEBUG] the current byte position wraps to 2^64 - 1, the
    byte source is sought backward by that much and ends at the first byte
    of the file instead of byte 44, the first sample. *)
Theorem drwav_seek_on_unaligned_data_chunk :
  drwav_open_memory true plain_env odd_container = Ret (Some odd_decoder)
  /\ bytesRemaining odd_decoder = 5
  /\ totalSampleCount odd_decoder * bytesPerSample odd_decoder = 4
  /\ currentReadPos (pUserData odd_decoder) = 44
  /\ drwav_seek false (Some odd_decoder) 0 = Stuck AssertionFailed
  /\ seek_current_byte odd_decoder = 18446744073709551615
  /\ drwav_seek true (Some odd_decoder) 0
     = Ret (1, Some (with_stream odd_decoder (mk_memory odd_container 49 0) 4)).
Proof.
  do 6 (split; [reflexivity|]).
  rewrite drwav_seek_memory_backward.
  - reflexivity.
  - reflexivity.
  - discriminate.
  - split; discriminate.
  - split; discriminate.
  - reflexivity.
Qed.

(** *** Seek results: what [drwav_seek] makes of them, and C10 *)

Section SeekResults.

Context {U : Type}.

(** X21. For the decoders that pass the assertion of [drwav_seek] (all of
    them under [NDEBUG]): the call returns 1 whatever the seek callback
    returns, the byte source has been handed every relative seek of the
    signed distance [delta], and [bytesRemaining] has moved by the whole
    of [delta]. *)
Theorem drwav_seek_ignores_seek_results :
  forall (ndebug : bool) (w : drwav U) (sk : drwav_seek_proc U) (sample : Z),
    onSeek w = Some sk ->
    0 < totalSampleCount w ->
    0 <= bytesRemaining w <= SIZE_MAX ->
    ndebug = true \/ seek_assertion w ->
    let delta := seek_target_byte w sample - seek_current_byte w in
    exists w',
      drwav_seek ndebug (Some w) sample = Ret (1, Some w')
      /\ pUserData w' = apply_seeks sk (pUserData w) (signed_steps delta)
      /\ bytesRemaining w' = to_uint64 (bytesRemaining w - delta).
Proof.
  intros ndebug w sk sample Hsk Htotal Hrem Hassert delta.
  eexists. split; [apply (drwav_seek_runs ndebug w sk sample Hsk); [lia|assumption..]|].
  split; [reflexivity|].
  cbn [bytesRemaining with_stream]. symmetry. apply seek_remaining_after.
Qed.

End SeekResults.

(** A seek callback that records the offsets it is given and always reports
    failure. *)
Definition failing_seek : drwav_seek_proc (list Z) := fun log offset => (0, offset :: log).

Definition deaf_decoder : drwav (list Z) :=
  mk_drwav None (Some failing_seek) [] zero_fmt 44100 1 16 2 1 4 8.

Lemma drwav_seek_ignores_seek_results_witness :
  exists w',
    drwav_seek false (Some deaf_decoder) 3 = Ret (1, Some w')
    /\ pUserData w' = [6]
    /\ bytesRemaining w' = 2.
Proof.
  refine (drwav_seek_ignores_seek_results false deaf_decoder failing_seek 3 _ _ _ _).
  - reflexivity.
  - reflexivity.
  - split; discriminate.
  - right. discriminate.
Defined.

(** C10. The decoder [drwav_open] returns for a data chunk of two samples
    and a half is not null, has a seek callback and has samples, and
    [drwav_seek] on it, compiled with its assertion, does not return
    success: [bytesRemaining] (5) is above [totalSampleCount *
    bytesPerSample] (4) and the assertion fails before any seek.  Compiled
    with [NDEBUG] the same call returns 1. *)
Theorem drwav_seek_may_not_return :
  drwav_open_memory true plain_env odd_container = Ret (Some odd_decoder)
  /\ onSeek odd_decoder = Some drwav__on_seek_memory
  /\ 0 < totalSampleCount odd_decoder
  /\ drwav_seek false (Some odd_decoder) 1 = Stuck AssertionFailed
  /\ bytesRemaining odd_decoder = 5
  /\ totalSampleCount odd_decoder * bytesPerSample odd_decoder = 4
  /\ drwav_seek true (Some odd_decoder) 1
     = Ret (1, Some (with_stream odd_decoder (mk_memory odd_container 49 0) 2)).
Proof.
  do 6 (split; [reflexivity|]).
  rewrite drwav_seek_memory_backward.
  - reflexivity.
  - reflexivity.
  - discriminate.
  - split; discriminate.
  - split; discriminate.
  - reflexivity.
Qed.

(** *** C7: reads between open and seek *)

(** The decoder [even_decoder] after two samples were read. *)
Definition half_read_decoder : drwav drwav_memory :=
  with_stream even_decoder (mk_memory even_container 52 48) 4.

(** A backward seek raises [bytesRemaining]. *)
Lemma drwav_seek_raises_bytesRemaining :
  (exists buf, drwav_read (Some even_decoder) 2 (Some scratch) 100
               = Ret (2, buf, Some half_read_decoder))
  /\ drwav_seek false (Some half_read_decoder) 0 = Ret (1, Some even_decoder)
  /\ bytesRemaining half_read_decoder < bytesRemaining even_decoder.
Proof.
  split; [eexists; reflexivity|]. split; reflexivity.
Qed.

Section OpenedStream.

Context {U : Type}.
Variable rd : drwav_read_proc U.
Variable sk : drwav_seek_proc U.

Lemma scans_to_size_range (u : U) (r : option (Z * U)) :
  scans_to rd sk u r ->
  forall dataSize u', r = Some (dataSize, u') -> 0 <= dataSize < 2 ^ 32.
Proof.
  induction 1; intros dataSize u' Hr; try discriminate.
  - injection Hr as <- _. apply le_u32_range.
  - eauto.
Qed.

(** C7. Over a byte source whose read callback returns at most the bytes
    requested, every sequence of [drwav_read_raw] and [drwav_read] calls
    on a decoder returned by [drwav_open] returns; [bytesRemaining] starts
    at the declared size of the data chunk, never increases from one call
    to the next and stays between 0 and that size; at every point of the
    sequence a raw read asks the source for the request clamped to
    [bytesRemaining] and takes the bytes delivered off [bytesRemaining]; a
    [drwav_seek] can raise it. *)
Theorem bytesRemaining_bounded_by_data_chunk :
  forall (fuel : nat) (env : environment) (u : U) (w : drwav U)
         (calls : list stream_call),
    returns_at_most_requested rd ->
    drwav_open fuel env (Some rd) (Some sk) u = Ret (Some w) ->
    Forall call_in_range calls ->
    exists (dataChunkSize : Z) (ws : list (drwav U)),
      0 <= dataChunkSize < 2 ^ 32
      /\ bytesRemaining w = dataChunkSize
      /\ run_calls (Some w) calls = Ret (map Some ws)
      /\ non_increasing (map bytesRemaining (w :: ws))
      /\ Forall (fun w' => 0 <= bytesRemaining w' <= dataChunkSize) ws
      /\ (forall w' buf bytesToRead,
            In w' (w :: ws) ->
            0 < bytesToRead <= SIZE_MAX ->
            drwav_read_raw (Some w') (Some buf) bytesToRead
            = let '(data, u') :=
                rd (pUserData w') (Z.min bytesToRead (bytesRemaining w')) in
              Ret (Z.of_nat (length data), Some (overwrite buf data),
                   Some (with_stream w' u'
                           (bytesRemaining w' - Z.of_nat (length data)))))
      /\ (exists (w0 w1 : drwav drwav_memory),
            drwav_seek false (Some w0) 0 = Ret (1, Some w1)
            /\ bytesRemaining w0 < bytesRemaining w1).
Proof.
  intros fuel env u w calls Hwb Hopen Hcalls.
  destruct (drwav_open_inv rd sk fuel env u w Hopen)
    as (riff & u1 & ok & f & u2 & dataSize & u3 & _ & _ & _ & Hfind
        & _ & Hbps & Hbps0 & _ & Hrem & _ & Hrd & _).
  assert (Hsize : 0 <= dataSize < 2 ^ 32).
  { eapply scans_to_size_range; [|reflexivity].
    eapply drwav_open__find_data_sound. exact Hfind. }
  assert (Hpos : 0 < bytesPerSample w).
  { assert (0 <= bytesPerSample w); [|lia].
    rewrite Hbps. unfold to_ushort. apply Z.mod_pos_bound. lia. }
  assert (Hrange : 0 <= bytesRemaining w <= SIZE_MAX)
    by (rewrite Hrem; unfold SIZE_MAX; lia).
  destruct (reads_never_increase calls w rd Hrd Hwb Hpos Hrange Hcalls)
    as (ws & Hrun & Hmono & Hbound).
  subst dataSize. exists (bytesRemaining w), ws.
  do 4 (split; [assumption || reflexivity|]).
  split; [eapply Forall_impl; [|exact Hbound]; cbv beta; tauto|].
  split.
  - intros w' buf bytesToRead Hin Hn.
    assert (Hw' : onRead w' = Some rd /\ 0 <= bytesRemaining w' <= SIZE_MAX).
    { destruct Hin as [<-|Hin]; [split; assumption|].
      pose proof (proj1 (Forall_forall _ _) Hbound w' Hin) as [[Hrd' _] Hrem'].
      split; [now rewrite Hrd'|lia]. }
    apply drwav_read_raw_clamps; tauto.
  - exists half_read_decoder, even_decoder.
    split; [|reflexivity]. exact (proj1 (proj2 drwav_seek_raises_bytesRemaining)).
Qed.

End OpenedStream.

Lemma bytesRemaining_bounded_by_data_chunk_witness :
  exists (dataChunkSize : Z) (ws : list (drwav drwav_memory)),
    0 <= dataChunkSize < 2 ^ 32
    /\ bytesRemaining even_decoder = dataChunkSize
    /\ run_calls (Some even_decoder)
         [CallRead 1 (Some scratch) 100; CallReadRaw (Some scratch) 3;
          CallRead 10 (Some scratch) 100]
       = Ret (map Some ws)
    /\ non_increasing (map bytesRemaining (even_decoder :: ws))
    /\ Forall (fun w' => 0 <= bytesRemaining w' <= dataChunkSize) ws
    /\ (forall w' buf bytesToRead,
          In w' (even_decoder :: ws) ->
          0 < bytesToRead <= SIZE_MAX ->
          drwav_read_raw (Some w') (Some buf) bytesToRead
          = let '(data, u') :=
              drwav__on_read_memory (pUserData w')
                                    (Z.min bytesToRead (bytesRemaining w')) in
            Ret (Z.of_nat (length data), Some (overwrite buf data),
                 Some (with_stream w' u'
                         (bytesRemaining w' - Z.of_nat (length data)))))
    /\ (exists (w0 w1 : drwav drwav_memory),
          drwav_seek false (Some w0) 0 = Ret (1, Some w1)
          /\ bytesRemaining w0 < bytesRemaining w1).
Proof.
  refine (bytesRemaining_bounded_by_data_chunk
            drwav__on_read_memory drwav__on_seek_memory
            (S (length even_container / 8)) plain_env
            (mk_memory even_container (Z.of_nat (length even_container)) 0)
            even_decoder
            [CallRead 1 (Some scratch) 100; CallReadRaw (Some scratch) 3;
             CallRead 10 (Some scratch) 100] _ _ _).
  - exact drwav__on_read_memory_at_most.
  - reflexivity.
  - repeat constructor; discriminate.
Defined.

(** *** C4: a container with a 40-byte format chunk whose extension size is
    not 22 *)

Definition extensible_container (cbSize : Z) : list byte :=
  octets ([82; 73; 70; 70] ++ le32 64 ++ [87; 65; 86; 69]
          ++ [102; 109; 116; 32] ++ le32 40 ++ le16 0xFFFE ++ le16 1
          ++ le32 44100 ++ le32 88200 ++ le16 2 ++ le16 16
          ++ le16 cbSize ++ le16 16 ++ le32 4 ++ le16 1 ++ repeat 0 14
          ++ [100; 97; 116; 97] ++ le32 4 ++ [0; 0; 0; 64]).

Lemma drwav_open_rejects_format_chunk_witness :
  drwav_open_memory true plain_env (extensible_container 24) = Ret None.
Proof.
  refine (drwav_open_rejects_format_chunk drwav__on_read_memory drwav__on_seek_memory
            _ plain_env _ _).
  vm_compute. reflexivity.
Defined.

Lemma drwav_open_accepts_extension_size_22 :
  exists w, drwav_open_memory true plain_env (extensible_container 22) = Ret (Some w)
            /\ translatedFormatTag w = DR_WAVE_FORMAT_PCM
            /\ bytesRemaining w = 4.
Proof. eexists. split; [reflexivity|split; reflexivity]. Qed.

(** *** C9: a chunk of odd size before the data chunk, and a container
    that ends before any data chunk *)

Definition list_then_data_container : list byte :=
  octets ([82; 73; 70; 70] ++ le32 52 ++ [87; 65; 86; 69]
          ++ [102; 109; 116; 32] ++ le32 16 ++ le16 1 ++ le16 1
          ++ le32 44100 ++ le32 88200 ++ le16 2 ++ le16 16
          ++ [76; 73; 83; 84] ++ le32 3 ++ [1; 2; 3; 0]
          ++ [100; 97; 116; 97] ++ le32 4 ++ [0; 0; 0; 64]).

Lemma drwav_open_scans_for_data_witness :
  exists fuel0 : nat,
    forall fuel, (fuel0 <= fuel)%nat ->
      exists w,
        drwav_open fuel plain_env (Some drwav__on_read_memory)
                   (Some drwav__on_seek_memory)
                   (mk_memory list_then_data_container 60 0) = Ret (Some w)
        /\ bytesRemaining w = 4
        /\ pUserData w = mk_memory list_then_data_container 60 56.
Proof.
  refine (proj2 (proj2 (proj2 (proj2 (proj2 (proj2
            (drwav_open_scans_for_data
               drwav__on_read_memory drwav__on_seek_memory plain_env
               (mk_memory list_then_data_container 60 0)
               (firstn 12 list_then_data_container)
               (mk_memory list_then_data_container 60 12)
               1
               (Fmt.mk 1 1 44100 88200 2 16 0 0 0 (repeat "000"%byte 16))
               (mk_memory list_then_data_container 60 36) _ _))))))
            4 (mk_memory list_then_data_container 60 56) _ _ _ _ _ _ _ _ _).
  - reflexivity.
  - reflexivity.
  - exact (scan_chunk_skipped drwav__on_read_memory drwav__on_seek_memory
             (mk_memory list_then_data_container 60 36)
             (firstn 8 (skipn 36 list_then_data_container))
             (mk_memory list_then_data_container 60 44)
             (mk_memory list_then_data_container 60 48)
             (Some (4, mk_memory list_then_data_container 60 56))
             eq_refl eq_refl eq_refl eq_refl
             (scan_data_found drwav__on_read_memory drwav__on_seek_memory
                (mk_memory list_then_data_container 60 48)
                (firstn 8 (skipn 48 list_then_data_container))
                (mk_memory list_then_data_container 60 56)
                eq_refl eq_refl eq_refl)).
  - reflexivity.
  - reflexivity.
  - discriminate.
  - reflexivity.
  - discriminate.
  - reflexivity.
  - discriminate.
  - discriminate.
Defined.

Definition no_data_container : list byte :=
  octets ([82; 73; 70; 70] ++ le32 40 ++ [87; 65; 86; 69]
          ++ [102; 109; 116; 32] ++ le32 16 ++ le16 1 ++ le16 1
          ++ le32 44100 ++ le32 88200 ++ le16 2 ++ le16 16
          ++ [76; 73; 83; 84] ++ le32 3 ++ [1; 2; 3; 0]).

(** The two containers through [drwav_open_memory]: the chunk of three
    bytes and its pad byte are skipped, and the search ends at the data
    chunk or at the end of the buffer. *)
Lemma drwav_open_memory_skips_chunk :
  (exists w,
     drwav_open_memory true plain_env list_then_data_container = Ret (Some w)
     /\ bytesRemaining w = 4
     /\ currentReadPos (pUserData w) = 56)
  /\ drwav_open_memory true plain_env no_data_container = Ret None.
Proof.
  split; [eexists; split; [reflexivity|split; reflexivity]|reflexivity].
Qed.

(** *** [drwav_open_memory] returns *)

(** An array holds at most [PTRDIFF_MAX] bytes. *)
Definition PTRDIFF_MAX : Z := 9223372036854775807.

(** The invariant of the memory source, which contains the condition its
    read callback asserts. *)
Definition memory_ok (m : drwav_memory) : Prop :=
  dataSize m = Z.of_nat (length (data m))
  /\ 0 <= currentReadPos m <= dataSize m
  /\ dataSize m <= PTRDIFF_MAX.

Lemma drwav__on_read_memory_ok (m : drwav_memory) (n : Z) :
  memory_ok m ->
  0 <= n <= SIZE_MAX ->
  let k := Z.min n (dataSize m - currentReadPos m) in
  let '(bytes, m') := drwav__on_read_memory m n in
  returned_count bytes = k
  /\ bytes = firstn (Z.to_nat k) (skipn (Z.to_nat (currentReadPos m)) (data m))
  /\ m' = mk_memory (data m) (dataSize m) (currentReadPos m + k)
  /\ memory_ok m'.
Proof.
  intros (Hsize & Hpos & Hmax) Hn k. unfold PTRDIFF_MAX in Hmax.
  unfold drwav__on_read_memory.
  rewrite (to_size_t_small (dataSize m - currentReadPos m)) by (unfold SIZE_MAX; lia).
  set (bytesToRead := if n >? dataSize m - currentReadPos m
                      then dataSize m - currentReadPos m else n).
  assert (Hk : bytesToRead = k).
  { unfold bytesToRead, k. destruct (Z.gtb_spec n (dataSize m - currentReadPos m)); lia. }
  rewrite Hk.
  assert (Hcount : returned_count
                     (firstn (Z.to_nat k) (skipn (Z.to_nat (currentReadPos m)) (data m))) = k).
  { unfold returned_count. rewrite length_firstn, length_skipn.
    rewrite to_size_t_small; unfold SIZE_MAX; lia. }
  destruct (Z.gtb_spec k 0) as [Hpos'|Hzero].
  - rewrite (to_size_t_small (currentReadPos m + k)) by (unfold SIZE_MAX; lia).
    repeat split; try assumption;
      unfold PTRDIFF_MAX; cbn [data dataSize currentReadPos]; lia.
  - assert (k = 0) as Hk0 by (unfold k in *; lia).
    rewrite Hk0 in *. rewrite Z.add_0_r.
    assert (Hm : mk_memory (data m) (dataSize m) (currentReadPos m) = m) by now destruct m.
    repeat split; try assumption; try (unfold PTRDIFF_MAX; lia).
    now symmetry.
Qed.

Lemma drwav__on_seek_memory_forward (m : drwav_memory) (offset : Z) :
  memory_ok m ->
  0 < offset <= INT_MAX ->
  drwav__on_seek_memory m offset
  = (1, mk_memory (data m) (dataSize m) (Z.min (dataSize m) (currentReadPos m + offset)))
  /\ memory_ok (snd (drwav__on_seek_memory m offset)).
Proof.
  intros (Hsize & Hpos & Hmax) Ho. unfold PTRDIFF_MAX, INT_MAX in *.
  assert (Heq : drwav__on_seek_memory m offset
                = (1, mk_memory (data m) (dataSize m)
                        (Z.min (dataSize m) (currentReadPos m + offset)))).
  { unfold drwav__on_seek_memory.
    destruct (Z.gtb_spec offset 0) as [_|]; [|lia].
    rewrite (to_size_t_small (currentReadPos m + offset)) by (unfold SIZE_MAX; lia).
    destruct (Z.gtb_spec (currentReadPos m + offset) (dataSize m)) as [Hfar|Hnear].
    - rewrite (to_size_t_small (dataSize m - currentReadPos m)) by (unfold SIZE_MAX; lia).
      rewrite to_int_small by (unfold INT_MAX; lia).
      rewrite to_size_t_small by (unfold SIZE_MAX; lia).
      do 2 f_equal. lia.
    - rewrite to_size_t_small by (unfold SIZE_MAX; lia).
      do 2 f_equal. lia. }
  split; [exact Heq|]. rewrite Heq. cbn [snd].
  unfold memory_ok, PTRDIFF_MAX. cbn [data dataSize currentReadPos]. lia.
Qed.

Lemma seek_all_memory_forward (steps : list Z) :
  forall m : drwav_memory,
    memory_ok m ->
    Forall (fun o => 0 < o <= INT_MAX) steps ->
    exists m',
      seek_all drwav__on_seek_memory m steps = (true, m')
      /\ memory_ok m'
      /\ dataSize m' = dataSize m
      /\ currentReadPos m <= currentReadPos m'.
Proof.
  induction steps as [|o steps IH]; intros m Hok Hall.
  - exists m. split; [reflexivity|split; [exact Hok|split; [reflexivity|lia]]].
  - inversion Hall as [|? ? Ho Hrest]; subst.
    destruct (drwav__on_seek_memory_forward m o Hok Ho) as [Heq Hok'].
    rewrite Heq in Hok'. cbn [snd] in Hok'.
    destruct (IH _ Hok' Hrest) as (m' & Hrun & Hok'' & Hsize & Hpos).
    exists m'. cbn [seek_all]. rewrite Heq. cbn [Z.eqb].
    cbn [dataSize currentReadPos] in Hsize, Hpos.
    destruct Hok as (_ & Hp & _).
    split; [exact Hrun|split; [exact Hok''|split; [exact Hsize|lia]]].
Qed.

Lemma drwav_open__find_data_memory_returns (fuel : nat) :
  forall m : drwav_memory,
    memory_ok m ->
    dataSize m - currentReadPos m < 8 * Z.of_nat fuel ->
    exists r,
      drwav_open__find_data fuel drwav__on_read_memory drwav__on_seek_memory m = Ret r.
Proof.
  induction fuel as [|fuel IH]; intros m Hok Hleft.
  - destruct Hok as (_ & Hpos & _). lia.
  - rewrite drwav_open__find_data_turn.
    pose proof (drwav__on_read_memory_ok m 8 Hok ltac:(unfold SIZE_MAX; lia)) as Hread.
    destruct (drwav__on_read_memory m 8) as [chunk m1].
    destruct Hread as (Hcount & _ & Hm1 & Hok1).
    destruct (Z.eqb_spec (returned_count chunk) 8) as [H8|_]; cbn [negb];
      [|eexists; reflexivity].
    destruct (fourcc_is chunk "d" "a" "t" "a"); [eexists; reflexivity|].
    destruct (skip_steps_spec (le_u32 (skipn 4 chunk)) (le_u32_range _)) as [Hsteps _].
    destruct (seek_all_memory_forward _ m1 Hok1 Hsteps) as (m2 & Hseek & Hok2 & Hsize & Hpos).
    rewrite Hseek. apply IH; [assumption|].
    rewrite Hsize. subst m1. cbn [dataSize currentReadPos] in *. lia.
Qed.

(** [drwav__read_fmt] leaves the user data in a state its callbacks lead to. *)
Lemma drwav__read_fmt_preserves {U : Type} (P : U -> Prop)
      (rd : drwav_read_proc U) (sk : drwav_seek_proc U) :
  (forall u n, 0 <= n <= 24 -> P u -> P (snd (rd u n))) ->
  (forall u, P u -> P (snd (sk u 2))) ->
  forall u fmtOut, P u -> P (snd (drwav__read_fmt rd sk u fmtOut)).
Proof.
  intros Hrd Hsk u fmtOut Hu. unfold drwav__read_fmt.
  pose proof (Hrd u 24 ltac:(lia) Hu) as H1.
  destruct (rd u 24) as [fmt u1]. cbn [snd] in H1.
  repeat match goal with
         | |- P (snd (if ?c then _ else _)) => destruct c
         | |- P (snd (_, _)) => cbn [snd]; assumption
         end.
  - pose proof (Hsk u1 H1) as H2. destruct (sk u1 2) as [r u2]. exact H2.
  - pose proof (Hrd u1 2 ltac:(lia) H1) as H2.
    destruct (rd u1 2) as [fmt_cbSize u2]. cbn [snd] in H2.
    repeat match goal with
           | |- P (snd (if ?c then _ else _)) => destruct c
           | |- P (snd (_, _)) => cbn [snd]; assumption
           end.
    pose proof (Hrd u2 22 ltac:(lia) H2) as H3.
    destruct (rd u2 22) as [fmtext u3]. cbn [snd] in H3.
    destruct (negb (returned_count fmtext =? 22)); cbn [snd]; assumption.
Qed.

(** X6. Opening a memory buffer always returns, or stops at a division by
    zero: the chunk loop never needs more turns than the buffer has
    eight-byte headers. *)
Theorem drwav_open_memory_returns (malloc_user_data : bool) (env : environment)
        (contents : list byte) :
  Z.of_nat (length contents) <= PTRDIFF_MAX ->
  drwav_open_memory malloc_user_data env contents <> OutOfFuel.
Proof.
  intros Hlen. unfold drwav_open_memory.
  destruct malloc_user_data; cbn [negb]; [|discriminate].
  set (size := Z.of_nat (length contents)) in *.
  set (inv := fun u => memory_ok u /\ dataSize u = size).
  assert (Hok0 : inv (mk_memory contents size 0)).
  { unfold inv, memory_ok, size. cbn [data dataSize currentReadPos]. lia. }
  assert (Hrd : forall u n, 0 <= n <= 24 -> inv u ->
                            inv (snd (drwav__on_read_memory u n))).
  { intros u n Hn [Hu Hsize].
    pose proof (drwav__on_read_memory_ok u n Hu ltac:(unfold SIZE_MAX; lia)) as H.
    destruct (drwav__on_read_memory u n) as [bytes u']. cbn [snd].
    destruct H as (_ & _ & -> & Hok'). split; [exact Hok'|exact Hsize]. }
  assert (Hsk : forall u, inv u -> inv (snd (drwav__on_seek_memory u 2))).
  { intros u [Hu Hsize].
    destruct (drwav__on_seek_memory_forward u 2 Hu ltac:(unfold INT_MAX; lia))
      as [Heq Hok'].
    split; [exact Hok'|]. rewrite Heq. exact Hsize. }
  unfold drwav_open.
  pose proof (Hrd _ 12 ltac:(lia) Hok0) as Hok1.
  destruct (drwav__on_read_memory (mk_memory contents size 0) 12) as [riff m1].
  cbn [snd] in Hok1.
  destruct (negb (returned_count riff =? 12)); [discriminate|].
  destruct (negb (fourcc_is riff "R" "I" "F" "F")); [discriminate|].
  destruct (drwav__read_u32 (skipn 4 riff) <? 36); [discriminate|].
  destruct (negb (fourcc_is (skipn 8 riff) "W" "A" "V" "E")); [discriminate|].
  pose proof (drwav__read_fmt_preserves inv _ _ Hrd Hsk m1
                (uninitialised_fmt env) Hok1) as Hok2.
  destruct (drwav__read_fmt drwav__on_read_memory drwav__on_seek_memory m1
              (uninitialised_fmt env)) as [[ok f] m2].
  cbn [snd] in Hok2. destruct Hok2 as [Hok2 Hsize2].
  destruct (ok =? 0); [discriminate|].
  assert (Hfuel : dataSize m2 - currentReadPos m2
                  < 8 * Z.of_nat (S (length contents / 8))).
  { destruct Hok2 as (_ & Hpos & _).
    rewrite Nat2Z.inj_succ, Nat2Z.inj_div. fold size. change (Z.of_nat 8) with 8.
    pose proof (Z.mod_pos_bound size 8 ltac:(lia)).
    pose proof (Z.div_mod size 8 ltac:(lia)). lia. }
  destruct (drwav_open__find_data_memory_returns _ m2 Hok2 Hfuel) as [r Hr].
  rewrite Hr, bind_ret.
  destruct r as [[dataSize m3]|]; [|discriminate].
  destruct (negb (malloc_succeeds env)); [discriminate|].
  unfold udiv.
  destruct (Fmt.channels f =? 0); [discriminate|]. rewrite bind_ret.
  destruct (to_ushort (to_uint (Fmt.blockAlign f / Fmt.channels f)) =? 0); discriminate.
Qed.

(** *** C5: a container that declares no channel *)

Definition no_channel_container : list byte :=
  wav_file 0 44100 2 16 [0; 0; 0; 64; 0; 192; 255; 127].

(** C5, at a container whose format chunk declares 0 channels: [drwav_open]
    passes every check, allocates the decoder and divides [blockAlign] by
    [channels]; no path returns NULL for it. *)
Theorem drwav_open_divides_by_zero_channels :
  drwav_open_memory true plain_env no_channel_container = Stuck DivisionByZero.
Proof. reflexivity. Qed.

(** ** The generic PCM converter *)

(** What the generic converter makes of an 8-byte sample: the 32-bit
    little-endian integer of its first four bytes, over 2^31. *)
Definition low_four_bytes_to_f32 (sample : list byte) : f32 :=
  int_over_2p31 (to_int (le_u32 sample)).

Lemma pcm_accumulate_turn (fuel : nat) (pPCM : list byte) (bytesPerSample j sample shift : Z) :
  pcm_accumulate (S fuel) pPCM bytesPerSample j sample shift
  = if (j <? bytesPerSample) && (j <? 4) then
      b <- load pPCM j ;;
      v <- shl_uint (byte_val b) shift ;;
      pcm_accumulate fuel pPCM bytesPerSample (to_ushort (j + 1))
                     (Z.lor sample v) (to_uint (shift + 8))
    else Ret sample.
Proof. reflexivity. Qed.

Lemma shl_uint_byte (b : byte) (shift : Z) :
  0 <= shift <= 24 ->
  shl_uint (byte_val b) shift = Ret (byte_val b * 2 ^ shift).
Proof.
  intros H. unfold shl_uint.
  destruct (Z.leb_spec 0 shift); [|lia].
  destruct (Z.ltb_spec shift 32); [|lia]. cbn [andb].
  rewrite Z.shiftl_mul_pow2 by lia.
  pose proof (byte_val_range b).
  assert (2 ^ shift <= 2 ^ 24) by (apply Z.pow_le_mono_r; lia).
  unfold to_uint. rewrite Z.mod_small; [reflexivity|]. nia.
Qed.

Lemma pcm_generic_sample_width_8 (b0 b1 b2 b3 : byte) (rest : list byte) :
  pcm_generic_sample (b0 :: b1 :: b2 :: b3 :: rest) 8
  = Ret (low_four_bytes_to_f32 (b0 :: b1 :: b2 :: b3 :: rest)).
Proof.
  unfold pcm_generic_sample, low_four_bytes_to_f32.
  change (to_uint ((8 - 8) * 8)) with 0.
  rewrite pcm_accumulate_turn. change ((0 <? 8) && (0 <? 4)) with true. cbv iota.
  change (load (b0 :: b1 :: b2 :: b3 :: rest) 0) with (Ret b0).
  rewrite bind_ret, shl_uint_byte, bind_ret by lia.
  change (to_ushort (0 + 1)) with 1. change (to_uint (0 + 8)) with 8.
  rewrite pcm_accumulate_turn. change ((1 <? 8) && (1 <? 4)) with true. cbv iota.
  change (load (b0 :: b1 :: b2 :: b3 :: rest) 1) with (Ret b1).
  rewrite bind_ret, shl_uint_byte, bind_ret by lia.
  change (to_ushort (1 + 1)) with 2. change (to_uint (8 + 8)) with 16.
  rewrite pcm_accumulate_turn. change ((2 <? 8) && (2 <? 4)) with true. cbv iota.
  change (load (b0 :: b1 :: b2 :: b3 :: rest) 2) with (Ret b2).
  rewrite bind_ret, shl_uint_byte, bind_ret by lia.
  change (to_ushort (2 + 1)) with 3. change (to_uint (16 + 8)) with 24.
  rewrite pcm_accumulate_turn. change ((3 <? 8) && (3 <? 4)) with true. cbv iota.
  change (load (b0 :: b1 :: b2 :: b3 :: rest) 3) with (Ret b3).
  rewrite bind_ret, shl_uint_byte, bind_ret by lia.
  change (to_ushort (3 + 1)) with 4. change (to_uint (24 + 8)) with 32.
  rewrite pcm_accumulate_turn. change ((4 <? 8) && (4 <? 4)) with false. cbv iota.
  rewrite bind_ret. do 3 f_equal.
  unfold le_u32, at_. cbn [nth].
  pose proof (byte_val_range b0). pose proof (byte_val_range b1).
  pose proof (byte_val_range b2). pose proof (byte_val_range b3).
  rewrite Z.lor_0_l, Z.pow_0_r, Z.mul_1_r.
  rewrite <- !Z.shiftl_mul_pow2 by lia.
  rewrite (lor_shiftl_add (byte_val b0)) by lia.
  rewrite (lor_shiftl_add (byte_val b0 + _)) by lia.
  rewrite (lor_shiftl_add (byte_val b0 + _ + _)) by lia.
  rewrite !Z.shiftl_mul_pow2 by lia. reflexivity.
Qed.

Lemma pcm_generic_loop_width_8 (samples : list (list byte)) :
  Forall (fun sample => length sample = 8%nat) samples ->
  pcm_generic_loop (length samples) (concat samples) 8
  = Ret (map low_four_bytes_to_f32 samples).
Proof.
  induction 1 as [|sample samples Hlen _ IH]; [reflexivity|].
  destruct sample as [|b0 [|b1 [|b2 [|b3 [|b4 [|b5 [|b6 [|b7 [|]]]]]]]]]; try discriminate.
  cbn [length concat pcm_generic_loop map].
  cbn [app]. rewrite pcm_generic_sample_width_8, bind_ret.
  change (skipn (Z.to_nat 8) (b0 :: b1 :: b2 :: b3 :: b4 :: b5 :: b6 :: b7 :: concat samples))
    with (concat samples).
  rewrite IH, bind_ret. reflexivity.
Qed.

Lemma pcm_generic_loop_width_0 (count : nat) (pPCM : list byte) :
  pcm_generic_loop count pPCM 0 = Ret (repeat (S754_zero false) count).
Proof.
  induction count as [|count IH]; [reflexivity|].
  cbn [pcm_generic_loop repeat].
  change (pcm_generic_sample pPCM 0) with (Ret (S754_zero false)).
  rewrite bind_ret. change (skipn (Z.to_nat 0) pPCM) with pPCM.
  now rewrite IH.
Qed.

(** C6, as the code has it.  With [bytesPerSample] 8 the generic converter
    assembles the first four bytes of each sample least-significant byte
    first (shifts 0, 8, 16, 24), ignores the other four, reads the 32 bits
    as a signed integer and stores that integer over 2147483648.0; with
    [bytesPerSample] 0 it reads nothing and stores 0.0 for every sample. *)
Theorem drwav__pcm_to_f32_generic :
  forall (samples : list (list byte)) (pPCM : list byte) (f32Out : list f32),
    Forall (fun sample => length sample = 8%nat) samples ->
    (length samples <= length f32Out)%nat ->
    Z.of_nat (length samples) <= UINT_MAX ->
    drwav__pcm_to_f32 (Z.of_nat (length samples)) (Some (concat samples)) 8 (Some f32Out)
    = Ret (1, Some (overwrite f32Out (map low_four_bytes_to_f32 samples)))
    /\ drwav__pcm_to_f32 (Z.of_nat (length samples)) (Some pPCM) 0 (Some f32Out)
       = Ret (1, Some (overwrite f32Out (repeat (S754_zero false) (length samples)))).
Proof.
  intros samples pPCM f32Out Hlen Hfit Hcount.
  assert (Hreach : uint_counter_reaches (Z.of_nat (length samples)) = Ret tt).
  { unfold uint_counter_reaches.
    destruct (Z.ltb_spec UINT_MAX (Z.of_nat (length samples))); [lia|reflexivity]. }
  split.
  - unfold drwav__pcm_to_f32. change (8 =? 1) with false. change (8 =? 2) with false.
    change (8 =? 3) with false. change (8 =? 4) with false. cbv iota.
    rewrite Hreach, bind_ret, Nat2Z.id, pcm_generic_loop_width_8, bind_ret by assumption.
    rewrite store_all_fits by now rewrite length_map.
    reflexivity.
  - unfold drwav__pcm_to_f32. change (0 =? 1) with false. change (0 =? 2) with false.
    change (0 =? 3) with false. change (0 =? 4) with false. cbv iota.
    rewrite Hreach, bind_ret, Nat2Z.id, pcm_generic_loop_width_0, bind_ret.
    rewrite store_all_fits by now rewrite repeat_length.
    reflexivity.
Qed.

Definition one_then_zeros : list byte := octets [1; 0; 0; 0; 0; 0; 0; 0].

Lemma drwav__pcm_to_f32_generic_witness :
  drwav__pcm_to_f32 2 (Some (one_then_zeros ++ octets [0; 0; 0; 128; 9; 9; 9; 9])) 8
                    (Some [S754_nan; S754_nan])
  = Ret (1, Some [S754_finite false 8388608 (-54); S754_finite true 8388608 (-23)]).
Proof.
  refine (proj1 (drwav__pcm_to_f32_generic
                   [one_then_zeros; octets [0; 0; 0; 128; 9; 9; 9; 9]] []
                   [S754_nan; S754_nan] _ _ _)).
  - repeat constructor.
  - simpl; lia.
  - discriminate.
Defined.

(** The first byte of a sample is the least significant of the four: the
    8-byte sample 01 00 .. 00 gives 2^-31, where the most significant byte
    first would give 2^-7; and a [bytesPerSample] of 5 reaches a shift by
    32 bits at the second byte. *)
Lemma drwav__pcm_to_f32_generic_not_msb_first :
  drwav__pcm_to_f32 1 (Some one_then_zeros) 8 (Some [S754_nan])
  <> Ret (1, Some [Spec.generic_pcm_to_float 8 one_then_zeros])
  /\ drwav__pcm_to_f32 1 (Some one_then_zeros) 8 (Some [S754_nan])
     = Ret (1, Some [S754_finite false 8388608 (-54)])
  /\ Spec.generic_pcm_to_float 8 one_then_zeros = S754_finite false 8388608 (-30)
  /\ drwav__pcm_to_f32 1 (Some one_then_zeros) 5 (Some [S754_nan])
     = Stuck ShiftOutOfRange.
Proof.
  assert (Hcode : drwav__pcm_to_f32 1 (Some one_then_zeros) 8 (Some [S754_nan])
                  = Ret (1, Some [S754_finite false 8388608 (-54)]))
    by (vm_compute; reflexivity).
  assert (Hspec : Spec.generic_pcm_to_float 8 one_then_zeros
                  = S754_finite false 8388608 (-30))
    by (vm_compute; reflexivity).
  split; [|split; [exact Hcode|split; [exact Hspec|vm_compute; reflexivity]]].
  rewrite Hcode, Hspec. discriminate.
Qed.

(** * Further properties of the code *)

(** ** The memory callbacks *)

Lemma memory_rebuild (m : drwav_memory) :
  mk_memory (data m) (dataSize m) (currentReadPos m) = m.
Proof. now destruct m. Qed.

Lemma firstn_plus {A : Type} (a b : nat) :
  forall l : list A, firstn (a + b) l = firstn a l ++ firstn b (skipn a l).
Proof.
  induction a as [|a IH]; intros l; [reflexivity|].
  destruct l as [|x l]; simpl.
  - now rewrite firstn_nil.
  - now rewrite IH.
Qed.

(** X1. [drwav__on_seek_memory] moves the read position by the offset and
    clamps it to the buffer: for every offset of magnitude at most
    [INT_MAX] the new position is [max 0 (min dataSize (pos + offset))],
    the seek reports success and the source stays well-formed. *)
Theorem drwav__on_seek_memory_clamps :
  forall (m : drwav_memory) (offset : Z),
    memory_ok m ->
    - INT_MAX <= offset <= INT_MAX ->
    drwav__on_seek_memory m offset
    = (1, mk_memory (data m) (dataSize m)
            (Z.max 0 (Z.min (dataSize m) (currentReadPos m + offset))))
    /\ memory_ok (snd (drwav__on_seek_memory m offset)).
Proof.
  intros m offset Hok Hoff.
  assert (Heq : drwav__on_seek_memory m offset
                = (1, mk_memory (data m) (dataSize m)
                        (Z.max 0 (Z.min (dataSize m) (currentReadPos m + offset))))).
  { destruct Hok as (Hsize & Hpos & Hmax). unfold PTRDIFF_MAX in Hmax.
    destruct (Z.compare_spec offset 0) as [Hz|Hneg|Hpos'].
    - subst offset. unfold drwav__on_seek_memory. cbn [Z.gtb Z.compare Z.opp].
      change (to_size_t 0) with 0.
      destruct (Z.ltb_spec (currentReadPos m) 0); [lia|].
      rewrite Z.add_0_r, to_size_t_small by (unfold SIZE_MAX; lia).
      do 2 f_equal. lia.
    - rewrite drwav__on_seek_memory_backward by (unfold SIZE_MAX; lia).
      do 3 f_equal. lia.
    - destruct (drwav__on_seek_memory_forward m offset) as [-> _];
        [repeat split; unfold PTRDIFF_MAX; lia|lia|].
      do 2 f_equal. lia. }
  split; [exact Heq|]. rewrite Heq. cbn [snd].
  destruct Hok as (Hsize & Hpos & Hmax).
  unfold memory_ok. cbn [data dataSize currentReadPos]. lia.
Qed.

Lemma drwav__on_seek_memory_clamps_witness :
  drwav__on_seek_memory (mk_memory even_container 52 44) (-100)
  = (1, mk_memory even_container 52 0)
  /\ memory_ok (snd (drwav__on_seek_memory (mk_memory even_container 52 44) (-100))).
Proof.
  refine (drwav__on_seek_memory_clamps (mk_memory even_container 52 44) (-100) _ _).
  - unfold memory_ok, PTRDIFF_MAX. cbn. lia.
  - unfold INT_MAX. lia.
Defined.

(** X2. [drwav__on_read_memory] delivers the bytes at the read position,
    as many as requested or as are left, and advances by that many; two
    reads in a row deliver what one read of the sum does. *)
Theorem drwav__on_read_memory_sequential :
  forall (m : drwav_memory) (a b : Z),
    memory_ok m ->
    0 <= a -> 0 <= b -> a + b <= SIZE_MAX ->
    let '(x, m1) := drwav__on_read_memory m a in
    let '(y, m2) := drwav__on_read_memory m1 b in
    x = firstn (Z.to_nat (Z.min a (dataSize m - currentReadPos m)))
               (skipn (Z.to_nat (currentReadPos m)) (data m))
    /\ currentReadPos m1 = currentReadPos m + Z.min a (dataSize m - currentReadPos m)
    /\ drwav__on_read_memory m (a + b) = (x ++ y, m2).
Proof.
  intros m a b Hok Ha Hb Hab.
  pose proof (drwav__on_read_memory_ok m a Hok ltac:(lia)) as H1.
  destruct (drwav__on_read_memory m a) as [x m1].
  destruct H1 as (_ & Hx & Hm1 & Hok1).
  pose proof (drwav__on_read_memory_ok m1 b Hok1 ltac:(lia)) as H2.
  destruct (drwav__on_read_memory m1 b) as [y m2].
  destruct H2 as (_ & Hy & Hm2 & _).
  pose proof (drwav__on_read_memory_ok m (a + b) Hok ltac:(lia)) as H3.
  destruct (drwav__on_read_memory m (a + b)) as [z m3].
  destruct H3 as (_ & Hz & Hm3 & _).
  destruct Hok as (Hsize & Hpos & Hmax).
  split; [exact Hx|]. split; [subst m1; reflexivity|].
  set (ka := Z.min a (dataSize m - currentReadPos m)) in *.
  assert (Hkb : Z.min b (dataSize m1 - currentReadPos m1)
                = Z.min (a + b) (dataSize m - currentReadPos m) - ka).
  { subst m1. cbn [dataSize currentReadPos]. unfold ka. lia. }
  f_equal.
  - rewrite Hz, Hx, Hy, Hkb.
    replace (Z.to_nat (Z.min (a + b) (dataSize m - currentReadPos m)))
      with (Z.to_nat ka
            + Z.to_nat (Z.min (a + b) (dataSize m - currentReadPos m) - ka))%nat
      by (unfold ka; lia).
    rewrite firstn_plus, skipn_skipn. subst m1. cbn [data currentReadPos].
    f_equal. f_equal. f_equal. unfold ka. lia.
  - rewrite Hm3, Hm2, Hkb. subst m1. cbn [data dataSize currentReadPos].
    f_equal. lia.
Qed.

Lemma drwav__on_read_memory_sequential_witness :
  let '(x, m1) := drwav__on_read_memory (mk_memory even_container 52 40) 4 in
  let '(y, m2) := drwav__on_read_memory m1 100 in
  x = firstn (Z.to_nat (Z.min 4 (52 - 40))) (skipn (Z.to_nat 40) even_container)
  /\ currentReadPos m1 = 40 + Z.min 4 (52 - 40)
  /\ drwav__on_read_memory (mk_memory even_container 52 40) (4 + 100) = (x ++ y, m2).
Proof.
  refine (drwav__on_read_memory_sequential (mk_memory even_container 52 40) 4 100 _ _ _ _).
  - unfold memory_ok, PTRDIFF_MAX. cbn. lia.
  - lia.
  - lia.
  - unfold SIZE_MAX. lia.
Defined.

(** ** Little-endian fields *)

(** X3. On the little-endian target [drwav__read_u16] and
    [drwav__read_u32] return the value of the little-endian field,
    [b0 + 256 b1 (+ 65536 b2 + 16777216 b3)], which fits 16 or 32 bits; they
    give back every value written low byte first. *)
Theorem drwav__read_fields_little_endian :
  forall (data : list byte),
    drwav__read_u16 data = at_ data 0 + at_ data 1 * 2 ^ 8
    /\ 0 <= drwav__read_u16 data < 2 ^ 16
    /\ drwav__read_u32 data
       = at_ data 0 + at_ data 1 * 2 ^ 8 + at_ data 2 * 2 ^ 16 + at_ data 3 * 2 ^ 24
    /\ 0 <= drwav__read_u32 data < 2 ^ 32
    /\ (forall v rest, 0 <= v < 2 ^ 16 ->
          drwav__read_u16 (octets (le16 v ++ rest)) = v)
    /\ (forall v rest, 0 <= v < 2 ^ 32 ->
          drwav__read_u32 (octets (le32 v ++ rest)) = v).
Proof.
  intros data.
  pose proof (at_range data 0). pose proof (at_range data 1).
  split; [apply drwav__read_u16_le|].
  split; [rewrite drwav__read_u16_le; unfold le_u16; lia|].
  split; [apply drwav__read_u32_le|].
  split; [rewrite drwav__read_u32_le; apply le_u32_range|].
  assert (Hat : forall (l : list Z) (i : nat) (z : Z),
             nth_error l i = Some z -> 0 <= z < 256 -> at_ (octets l) i = z).
  { intros l i z Hnth Hz. unfold at_, octets, byte_val.
    rewrite (nth_indep _ "000"%byte
               (match Byte.of_N (Z.to_N 0) with Some b => b | None => "000"%byte end)).
    - rewrite (map_nth (fun z => match Byte.of_N (Z.to_N z) with
                                 | Some b => b | None => "000"%byte end) l 0 i).
      rewrite (nth_error_nth _ _ _ Hnth).
      destruct (Byte.of_N (Z.to_N z)) as [b|] eqn:E.
      + apply Byte.to_of_N in E. lia.
      + apply Byte.of_N_None_iff in E. lia.
    - rewrite length_map. apply nth_error_Some. now rewrite Hnth. }
  split.
  - intros v rest Hv. rewrite drwav__read_u16_le. unfold le_u16, le16. cbn [app].
    rewrite (Hat _ 0%nat (v mod 256)), (Hat _ 1%nat ((v / 256) mod 256));
      try reflexivity; try (apply Z.mod_pos_bound; lia).
    pose proof (Z.div_mod v 256 ltac:(lia)).
    rewrite (Z.mod_small (v / 256)) by (split; [apply Z.div_pos; lia|apply Z.div_lt_upper_bound; lia]).
    lia.
  - intros v rest Hv. rewrite drwav__read_u32_le. unfold le_u32, le32. cbn [app].
    rewrite (Hat _ 0%nat (v mod 256)), (Hat _ 1%nat ((v / 256) mod 256)),
      (Hat _ 2%nat ((v / 65536) mod 256)), (Hat _ 3%nat ((v / 16777216) mod 256));
      try reflexivity; try (apply Z.mod_pos_bound; lia).
    pose proof (Z.div_mod v 256 ltac:(lia)).
    pose proof (Z.div_mod (v / 256) 256 ltac:(lia)).
    pose proof (Z.div_mod (v / 256 / 256) 256 ltac:(lia)).
    rewrite (Z.div_div v 256 256) in * by lia.
    rewrite (Z.div_div v (256 * 256) 256) in * by lia.
    change (256 * 256) with 65536 in *. change (65536 * 256) with 16777216 in *.
    rewrite (Z.mod_small (v / 16777216)) in *
      by (split; [apply Z.div_pos; lia|apply Z.div_lt_upper_bound; lia]).
    lia.
Qed.

(** ** What a successful parse holds *)

Section OpenFields.

Context {U : Type}.
Variable rd : drwav_read_proc U.
Variable sk : drwav_seek_proc U.

(** X4. When [drwav__read_fmt] reports success it has read 24 bytes that
    start with "fmt "; the six leading fields are the little-endian fields
    at offsets 8, 10, 12, 16, 20 and 22; at size 16 the extension fields are
    zeroed; at size 18 the result is what the 2-byte seek returns and the
    extension fields are left as [fmtOut] had them; at size 40 the
    extension size is 22 and the extension fields come from the 22 bytes
    that follow. *)
Theorem drwav__read_fmt_success :
  forall (u : U) (fmtOut : drwav_fmt) (ok : Z) (f : drwav_fmt) (u' : U),
    drwav__read_fmt rd sk u fmtOut = (ok, f, u') ->
    ok <> 0 ->
    let '(bytes, u1) := rd u 24 in
    returned_count bytes = 24
    /\ fourcc_is bytes "f" "m" "t" " " = true
    /\ Fmt.formatTag f = le_u16 (skipn 8 bytes)
    /\ Fmt.channels f = le_u16 (skipn 10 bytes)
    /\ Fmt.sampleRate f = le_u32 (skipn 12 bytes)
    /\ Fmt.avgBytesPerSec f = le_u32 (skipn 16 bytes)
    /\ Fmt.blockAlign f = le_u16 (skipn 20 bytes)
    /\ Fmt.bitsPerSample f = le_u16 (skipn 22 bytes)
    /\ ((le_u32 (skipn 4 bytes) = 16 /\ ok = 1 /\ u' = u1
         /\ Fmt.extendedSize f = 0 /\ Fmt.validBitsPerSample f = 0
         /\ Fmt.channelMask f = 0 /\ Fmt.subFormat f = repeat "000"%byte 16)
        \/ (le_u32 (skipn 4 bytes) = 18 /\ (ok, u') = sk u1 2
            /\ Fmt.extendedSize f = Fmt.extendedSize fmtOut
            /\ Fmt.validBitsPerSample f = Fmt.validBitsPerSample fmtOut
            /\ Fmt.channelMask f = Fmt.channelMask fmtOut
            /\ Fmt.subFormat f = Fmt.subFormat fmtOut)
        \/ (le_u32 (skipn 4 bytes) = 40 /\ ok = 1
            /\ let '(fmt_cbSize, u2) := rd u1 2 in
               let '(fmtext, u3) := rd u2 22 in
               returned_count fmt_cbSize = 2 /\ le_u16 fmt_cbSize = 22
               /\ returned_count fmtext = 22 /\ u' = u3
               /\ Fmt.extendedSize f = 22
               /\ Fmt.validBitsPerSample f = le_u16 fmtext
               /\ Fmt.channelMask f = le_u32 (skipn 2 fmtext)
               /\ Fmt.subFormat f = drwav__read_guid (skipn 6 fmtext))).
Proof.
  intros u fmtOut ok f u' H Hok. unfold drwav__read_fmt in H.
  destruct (rd u 24) as [bytes u1].
  destruct (Z.eqb_spec (returned_count bytes) 24) as [Hcount|]; cbn [negb] in H;
    [|injection H as <- _ _; contradiction].
  destruct (fourcc_is bytes "f" "m" "t" " ") eqn:Hid; cbn [negb] in H;
    [|injection H as <- _ _; contradiction].
  rewrite !drwav__read_u32_le, !drwav__read_u16_le in H.
  set (size := le_u32 (skipn 4 bytes)) in *.
  destruct (Z.ltb_spec size 16); [injection H as <- _ _; contradiction|].
  destruct (Z.eqb_spec size 16) as [E16|N16]; cbn [negb andb] in H.
  - destruct (Z.gtb_spec size 16); [lia|].
    injection H as <- <- <-. cbn.
    do 8 (split; [reflexivity || assumption|]). left.
    repeat split; try reflexivity; assumption.
  - destruct (Z.eqb_spec size 18) as [E18|N18]; cbn [negb andb] in H.
    + destruct (Z.gtb_spec size 16); [|lia].
      destruct (sk u1 2) as [r u2] eqn:Hsk. injection H as <- <- <-.
      cbn. do 8 (split; [reflexivity || assumption|]). right. left.
      repeat split; try reflexivity; assumption.
    + destruct (Z.eqb_spec size 40) as [E40|N40]; cbn [negb] in H;
        [|injection H as <- _ _; contradiction].
      destruct (Z.gtb_spec size 16); [|lia].
      destruct (rd u1 2) as [fmt_cbSize u2].
      destruct (Z.eqb_spec (returned_count fmt_cbSize) 2) as [Hcb|]; cbn [negb] in H;
        [|injection H as <- _ _; contradiction].
      rewrite drwav__read_u16_le in H.
      destruct (Z.eqb_spec (le_u16 fmt_cbSize) 22) as [H22|]; cbn [negb] in H;
        [|injection H as <- _ _; contradiction].
      destruct (rd u2 22) as [fmtext u3].
      destruct (Z.eqb_spec (returned_count fmtext) 22) as [Hext|]; cbn [negb] in H;
        [|injection H as <- _ _; contradiction].
      rewrite drwav__read_u16_le, drwav__read_u32_le in H.
      injection H as <- <- <-. cbn.
      do 8 (split; [reflexivity || assumption|]). right. right.
      repeat split; try reflexivity; assumption.
Qed.

End OpenFields.

Lemma drwav__read_fmt_success_witness :
  let '(bytes, u1) := drwav__on_read_memory (mk_memory even_container 52 12) 24 in
  returned_count bytes = 24
  /\ fourcc_is bytes "f" "m" "t" " " = true
  /\ 1 = le_u16 (skipn 8 bytes)
  /\ 1 = le_u16 (skipn 10 bytes)
  /\ 44100 = le_u32 (skipn 12 bytes)
  /\ 88200 = le_u32 (skipn 16 bytes)
  /\ 2 = le_u16 (skipn 20 bytes)
  /\ 16 = le_u16 (skipn 22 bytes)
  /\ ((le_u32 (skipn 4 bytes) = 16 /\ 1 = 1 /\ mk_memory even_container 52 36 = u1
       /\ 0 = 0 /\ 0 = 0 /\ 0 = 0 /\ repeat "000"%byte 16 = repeat "000"%byte 16)
      \/ (le_u32 (skipn 4 bytes) = 18
          /\ (1, mk_memory even_container 52 36) = drwav__on_seek_memory u1 2
          /\ 0 = 0 /\ 0 = 0 /\ 0 = 0 /\ repeat "000"%byte 16 = [])
      \/ (le_u32 (skipn 4 bytes) = 40 /\ 1 = 1
          /\ let '(fmt_cbSize, u2) := drwav__on_read_memory u1 2 in
             let '(fmtext, u3) := drwav__on_read_memory u2 22 in
             returned_count fmt_cbSize = 2 /\ le_u16 fmt_cbSize = 22
             /\ returned_count fmtext = 22 /\ mk_memory even_container 52 36 = u3
             /\ 0 = 22
             /\ 0 = le_u16 fmtext
             /\ 0 = le_u32 (skipn 2 fmtext)
             /\ repeat "000"%byte 16 = drwav__read_guid (skipn 6 fmtext))).
Proof.
  refine (drwav__read_fmt_success drwav__on_read_memory drwav__on_seek_memory
            (mk_memory even_container 52 12) zero_fmt 1
            (Fmt.mk 1 1 44100 88200 2 16 0 0 0 (repeat "000"%byte 16))
            (mk_memory even_container 52 36) _ _).
  - reflexivity.
  - discriminate.
Defined.

Lemma le_u16_range (data : list byte) : 0 <= le_u16 data < 2 ^ 16.
Proof.
  unfold le_u16. pose proof (at_range data 0). pose proof (at_range data 1). lia.
Qed.

Section OpenResult.

Context {U : Type}.
Variable rd : drwav_read_proc U.
Variable sk : drwav_seek_proc U.

Lemma drwav__read_fmt_field_ranges (u : U) (fmtOut : drwav_fmt) (ok : Z)
    (f : drwav_fmt) (u' : U) :
  drwav__read_fmt rd sk u fmtOut = (ok, f, u') ->
  ok <> 0 ->
  0 <= Fmt.channels f < 2 ^ 16 /\ 0 <= Fmt.blockAlign f < 2 ^ 16.
Proof.
  intros H Hok. unfold drwav__read_fmt in H.
  destruct (rd u 24) as [bytes u1].
  rewrite !drwav__read_u16_le in H.
  pose proof (le_u16_range (skipn 10 bytes)).
  pose proof (le_u16_range (skipn 20 bytes)).
  repeat match type of H with
         | (if ?c then _ else _) = _ => destruct c
         | (let '(_, _) := ?c in _) = _ => destruct c
         end;
    injection H as <- <- <-; cbn [Fmt.channels Fmt.blockAlign];
    first [contradiction | split; assumption].
Qed.

Lemma drwav_open_result (fuel : nat) (env : environment) (u : U) (w : drwav U) :
  drwav_open fuel env (Some rd) (Some sk) u = Ret (Some w) ->
  exists riff u1 ok f u2 dataSize u3,
    rd u 12 = (riff, u1)
    /\ returned_count riff = 12
    /\ fourcc_is riff "R" "I" "F" "F" = true
    /\ 36 <= le_u32 (skipn 4 riff)
    /\ fourcc_is (skipn 8 riff) "W" "A" "V" "E" = true
    /\ drwav__read_fmt rd sk u1 (uninitialised_fmt env) = (ok, f, u2)
    /\ ok <> 0
    /\ drwav_open__find_data fuel rd sk u2 = Ret (Some (dataSize, u3))
    /\ Fmt.channels f <> 0
    /\ w = mk_drwav (Some rd) (Some sk) u3 f (Fmt.sampleRate f) (Fmt.channels f)
                    (Fmt.bitsPerSample f)
                    (to_ushort (to_uint (Fmt.blockAlign f / Fmt.channels f)))
                    (if Fmt.formatTag f =? DR_WAVE_FORMAT_EXTENSIBLE
                     then drwav__read_u16 (Fmt.subFormat f) else Fmt.formatTag f)
                    (dataSize / to_ushort (to_uint (Fmt.blockAlign f / Fmt.channels f)))
                    dataSize
    /\ to_ushort (to_uint (Fmt.blockAlign f / Fmt.channels f)) <> 0.
Proof.
  unfold drwav_open. intros H.
  destruct (rd u 12) as [riff u1].
  destruct (Z.eqb_spec (returned_count riff) 12) as [Hcount|]; cbn [negb] in H;
    [|discriminate].
  destruct (fourcc_is riff "R" "I" "F" "F") eqn:Hriff; cbn [negb] in H; [|discriminate].
  rewrite drwav__read_u32_le in H.
  destruct (Z.ltb_spec (le_u32 (skipn 4 riff)) 36) as [|Hsize]; [discriminate|].
  destruct (fourcc_is (skipn 8 riff) "W" "A" "V" "E") eqn:Hwave; cbn [negb] in H;
    [|discriminate].
  destruct (drwav__read_fmt rd sk u1 (uninitialised_fmt env)) as [[ok f] u2] eqn:Hfmt.
  destruct (Z.eqb_spec ok 0) as [|Hok]; [discriminate|].
  destruct (drwav_open__find_data fuel rd sk u2) as [[[dataSize u3]|]| |] eqn:Hfind;
    try discriminate.
  rewrite bind_ret in H.
  destruct (negb (malloc_succeeds env)); [discriminate|].
  unfold udiv in H.
  destruct (Z.eqb_spec (Fmt.channels f) 0) as [|Hch]; [discriminate|].
  rewrite bind_ret in H.
  destruct (Z.eqb_spec (to_ushort (to_uint (Fmt.blockAlign f / Fmt.channels f))) 0)
    as [|Hbps]; [discriminate|].
  rewrite bind_ret in H. injection H as <-.
  exists riff, u1, ok, f, u2, dataSize, u3.
  repeat split; try reflexivity; assumption.
Qed.

(** X5. A decoder returned by [drwav_open] copies sample rate, channel
    count and bit depth from the format chunk; its channel count is not 0;
    [bytesPerSample] is [blockAlign / channels] and is not 0;
    [translatedFormatTag] is the format tag, or the first two bytes of the
    sub-format when the tag is 0xFFFE; [bytesRemaining] is the declared size
    of the data chunk, below 2^32; and [totalSampleCount] is the number of
    whole samples in it, so fewer than [bytesPerSample] bytes are left
    over. *)
Theorem drwav_open_decoder_fields :
  forall (fuel : nat) (env : environment) (u : U) (w : drwav U),
    drwav_open fuel env (Some rd) (Some sk) u = Ret (Some w) ->
    sampleRate w = Fmt.sampleRate (fmt w)
    /\ channels w = Fmt.channels (fmt w)
    /\ bitsPerSample w = Fmt.bitsPerSample (fmt w)
    /\ 0 < channels w < 2 ^ 16
    /\ bytesPerSample w = Fmt.blockAlign (fmt w) / channels w
    /\ 0 < bytesPerSample w < 2 ^ 16
    /\ translatedFormatTag w
       = (if Fmt.formatTag (fmt w) =? 0xFFFE
          then le_u16 (Fmt.subFormat (fmt w)) else Fmt.formatTag (fmt w))
    /\ 0 <= bytesRemaining w < 2 ^ 32
    /\ totalSampleCount w = bytesRemaining w / bytesPerSample w
    /\ totalSampleCount w * bytesPerSample w <= bytesRemaining w
       < totalSampleCount w * bytesPerSample w + bytesPerSample w.
Proof.
  intros fuel env u w Hopen.
  destruct (drwav_open_result fuel env u w Hopen)
    as (riff & u1 & ok & f & u2 & dataSize & u3 & _ & _ & _ & _ & _ & Hfmt & Hok
        & Hfind & Hch & -> & Hbps).
  destruct (drwav__read_fmt_field_ranges u1 (uninitialised_fmt env) ok f u2 Hfmt Hok)
    as (Hchr & Halr).
  change (2 ^ 16) with 65536 in *. change (2 ^ 32) with 4294967296.
  assert (Hsize : 0 <= dataSize < 2 ^ 32).
  { eapply scans_to_size_range; [|reflexivity].
    eapply drwav_open__find_data_sound. exact Hfind. }
  set (q := Fmt.blockAlign f / Fmt.channels f) in *.
  assert (Hq : 0 <= q < 65536).
  { unfold q. split; [apply Z.div_pos; lia|].
    apply Z.div_lt_upper_bound; nia. }
  assert (Hwrap : to_ushort (to_uint q) = q).
  { unfold to_ushort, to_uint.
    rewrite (Z.mod_small q (2 ^ 32)) by (change (2 ^ 32) with 4294967296; lia).
    apply Z.mod_small. change (2 ^ 16) with 65536. lia. }
  change (2 ^ 32) with 4294967296 in Hsize.
  rewrite Hwrap in *.
  cbn [sampleRate channels bitsPerSample bytesPerSample translatedFormatTag
       totalSampleCount bytesRemaining fmt].
  rewrite drwav__read_u16_le.
  pose proof (Z.div_mod dataSize q Hbps).
  pose proof (Z.mod_pos_bound dataSize q ltac:(lia)).
  repeat split; try reflexivity; try lia.
Qed.

End OpenResult.

Lemma drwav_open_decoder_fields_witness :
  sampleRate even_decoder = Fmt.sampleRate (fmt even_decoder)
  /\ channels even_decoder = Fmt.channels (fmt even_decoder)
  /\ bitsPerSample even_decoder = Fmt.bitsPerSample (fmt even_decoder)
  /\ 0 < channels even_decoder < 2 ^ 16
  /\ bytesPerSample even_decoder = Fmt.blockAlign (fmt even_decoder) / channels even_decoder
  /\ 0 < bytesPerSample even_decoder < 2 ^ 16
  /\ translatedFormatTag even_decoder
     = (if Fmt.formatTag (fmt even_decoder) =? 0xFFFE
        then le_u16 (Fmt.subFormat (fmt even_decoder))
        else Fmt.formatTag (fmt even_decoder))
  /\ 0 <= bytesRemaining even_decoder < 2 ^ 32
  /\ totalSampleCount even_decoder = bytesRemaining even_decoder / bytesPerSample even_decoder
  /\ totalSampleCount even_decoder * bytesPerSample even_decoder
     <= bytesRemaining even_decoder
     < totalSampleCount even_decoder * bytesPerSample even_decoder
       + bytesPerSample even_decoder.
Proof.
  refine (drwav_open_decoder_fields drwav__on_read_memory drwav__on_seek_memory
            (S (length even_container / 8)) plain_env
            (mk_memory even_container (Z.of_nat (length even_container)) 0)
            even_decoder _).
  reflexivity.
Defined.

(** ** Sample positions in the memory source *)

Lemma sum_nonneg (l : list Z) : Forall (fun o => 0 < o) l -> 0 <= sum l.
Proof.
  induction 1 as [|o l Ho _ IH]; unfold sum in *; cbn [fold_right]; lia.
Qed.

Lemma apply_seeks_memory_forward (steps : list Z) :
  forall m : drwav_memory,
    memory_ok m ->
    Forall (fun o => 0 < o <= INT_MAX) steps ->
    currentReadPos m + sum steps <= dataSize m ->
    apply_seeks drwav__on_seek_memory m steps
    = mk_memory (data m) (dataSize m) (currentReadPos m + sum steps).
Proof.
  induction steps as [|o steps IH]; intros m Hok Hall Hfit.
  - unfold sum. cbn. now rewrite Z.add_0_r, memory_rebuild.
  - inversion Hall as [|? ? Ho Hrest]; subst.
    assert (Hsum : 0 <= sum steps).
    { apply sum_nonneg. eapply Forall_impl; [|exact Hrest]. cbv beta. intros; lia. }
    assert (Hcons : sum (o :: steps) = o + sum steps) by reflexivity.
    destruct (drwav__on_seek_memory_forward m o Hok Ho) as [Heq Hok'].
    rewrite Heq in Hok'. cbn [snd] in Hok'.
    unfold apply_seeks in *. cbn [fold_left]. rewrite Heq. cbn [snd].
    rewrite Z.min_r in * by lia.
    rewrite IH by (cbn [currentReadPos dataSize]; try assumption; lia).
    cbn [data dataSize currentReadPos]. f_equal. lia.
Qed.

(** The relative seeks of a signed distance move the memory source by that
    distance when the target lies within the buffer. *)
Lemma apply_seeks_memory_exact (m : drwav_memory) (delta : Z) :
  memory_ok m ->
  0 <= currentReadPos m + delta <= dataSize m ->
  apply_seeks drwav__on_seek_memory m (signed_steps delta)
  = mk_memory (data m) (dataSize m) (currentReadPos m + delta).
Proof.
  intros Hok Hrange.
  destruct (signed_steps_spec delta) as (Hbound & Hsum & Hsign).
  pose proof (Forall_and Hbound Hsign) as Hall.
  destruct (Z.ltb_spec 0 delta) as [Hpos|Hneg].
  - rewrite apply_seeks_memory_forward; [now rewrite Hsum|exact Hok| |rewrite Hsum; lia].
    eapply Forall_impl; [|exact Hall]. cbv beta. intros o [[_ Hr] Hd]. lia.
  - rewrite apply_seeks_memory_backward; [rewrite Hsum; f_equal; lia| |].
    + eapply Forall_impl; [|exact Hall]. cbv beta. intros o [[Hnz Hr] Hd]. lia.
    + destruct Hok as (_ & Hp & Hmax). unfold PTRDIFF_MAX, SIZE_MAX in *. lia.
Qed.

(** The decoder [w] over the memory source stands at sample [index] of a
    payload of [totalSampleCount w] samples that starts at byte [start] of
    the buffer and lies within it. *)
Definition at_sample (start index : Z) (w : drwav drwav_memory) : Prop :=
  onRead w = Some drwav__on_read_memory
  /\ onSeek w = Some drwav__on_seek_memory
  /\ memory_ok (pUserData w)
  /\ 0 < bytesPerSample w
  /\ 0 <= start
  /\ start + totalSampleCount w * bytesPerSample w <= dataSize (pUserData w)
  /\ 0 <= index <= totalSampleCount w
  /\ bytesRemaining w = (totalSampleCount w - index) * bytesPerSample w
  /\ currentReadPos (pUserData w) = start + index * bytesPerSample w.

(** The decoder [w] with its stream put at sample [index]. *)
Definition move_to (start index : Z) (w : drwav drwav_memory) : drwav drwav_memory :=
  with_stream w
    (mk_memory (data (pUserData w)) (dataSize (pUserData w))
               (start + index * bytesPerSample w))
    ((totalSampleCount w - index) * bytesPerSample w).

(** The bytes of the samples [index], ..., [index + count - 1]. *)
Definition samples_from (start index count : Z) (w : drwav drwav_memory) : list byte :=
  firstn (Z.to_nat (count * bytesPerSample w))
         (skipn (Z.to_nat (start + index * bytesPerSample w)) (data (pUserData w))).

Lemma move_to_same (start index : Z) (w : drwav drwav_memory) :
  at_sample start index w -> move_to start index w = w.
Proof.
  intros (_ & _ & _ & _ & _ & _ & _ & Hrem & Hpos). unfold move_to.
  now rewrite <- Hrem, <- Hpos, memory_rebuild, with_stream_same.
Qed.

Lemma at_sample_move_to (start index index' : Z) (w : drwav drwav_memory) :
  at_sample start index w ->
  0 <= index' <= totalSampleCount w ->
  at_sample start index' (move_to start index' w).
Proof.
  intros (Hrd & Hsk & (Hsize & Hp & Hmax) & Hbps & Hstart & Hfit & Hidx & Hrem & Hpos) Hi.
  unfold at_sample, move_to, memory_ok.
  cbn [onRead onSeek pUserData bytesPerSample totalSampleCount bytesRemaining with_stream
       data dataSize currentReadPos].
  repeat split; try assumption; try reflexivity; try lia; nia.
Qed.

Lemma drwav_seek_at_sample (ndebug : bool) (start index : Z) (w : drwav drwav_memory)
      (sample : Z) :
  at_sample start index w ->
  0 < totalSampleCount w ->
  0 <= sample ->
  drwav_seek ndebug (Some w) sample
  = Ret (1, Some (move_to start (Z.min sample (totalSampleCount w - 1)) w)).
Proof.
  intros (Hrd & Hsk & Hok & Hbps & Hstart & Hfit & Hidx & Hrem & Hpos) Htotal Hsample.
  pose proof Hok as (Hsize & Hp & Hmax). unfold PTRDIFF_MAX in Hmax.
  destruct (drwav_seek_lands ndebug w drwav__on_seek_memory sample Hsk) as [Heq _];
    try (unfold SIZE_MAX; nia).
  rewrite Heq. unfold move_to.
  set (target := Z.min sample (totalSampleCount w - 1)).
  rewrite apply_seeks_memory_exact.
  - do 5 f_equal. rewrite Hrem, Hpos. ring.
  - exact Hok.
  - replace (currentReadPos (pUserData w)
             + (target * bytesPerSample w
                - (totalSampleCount w * bytesPerSample w - bytesRemaining w)))
      with (start + target * bytesPerSample w) by (rewrite Hrem, Hpos; ring).
    unfold target. nia.
Qed.

Lemma drwav_read_at_sample (start index : Z) (w : drwav drwav_memory)
      (samplesToRead : Z) (buf : list byte) (bufferOutSize : Z) :
  at_sample start index w ->
  0 <= samplesToRead ->
  0 <= bufferOutSize <= SIZE_MAX ->
  let count := Z.min (Z.min samplesToRead (bufferOutSize / bytesPerSample w))
                     (totalSampleCount w - index) in
  drwav_read (Some w) samplesToRead (Some buf) bufferOutSize
  = Ret (count, Some (overwrite buf (samples_from start index count w)),
         Some (move_to start (index + count) w)).
Proof.
  intros Hat Hn Hcap count.
  pose proof Hat as (Hrd & Hsk & Hok & Hbps & Hstart & Hfit & Hidx & Hrem & Hpos).
  pose proof Hok as (Hsize & Hp & Hmax). unfold PTRDIFF_MAX in Hmax.
  destruct (drwav_read_unfold w samplesToRead buf bufferOutSize Hbps Hn Hcap)
    as [Hrange Heq].
  rewrite Heq. clear Heq.
  set (clamped := Z.min samplesToRead (bufferOutSize / bytesPerSample w)) in *.
  assert (Hclamped : 0 <= clamped).
  { unfold clamped. pose proof (Z.div_pos bufferOutSize (bytesPerSample w)). lia. }
  destruct (Z.eq_dec clamped 0) as [E0|Hpos0].
  - assert (Hcount : count = 0) by (unfold count; lia).
    rewrite Hcount, E0. cbn. unfold samples_from. rewrite Z.add_0_r.
    cbn. now rewrite (move_to_same start index w Hat).
  - assert (Hgot : Z.min (clamped * bytesPerSample w) (bytesRemaining w)
                   = count * bytesPerSample w).
    { rewrite Hrem. unfold count.
      destruct (Z.min_spec clamped (totalSampleCount w - index)) as [[? ->]|[? ->]]; nia. }
    assert (Hcnt : 0 <= count <= totalSampleCount w - index) by (unfold count; lia).
    rewrite (drwav_read_raw_unfold w drwav__on_read_memory buf _ Hrd)
      by (unfold SIZE_MAX; nia).
    unfold raw_request. rewrite Hgot.
    pose proof (drwav__on_read_memory_ok (pUserData w) (count * bytesPerSample w) Hok
                  ltac:(unfold SIZE_MAX; nia)) as Hread.
    destruct (drwav__on_read_memory (pUserData w) (count * bytesPerSample w))
      as [bytes m'].
    rewrite Z.min_l in Hread by nia.
    destruct Hread as (Hlen & Hbytes & Hm' & _).
    rewrite bind_ret, Hlen, Z.div_mul by lia.
    unfold samples_from, move_to. rewrite <- Hpos, <- Hbytes.
    do 4 f_equal. subst m'. unfold with_stream. f_equal.
    + rewrite Hpos. ring.
    + rewrite Hrem, to_uint64_small by (unfold SIZE_MAX; nia). ring.
Qed.

(** X7. Seeking a decoder that stands at a sample of a payload inside the
    buffer returns 1 and puts it at the requested sample, or at the last
    one when the request lies beyond: the memory source is at the first
    byte of that sample, [bytesRemaining] counts the bytes from there to
    the end of the payload, and nothing else changes.  The result depends
    neither on where the decoder stood nor on [NDEBUG]. *)
Theorem drwav_seek_memory_lands :
  forall (ndebug : bool) (start index : Z) (w : drwav drwav_memory) (sample : Z),
    at_sample start index w ->
    0 < totalSampleCount w ->
    0 <= sample ->
    let target := Z.min sample (totalSampleCount w - 1) in
    drwav_seek ndebug (Some w) sample = Ret (1, Some (move_to start target w))
    /\ at_sample start target (move_to start target w).
Proof.
  intros ndebug start index w sample Hat Htotal Hsample target. split.
  - now apply (drwav_seek_at_sample ndebug start index).
  - apply (at_sample_move_to start index); [exact Hat|unfold target; lia].
Qed.

(** X8. [drwav_read] on such a decoder delivers whole samples: as many as
    were asked for, as the stated buffer size holds and as are left, their
    bytes taken from the payload in order, and it leaves the decoder at
    the sample that follows them. *)
Theorem drwav_read_memory_samples :
  forall (start index : Z) (w : drwav drwav_memory) (samplesToRead : Z)
         (buf : list byte) (bufferOutSize : Z),
    at_sample start index w ->
    0 <= samplesToRead ->
    0 <= bufferOutSize <= SIZE_MAX ->
    let count := Z.min (Z.min samplesToRead (bufferOutSize / bytesPerSample w))
                       (totalSampleCount w - index) in
    drwav_read (Some w) samplesToRead (Some buf) bufferOutSize
    = Ret (count, Some (overwrite buf (samples_from start index count w)),
           Some (move_to start (index + count) w))
    /\ Z.of_nat (length (samples_from start index count w)) = count * bytesPerSample w
    /\ at_sample start (index + count) (move_to start (index + count) w).
Proof.
  intros start index w samplesToRead buf bufferOutSize Hat Hn Hcap count.
  pose proof Hat as (_ & _ & (Hsize & _ & _) & Hbps & Hstart & Hfit & Hidx & _ & _).
  assert (Hcount : 0 <= count <= totalSampleCount w - index).
  { unfold count. pose proof (Z.div_pos bufferOutSize (bytesPerSample w)). lia. }
  split; [now apply drwav_read_at_sample|]. split.
  - unfold samples_from. rewrite length_firstn, length_skipn. nia.
  - apply (at_sample_move_to start index); [exact Hat|lia].
Qed.

(** X9. Random access: a seek to sample [s] followed by a read delivers the
    samples from [s] on, wherever the decoder stood before. *)
Theorem drwav_seek_then_read_memory :
  forall (ndebug : bool) (start index : Z) (w : drwav drwav_memory) (s n : Z)
         (buf : list byte) (bufferOutSize : Z),
    at_sample start index w ->
    0 <= s < totalSampleCount w ->
    0 <= n ->
    0 <= bufferOutSize <= SIZE_MAX ->
    let count := Z.min (Z.min n (bufferOutSize / bytesPerSample w))
                       (totalSampleCount w - s) in
    ('(_, pWav) <- drwav_seek ndebug (Some w) s ;;
     drwav_read pWav n (Some buf) bufferOutSize)
    = Ret (count, Some (overwrite buf (samples_from start s count w)),
           Some (move_to start (s + count) w)).
Proof.
  intros ndebug start index w s n buf bufferOutSize Hat Hs Hn Hcap count.
  rewrite (drwav_seek_at_sample ndebug start index) by (try assumption; lia).
  rewrite Z.min_l, bind_ret by lia.
  assert (Hat' : at_sample start s (move_to start s w)).
  { apply (at_sample_move_to start index); [exact Hat|lia]. }
  rewrite (drwav_read_at_sample start s (move_to start s w) n buf bufferOutSize Hat' Hn Hcap).
  reflexivity.
Qed.

(** ** Opening a memory buffer *)

Lemma seek_all_memory_data (steps : list Z) :
  forall m : drwav_memory,
    data (snd (seek_all drwav__on_seek_memory m steps)) = data m.
Proof.
  induction steps as [|o steps IH]; intros m; [reflexivity|].
  cbn [seek_all].
  destruct (drwav__on_seek_memory m o) as [r m1] eqn:E.
  unfold drwav__on_seek_memory in E. injection E as <- <-.
  cbn [Z.eqb]. now rewrite IH.
Qed.

(** The chunk scan over the memory source ends just behind the header of a
    data chunk, whose size field it returns. *)
Lemma scans_to_memory (m : drwav_memory) (r : option (Z * drwav_memory)) :
  scans_to drwav__on_read_memory drwav__on_seek_memory m r ->
  memory_ok m ->
  forall (n : Z) (m' : drwav_memory),
    r = Some (n, m') ->
    memory_ok m' /\ data m' = data m /\ dataSize m' = dataSize m
    /\ currentReadPos m + 8 <= currentReadPos m'
    /\ let header := firstn 8 (skipn (Z.to_nat (currentReadPos m' - 8)) (data m')) in
       fourcc_is header "d" "a" "t" "a" = true /\ n = le_u32 (skipn 4 header).
Proof.
  induction 1 as [u chunk u1 Hrd Hcount|u chunk u1 Hrd Hcount Hid
                  |u chunk u1 u2 Hrd Hcount Hid Hseek
                  |u chunk u1 u2 r Hrd Hcount Hid Hseek Hscan IH];
    intros Hok n m' Hr; try discriminate.
  - injection Hr as <- <-.
    pose proof (drwav__on_read_memory_ok u 8 Hok ltac:(unfold SIZE_MAX; lia)) as Hread.
    rewrite Hrd in Hread. destruct Hread as (Hk & Hbytes & Hu1 & Hok1).
    rewrite Hcount in Hk. rewrite <- Hk in Hbytes, Hu1. subst u1.
    cbn [data dataSize currentReadPos].
    replace (currentReadPos u + 8 - 8) with (currentReadPos u) by lia.
    change (Z.to_nat 8) with 8%nat in Hbytes. rewrite <- Hbytes.
    split; [exact Hok1|]. repeat split; try assumption; try reflexivity; lia.
  - pose proof (drwav__on_read_memory_ok u 8 Hok ltac:(unfold SIZE_MAX; lia)) as Hread.
    rewrite Hrd in Hread. destruct Hread as (Hk & _ & Hu1 & Hok1).
    rewrite Hcount in Hk. rewrite <- Hk in Hu1.
    destruct (skip_steps_spec (le_u32 (skipn 4 chunk)) (le_u32_range _)) as [Hsteps _].
    destruct (seek_all_memory_forward _ u1 Hok1 Hsteps) as (m2 & Hseek' & Hok2 & Hsize2 & Hpos2).
    pose proof (seek_all_memory_data (skip_steps (padded (le_u32 (skipn 4 chunk)))) u1)
      as Hdata.
    rewrite Hseek in Hseek'. injection Hseek' as <-.
    rewrite Hseek in Hdata. cbn [snd] in Hdata.
    destruct (IH Hok2 n m' Hr) as (Hok' & Hd & Hs & Hp & Hhead).
    subst u1. cbn [data dataSize currentReadPos] in *.
    split; [exact Hok'|]. repeat split; try assumption; try congruence; try lia; apply Hhead.
Qed.

(** A successful [drwav__read_fmt] over the memory source has moved it by
    24 bytes at least. *)
Lemma drwav__read_fmt_memory (m : drwav_memory) (fmtOut : drwav_fmt) (ok : Z)
      (f : drwav_fmt) (m' : drwav_memory) :
  memory_ok m ->
  drwav__read_fmt drwav__on_read_memory drwav__on_seek_memory m fmtOut = (ok, f, m') ->
  ok <> 0 ->
  memory_ok m' /\ data m' = data m /\ dataSize m' = dataSize m
  /\ currentReadPos m + 24 <= currentReadPos m'.
Proof.
  intros Hok H Hnz. unfold drwav__read_fmt in H.
  pose proof (drwav__on_read_memory_ok m 24 Hok ltac:(unfold SIZE_MAX; lia)) as Hread.
  destruct (drwav__on_read_memory m 24) as [bytes m1].
  destruct Hread as (Hk & _ & Hm1 & Hok1).
  destruct (Z.eqb_spec (returned_count bytes) 24) as [Hcount|]; cbn [negb] in H;
    [|injection H as <- _ _; contradiction].
  rewrite Hcount in Hk. rewrite <- Hk in Hm1.
  assert (H1 : data m1 = data m /\ dataSize m1 = dataSize m
               /\ currentReadPos m + 24 <= currentReadPos m1).
  { subst m1. cbn [data dataSize currentReadPos]. repeat split; lia. }
  clear Hm1.
  destruct (negb (fourcc_is bytes "f" "m" "t" " "));
    [injection H as <- _ _; contradiction|].
  destruct (drwav__read_u32 (skipn 4 bytes) <? 16);
    [injection H as <- _ _; contradiction|].
  match type of H with (if ?c then _ else _) = _ => destruct c end;
    [injection H as <- _ _; contradiction|].
  destruct (drwav__read_u32 (skipn 4 bytes) >? 16);
    [|injection H as _ _ <-; tauto].
  destruct (drwav__read_u32 (skipn 4 bytes) =? 18).
  - destruct (drwav__on_seek_memory_forward m1 2 Hok1 ltac:(unfold INT_MAX; lia))
      as [Heq Hok2].
    rewrite Heq in H, Hok2. injection H as _ _ <-. cbn [snd] in Hok2.
    destruct Hok1 as (_ & Hp1 & _).
    cbn [data dataSize currentReadPos]. split; [exact Hok2|].
    repeat split; try tauto; lia.
  - pose proof (drwav__on_read_memory_ok m1 2 Hok1 ltac:(unfold SIZE_MAX; lia)) as Hread2.
    destruct (drwav__on_read_memory m1 2) as [fmt_cbSize m2].
    destruct Hread2 as (_ & _ & Hm2 & Hok2).
    destruct (negb (returned_count fmt_cbSize =? 2));
      [injection H as <- _ _; contradiction|].
    destruct (negb (drwav__read_u16 fmt_cbSize =? 22));
      [injection H as <- _ _; contradiction|].
    pose proof (drwav__on_read_memory_ok m2 22 Hok2 ltac:(unfold SIZE_MAX; lia)) as Hread3.
    destruct (drwav__on_read_memory m2 22) as [fmtext m3].
    destruct Hread3 as (_ & _ & Hm3 & Hok3).
    destruct (negb (returned_count fmtext =? 22));
      [injection H as <- _ _; contradiction|].
    injection H as _ _ <-.
    destruct Hok1 as (_ & Hp1 & _). destruct Hok2 as (_ & Hp2 & _).
    subst m3 m2. cbn [data dataSize currentReadPos] in *.
    split; [exact Hok3|]. repeat split; try tauto; lia.
Qed.

(** X10. A decoder that [drwav_open_memory] returns reads and seeks in the
    caller's buffer, and its memory source stands, 44 bytes into the buffer
    or further, just behind the eight-byte header of a data chunk whose
    size field is [bytesRemaining].  When that size is a whole number of
    samples and the chunk lies within the buffer, the decoder stands at
    sample 0 of it. *)
Theorem drwav_open_memory_positions :
  forall (malloc_user_data : bool) (env : environment) (contents : list byte)
         (w : drwav drwav_memory),
    Z.of_nat (length contents) <= PTRDIFF_MAX ->
    drwav_open_memory malloc_user_data env contents = Ret (Some w) ->
    let pos := currentReadPos (pUserData w) in
    let header := firstn 8 (skipn (Z.to_nat (pos - 8)) contents) in
    onRead w = Some drwav__on_read_memory
    /\ onSeek w = Some drwav__on_seek_memory
    /\ data (pUserData w) = contents
    /\ dataSize (pUserData w) = Z.of_nat (length contents)
    /\ 44 <= pos <= Z.of_nat (length contents)
    /\ fourcc_is header "d" "a" "t" "a" = true
    /\ bytesRemaining w = le_u32 (skipn 4 header)
    /\ (bytesRemaining w mod bytesPerSample w = 0 ->
        pos + bytesRemaining w <= Z.of_nat (length contents) ->
        at_sample pos 0 w).
Proof.
  intros malloc_user_data env contents w Hlen Hopen pos header.
  unfold drwav_open_memory in Hopen.
  destruct malloc_user_data; cbn [negb] in Hopen; [|discriminate].
  set (size := Z.of_nat (length contents)) in *.
  destruct (drwav_open_result _ _ _ _ _ _ Hopen)
    as (riff & m1 & ok & f & m2 & n & m3 & Hriff & Hcount & _ & _ & _ & Hfmt & Hnz
        & Hfind & Hch & Hw & Hbps).
  assert (Hok0 : memory_ok (mk_memory contents size 0)).
  { unfold memory_ok, size. cbn [data dataSize currentReadPos]. lia. }
  pose proof (drwav__on_read_memory_ok _ 12 Hok0 ltac:(unfold SIZE_MAX; lia)) as Hread.
  rewrite Hriff in Hread. destruct Hread as (Hk & _ & Hm1 & Hok1).
  rewrite Hcount in Hk. rewrite <- Hk in Hm1. cbn [data dataSize currentReadPos] in Hm1.
  destruct (drwav__read_fmt_memory m1 _ ok f m2 Hok1 Hfmt Hnz) as (Hok2 & Hd2 & Hs2 & Hp2).
  destruct (scans_to_memory m2 _ (drwav_open__find_data_sound _ _ _ _ _ Hfind) Hok2 n m3
              eq_refl) as (Hok3 & Hd3 & Hs3 & Hp3 & Hid & Hn).
  subst m1. cbn [data dataSize currentReadPos] in *.
  assert (Hpos : pos = currentReadPos m3) by (unfold pos; now rewrite Hw).
  assert (Hdata : data m3 = contents) by congruence.
  assert (Hsize : dataSize m3 = size) by congruence.
  rewrite Hdata in Hid, Hn.
  pose proof Hok3 as (_ & Hp & _).
  unfold header. rewrite Hpos.
  split; [now rewrite Hw|]. split; [now rewrite Hw|].
  split; [now rewrite Hw|]. split; [now rewrite Hw|].
  split; [lia|]. split; [exact Hid|]. split; [now rewrite Hw|].
  intros Hwhole Hfit. rewrite Hw in Hwhole, Hfit |- *.
  cbn [bytesRemaining bytesPerSample] in Hwhole, Hfit.
  set (bps := to_ushort (to_uint (Fmt.blockAlign f / Fmt.channels f))) in *.
  assert (Hbps0 : 0 < bps).
  { unfold bps, to_ushort in *.
    pose proof (Z.mod_pos_bound (to_uint (Fmt.blockAlign f / Fmt.channels f)) (2 ^ 16)
                  ltac:(lia)). lia. }
  assert (Hscan : 0 <= n < 2 ^ 32).
  { eapply scans_to_size_range; [|reflexivity].
    eapply drwav_open__find_data_sound. exact Hfind. }
  pose proof (Z.div_mod n bps Hbps) as Hdiv. rewrite Hwhole, Z.add_0_r in Hdiv.
  assert (Hq : 0 <= n / bps) by (apply Z.div_pos; lia).
  unfold at_sample.
  cbn [onRead onSeek pUserData bytesPerSample totalSampleCount bytesRemaining].
  fold bps.
  do 2 (split; [reflexivity|]). split; [exact Hok3|].
  repeat split; try assumption; try reflexivity; try lia.
Qed.

(** *** Witnesses on the four-sample container *)

Lemma drwav_open_memory_returns_witness :
  drwav_open_memory true plain_env even_container <> OutOfFuel.
Proof.
  refine (drwav_open_memory_returns true plain_env even_container _).
  vm_compute. discriminate.
Defined.

Lemma drwav_open_memory_positions_witness :
  let pos := 44 in
  let header := firstn 8 (skipn (Z.to_nat (pos - 8)) even_container) in
  onRead even_decoder = Some drwav__on_read_memory
  /\ onSeek even_decoder = Some drwav__on_seek_memory
  /\ data (pUserData even_decoder) = even_container
  /\ dataSize (pUserData even_decoder) = Z.of_nat (length even_container)
  /\ 44 <= pos <= Z.of_nat (length even_container)
  /\ fourcc_is header "d" "a" "t" "a" = true
  /\ bytesRemaining even_decoder = le_u32 (skipn 4 header)
  /\ (bytesRemaining even_decoder mod bytesPerSample even_decoder = 0 ->
      pos + bytesRemaining even_decoder <= Z.of_nat (length even_container) ->
      at_sample pos 0 even_decoder).
Proof.
  refine (drwav_open_memory_positions true plain_env even_container even_decoder _ _).
  - vm_compute. discriminate.
  - reflexivity.
Defined.

Lemma drwav_seek_memory_lands_witness :
  drwav_seek false (Some even_decoder) 2 = Ret (1, Some (move_to 44 2 even_decoder))
  /\ at_sample 44 2 (move_to 44 2 even_decoder).
Proof.
  refine (drwav_seek_memory_lands false 44 0 even_decoder 2 _ _ _).
  - unfold at_sample, memory_ok.
    repeat split; first [reflexivity | discriminate].
  - reflexivity.
  - discriminate.
Defined.

Lemma drwav_read_memory_samples_witness :
  drwav_read (Some even_decoder) 3 (Some scratch) 5
  = Ret (2, Some (overwrite scratch (samples_from 44 0 2 even_decoder)),
         Some (move_to 44 2 even_decoder))
  /\ Z.of_nat (length (samples_from 44 0 2 even_decoder)) = 4
  /\ at_sample 44 2 (move_to 44 2 even_decoder).
Proof.
  refine (drwav_read_memory_samples 44 0 even_decoder 3 scratch 5 _ _ _).
  - unfold at_sample, memory_ok.
    repeat split; first [reflexivity | discriminate].
  - discriminate.
  - split; discriminate.
Defined.

Lemma drwav_seek_then_read_memory_witness :
  ('(_, pWav) <- drwav_seek false (Some even_decoder) 3 ;;
   drwav_read pWav 2 (Some scratch) 100)
  = Ret (1, Some (overwrite scratch (samples_from 44 3 1 even_decoder)),
         Some (move_to 44 4 even_decoder)).
Proof.
  refine (drwav_seek_then_read_memory false 44 0 even_decoder 3 2 scratch 100 _ _ _ _).
  - unfold at_sample, memory_ok.
    repeat split; first [reflexivity | discriminate].
  - split; [discriminate|reflexivity].
  - discriminate.
  - split; discriminate.
Defined.

(** ** Ranges of the byte converters *)

(** The byte [x] with its top bit flipped. *)
Definition flip_top_bit (x : byte) : byte :=
  match Byte.of_N (N.lxor (Byte.to_N x) 128) with
  | Some y => y
  | None => x
  end.

(** X11. [drwav_u8PCM_to_f32] converts every byte of its input; the float
    stored for the byte [x] lies within 2^-24 of [2x/255 - 1] and within
    [-1, 1], and is never 0; the bytes 0 and 255 give -1.0 and 1.0. *)
Theorem drwav_u8PCM_to_f32_values :
  forall (u8PCM : list byte) (f32Out : list f32),
    (length u8PCM <= length f32Out)%nat ->
    drwav_u8PCM_to_f32 (Z.of_nat (length u8PCM)) (Some u8PCM) (Some f32Out)
    = Ret (Some (overwrite f32Out (map u8_sample_to_f32 u8PCM)))
    /\ (forall x : byte,
          exists q : Q,
            SF2Q (u8_sample_to_f32 x) = Some q
            /\ (-1 <= q <= 1)%Q
            /\ ~ (q == 0)%Q
            /\ (- (1 # 16777216) < q - ((2 * byte_val x - 255) # 255) < 1 # 16777216)%Q)
    /\ u8_sample_to_f32 "000"%byte = S754_finite true 8388608 (-23)
    /\ exactly (S754_finite true 8388608 (-23)) (-1 # 1)
    /\ u8_sample_to_f32 "255"%byte = S754_finite false 8388608 (-23)
    /\ exactly (S754_finite false 8388608 (-23)) (1 # 1).
Proof.
  intros u8PCM f32Out Hfit. split; [|split; [|repeat split]].
  - unfold drwav_u8PCM_to_f32. rewrite Nat2Z.id.
    rewrite (for_each_load_all (fun x => Ret (u8_sample_to_f32 x)) u8_sample_to_f32)
      by reflexivity.
    rewrite bind_ret, store_all_fits by now rewrite length_map.
    reflexivity.
  - intros x. destruct x;
      (eexists; split; [vm_compute; reflexivity|]);
      repeat split; vm_compute; congruence.
  - apply exactlyb_exactly. vm_compute. reflexivity.
  - apply exactlyb_exactly. vm_compute. reflexivity.
Qed.

Lemma drwav_u8PCM_to_f32_values_witness :
  drwav_u8PCM_to_f32 3 (Some ["000"; "128"; "255"]%byte)
                       (Some [S754_nan; S754_nan; S754_nan; S754_nan])
  = Ret (Some [S754_finite true 8388608 (-23); S754_finite false 8421632 (-31);
               S754_finite false 8388608 (-23); S754_nan]).
Proof.
  refine (proj1 (drwav_u8PCM_to_f32_values ["000"; "128"; "255"]%byte
                   [S754_nan; S754_nan; S754_nan; S754_nan] _)).
  simpl; lia.
Defined.

(** The value of one A-law and of one mu-law byte. *)
Definition alaw_value (x : byte) : f32 :=
  match alaw_sample_to_f32 x with Ret v => v | _ => S754_nan end.

Definition ulaw_value (x : byte) : f32 :=
  match ulaw_sample_to_f32 x with Ret v => v | _ => S754_nan end.

Lemma alaw_sample_returns (x : byte) : alaw_sample_to_f32 x = Ret (alaw_value x).
Proof. destruct x; reflexivity. Qed.

Lemma ulaw_sample_returns (x : byte) : ulaw_sample_to_f32 x = Ret (ulaw_value x).
Proof. destruct x; reflexivity. Qed.

(** The integer t of a float that is t/32768. *)
Definition times_32768 (v : f32) : Z :=
  match v with
  | S754_finite s m e => Z.shiftl (if s then Z.neg m else Z.pos m) (e + 15)
  | _ => 0
  end.

Definition alaw_in_range (x : byte) : bool :=
  let t := times_32768 (alaw_value x) in
  exactlyb (alaw_value x) (t # 32768) && (8 <=? Z.abs t) && (Z.abs t <=? 32256)
  && exactlyb (alaw_value (flip_top_bit x)) (- t # 32768).

Definition ulaw_in_range (x : byte) : bool :=
  let t := times_32768 (ulaw_value x) in
  exactlyb (ulaw_value x) (t # 32768) && (Z.abs t <=? 32124)
  && exactlyb (ulaw_value (flip_top_bit x)) (- t # 32768).

(** X12. [drwav_alaw_to_f32] and [drwav_ulaw_to_f32] convert every byte of
    their input without a shift out of range.  Each float stored is
    exactly t/32768 for an integer t with 8 <= |t| <= 32256 (A-law) or
    |t| <= 32124 (mu-law), so it lies strictly between -1 and 1, and the
    byte with the top bit flipped gives the opposite value. *)
Theorem companded_samples_in_range :
  forall (src : list byte) (f32Out : list f32),
    (length src <= length f32Out)%nat ->
    Z.of_nat (length src) <= UINT_MAX ->
    drwav_alaw_to_f32 (Z.of_nat (length src)) (Some src) (Some f32Out)
    = Ret (Some (overwrite f32Out (map alaw_value src)))
    /\ drwav_ulaw_to_f32 (Z.of_nat (length src)) (Some src) (Some f32Out)
       = Ret (Some (overwrite f32Out (map ulaw_value src)))
    /\ (forall x : byte,
          exists t : Z,
            exactly (alaw_value x) (t # 32768)
            /\ 8 <= Z.abs t <= 32256
            /\ exactly (alaw_value (flip_top_bit x)) (- t # 32768))
    /\ (forall x : byte,
          exists t : Z,
            exactly (ulaw_value x) (t # 32768)
            /\ Z.abs t <= 32124
            /\ exactly (ulaw_value (flip_top_bit x)) (- t # 32768)).
Proof.
  intros src f32Out Hfit Hcount. split; [|split; [|split]].
  - unfold drwav_alaw_to_f32. rewrite Nat2Z.id.
    rewrite (for_each_load_all alaw_sample_to_f32 alaw_value)
      by (intros; apply alaw_sample_returns).
    rewrite bind_ret, store_all_fits by now rewrite length_map.
    reflexivity.
  - unfold drwav_ulaw_to_f32, uint_counter_reaches.
    destruct (Z.ltb_spec UINT_MAX (Z.of_nat (length src))) as [|_]; [lia|].
    rewrite bind_ret, Nat2Z.id.
    rewrite (for_each_load_all ulaw_sample_to_f32 ulaw_value)
      by (intros; apply ulaw_sample_returns).
    rewrite bind_ret, store_all_fits by now rewrite length_map.
    reflexivity.
  - intros x. exists (times_32768 (alaw_value x)).
    assert (H : alaw_in_range x = true) by (destruct x; vm_compute; reflexivity).
    unfold alaw_in_range in H.
    apply andb_prop in H as [H H3]. apply andb_prop in H as [H Hhi].
    apply andb_prop in H as [H1 Hlo].
    apply Z.leb_le in Hlo. apply Z.leb_le in Hhi.
    repeat split; try assumption; now apply exactlyb_exactly.
  - intros x. exists (times_32768 (ulaw_value x)).
    assert (H : ulaw_in_range x = true) by (destruct x; vm_compute; reflexivity).
    unfold ulaw_in_range in H.
    apply andb_prop in H as [H H3]. apply andb_prop in H as [H1 Hhi].
    apply Z.leb_le in Hhi.
    repeat split; try assumption; now apply exactlyb_exactly.
Qed.

Lemma companded_samples_in_range_witness :
  drwav_alaw_to_f32 2 (Some ["213"; "085"]%byte) (Some [S754_nan; S754_nan])
  = Ret (Some [alaw_value "213"; alaw_value "085"]%byte).
Proof.
  refine (proj1 (companded_samples_in_range ["213"; "085"]%byte [S754_nan; S754_nan] _ _)).
  - simpl; lia.
  - vm_compute. discriminate.
Defined.

(** ** Reading samples as floats: the conversion loop over the memory source *)

Lemma overwrite_app {A : Type} (dst a b : list A) :
  overwrite dst (a ++ b) = a ++ overwrite (skipn (length a) dst) b.
Proof.
  unfold overwrite. rewrite <- app_assoc, length_app, skipn_skipn.
  now rewrite (Nat.add_comm (length b)).
Qed.

Lemma overwrite_nil {A : Type} (dst : list A) : overwrite dst [] = dst.
Proof. reflexivity. Qed.

Lemma firstn_overwrite {A : Type} (dst a : list A) :
  firstn (length a) (overwrite dst a) = a.
Proof.
  unfold overwrite. rewrite firstn_app, Nat.sub_diag, firstn_all. cbn.
  now rewrite app_nil_r.
Qed.

Lemma skipn_overwrite {A : Type} (dst a : list A) :
  skipn (length a) (overwrite dst a) = skipn (length a) dst.
Proof.
  unfold overwrite. rewrite skipn_app, Nat.sub_diag, skipn_all. reflexivity.
Qed.

Lemma samples_from_split (start index a b : Z) (w : drwav drwav_memory) :
  0 < bytesPerSample w -> 0 <= start -> 0 <= index -> 0 <= a -> 0 <= b ->
  samples_from start index (a + b) w
  = samples_from start index a w ++ samples_from start (index + a) b w.
Proof.
  intros Hbps Hstart Hidx Ha Hb. unfold samples_from.
  replace (Z.to_nat ((a + b) * bytesPerSample w))
    with (Z.to_nat (a * bytesPerSample w) + Z.to_nat (b * bytesPerSample w))%nat by nia.
  rewrite firstn_plus, skipn_skipn. do 3 f_equal. nia.
Qed.

Lemma samples_from_move_to (start index count index' : Z) (w : drwav drwav_memory) :
  samples_from start index count (move_to start index' w)
  = samples_from start index count w.
Proof. reflexivity. Qed.

Lemma move_to_move_to (start index index' : Z) (w : drwav drwav_memory) :
  move_to start index (move_to start index' w) = move_to start index w.
Proof. reflexivity. Qed.

Lemma samples_from_length (start index count : Z) (w : drwav drwav_memory) :
  at_sample start index w ->
  0 <= count <= totalSampleCount w - index ->
  Z.of_nat (length (samples_from start index count w)) = count * bytesPerSample w.
Proof.
  intros (_ & _ & (Hsize & _ & _) & Hbps & Hstart & Hfit & Hidx & _ & _) Hcount.
  unfold samples_from. rewrite length_firstn, length_skipn. nia.
Qed.

Section SlowPath.

Variable path : slow_path.
Variable bps : Z.
Variable decode : list byte -> list f32.

Hypothesis Hbps : 0 < bps <= 4096.

Hypothesis Hconv :
  forall (k : Z) (bytes post : list byte) (dst : list f32),
    0 < k ->
    Z.of_nat (length bytes) = k * bps ->
    k * bps <= 4096 ->
    k <= Z.of_nat (length dst) ->
    convert_samples path k (bytes ++ post) bps dst
    = Ret (Some (overwrite dst (decode bytes))).

Hypothesis Hlen :
  forall (k : Z) (bytes : list byte),
    Z.of_nat (length bytes) = k * bps -> Z.of_nat (length (decode bytes)) = k.

Hypothesis Happ :
  forall (k : Z) (a b : list byte),
    Z.of_nat (length a) = k * bps -> decode (a ++ b) = decode a ++ decode b.

Lemma decode_nil : decode [] = [].
Proof.
  pose proof (Hlen 0 [] eq_refl) as H. now destruct (decode []).
Qed.

Lemma drwav_read_f32__loop_memory (start : Z) (fuel : nat) :
  forall (w : drwav drwav_memory) (index samplesToRead : Z) (sampleData : list byte)
         (written pBufferOut : list f32) (totalSamplesRead : Z),
    at_sample start index w ->
    bytesPerSample w = bps ->
    Z.of_nat (length sampleData) = 4096 ->
    0 <= samplesToRead ->
    0 <= totalSamplesRead ->
    totalSamplesRead + samplesToRead <= SIZE_MAX ->
    let count := Z.min samplesToRead (totalSampleCount w - index) in
    count <= Z.of_nat (length pBufferOut) ->
    (Z.to_nat count < fuel)%nat ->
    drwav_read_f32__loop fuel path w samplesToRead sampleData written pBufferOut
                         totalSamplesRead
    = Ret (totalSamplesRead + count,
           written ++ overwrite pBufferOut (decode (samples_from start index count w)),
           move_to start (index + count) w).
Proof.
  induction fuel as [|fuel IH];
    intros w index n sd written out tot Hat Hw Hsd Hn Htot Hmax count Hroom Hfuel;
    [lia|].
  pose proof Hat as (_ & _ & _ & _ & Hstart & _ & Hidx & _ & _).
  cbn [drwav_read_f32__loop].
  destruct (Z.gtb_spec n 0) as [Hpos|Hzero].
  - rewrite (drwav_read_at_sample start index w n sd 4096 Hat Hn)
      by (unfold SIZE_MAX; lia).
    rewrite bind_ret, Hw.
    set (c1 := Z.min (Z.min n (4096 / bps)) (totalSampleCount w - index)).
    assert (Hchunk : 1 <= 4096 / bps).
    { apply Z.div_le_lower_bound; lia. }
    assert (Hchunk' : 4096 / bps * bps <= 4096).
    { rewrite Z.mul_comm. apply Z.mul_div_le. lia. }
    destruct (Z.eqb_spec c1 0) as [E0|Hc1].
    + assert (Hcount : count = 0) by (unfold count, c1 in *; lia).
      rewrite Hcount, E0, !Z.add_0_r.
      assert (Hnone : samples_from start index 0 w = []) by reflexivity.
      now rewrite Hnone, decode_nil, overwrite_nil.
    + assert (Hc1r : 0 < c1 <= count) by (unfold count, c1 in *; lia).
      assert (Hb1 : Z.of_nat (length (samples_from start index c1 w)) = c1 * bps).
      { rewrite <- Hw. apply samples_from_length; [exact Hat|unfold c1; lia]. }
      assert (Hc1b : c1 * bps <= 4096).
      { assert (c1 * bps <= 4096 / bps * bps); [|lia].
        apply Z.mul_le_mono_nonneg_r; unfold c1; lia. }
      cbn [bytesPerSample move_to with_stream]. rewrite Hw.
      unfold overwrite at 1.
      rewrite Hconv by (first [assumption | lia]).
      rewrite bind_ret.
      pose proof (Hlen c1 _ Hb1) as Hd1.
      replace (Z.to_nat c1) with (length (decode (samples_from start index c1 w))) by lia.
      rewrite firstn_overwrite, skipn_overwrite.
      rewrite (to_size_t_small (n - c1)) by (unfold SIZE_MAX in *; lia).
      rewrite (to_size_t_small (tot + c1)) by (unfold SIZE_MAX in *; lia).
      assert (Hat1 : at_sample start (index + c1) (move_to start (index + c1) w)).
      { apply (at_sample_move_to start index); [exact Hat|unfold c1; lia]. }
      assert (Hcount1 : Z.min (n - c1) (totalSampleCount w - (index + c1)) = count - c1)
        by (unfold count; lia).
      rewrite (IH (move_to start (index + c1) w) (index + c1)).
      * cbn [totalSampleCount move_to with_stream]. rewrite Hcount1.
        rewrite samples_from_move_to, move_to_move_to.
        replace (samples_from start index count w)
          with (samples_from start index c1 w
                ++ samples_from start (index + c1) (count - c1) w).
        -- rewrite (Happ c1) by exact Hb1.
           rewrite overwrite_app, <- app_assoc.
           do 2 f_equal; [f_equal; lia|f_equal; lia].
        -- rewrite <- samples_from_split by (first [lia | (rewrite Hw; lia)]).
           f_equal. lia.
      * exact Hat1.
      * exact Hw.
      * unfold overwrite. rewrite length_app, length_skipn. lia.
      * lia.
      * lia.
      * lia.
      * cbn [totalSampleCount move_to with_stream]. rewrite Hcount1, length_skipn. lia.
      * cbn [totalSampleCount move_to with_stream]. rewrite Hcount1. lia.
  - assert (n = 0) as -> by lia.
    assert (Hcount : count = 0) by (unfold count; lia).
    rewrite Hcount, !Z.add_0_r.
    assert (Hnone : samples_from start index 0 w = []) by reflexivity.
    rewrite Hnone, decode_nil, overwrite_nil.
    now rewrite (move_to_same start index w Hat).
Qed.

End SlowPath.

(** ** The converters on the staging array *)

Lemma for_each_load_within {A B : Type} (f : A -> outcome B) (g : A -> B) :
  forall (mid pre post : list A),
    (forall x, In x mid -> f x = Ret (g x)) ->
    for_each (fun i => x <- load (pre ++ mid ++ post) i ;; f x)
             (Z.of_nat (length pre)) (length mid) = Ret (map g mid).
Proof.
  induction mid as [|x mid IH]; intros pre post Hf; [reflexivity|].
  cbn [for_each length map app]. rewrite load_app_here, bind_ret.
  rewrite (Hf x) by now left. rewrite bind_ret.
  replace (Z.of_nat (length pre) + 1) with (Z.of_nat (length (pre ++ [x])))
    by (rewrite length_app; simpl; lia).
  replace (pre ++ x :: mid ++ post) with ((pre ++ [x]) ++ mid ++ post)
    by (now rewrite <- app_assoc).
  rewrite IH by (intros; apply Hf; now right).
  reflexivity.
Qed.

Lemma for_each_load_prefix {A B : Type} (f : A -> outcome B) (g : A -> B)
      (bytes post : list A) :
  (forall x, f x = Ret (g x)) ->
  for_each (fun i => x <- load (bytes ++ post) i ;; f x) 0 (length bytes)
  = Ret (map g bytes).
Proof.
  intros Hf. exact (for_each_load_within f g bytes [] post (fun x _ => Hf x)).
Qed.

Lemma convert_samples_alaw (k : Z) (bytes post : list byte) (dst : list f32) :
  0 < k ->
  Z.of_nat (length bytes) = k * 1 ->
  k * 1 <= 4096 ->
  k <= Z.of_nat (length dst) ->
  convert_samples PathALAW k (bytes ++ post) 1 dst
  = Ret (Some (overwrite dst (map alaw_value bytes))).
Proof.
  intros Hk Hlen _ Hroom. cbn [convert_samples]. unfold drwav_alaw_to_f32.
  replace (Z.to_nat k) with (length bytes) by lia.
  rewrite (for_each_load_prefix alaw_sample_to_f32 alaw_value) by apply alaw_sample_returns.
  rewrite bind_ret, store_all_fits by (rewrite length_map; lia).
  reflexivity.
Qed.

Lemma convert_samples_ulaw (k : Z) (bytes post : list byte) (dst : list f32) :
  0 < k ->
  Z.of_nat (length bytes) = k * 1 ->
  k * 1 <= 4096 ->
  k <= Z.of_nat (length dst) ->
  convert_samples PathMULAW k (bytes ++ post) 1 dst
  = Ret (Some (overwrite dst (map ulaw_value bytes))).
Proof.
  intros Hk Hlen Hmax Hroom. cbn [convert_samples].
  unfold drwav_ulaw_to_f32, uint_counter_reaches.
  destruct (Z.ltb_spec UINT_MAX k) as [Hbig|_]; [unfold UINT_MAX in Hbig; lia|].
  rewrite bind_ret.
  replace (Z.to_nat k) with (length bytes) by lia.
  rewrite (for_each_load_prefix ulaw_sample_to_f32 ulaw_value) by apply ulaw_sample_returns.
  rewrite bind_ret, store_all_fits by (rewrite length_map; lia).
  reflexivity.
Qed.

Lemma map_length_scaled {A B : Type} (f : A -> B) (k : Z) (l : list A) :
  Z.of_nat (length l) = k * 1 -> Z.of_nat (length (map f l)) = k.
Proof. rewrite length_map. lia. Qed.

(** X13. [drwav_read_f32] on a memory-backed A-law or mu-law decoder with
    one byte per sample that stands at sample [index] of its payload:
    it delivers min(samplesToRead, samples left) samples and stores, from
    the start of the output on, the value of each payload byte in order,
    whatever the number of 4096-byte rounds the conversion takes; the rest
    of the output is untouched and the decoder is left behind the last
    sample delivered. *)
Theorem drwav_read_f32_companded :
  forall (fuel : nat) (sampleData : list byte) (start index : Z)
         (w : drwav drwav_memory) (samplesToRead : Z) (pBufferOut : list f32),
    at_sample start index w ->
    bytesPerSample w = 1 ->
    Z.of_nat (length sampleData) = 4096 ->
    0 <= samplesToRead <= SIZE_MAX ->
    let count := Z.min samplesToRead (totalSampleCount w - index) in
    count <= Z.of_nat (length pBufferOut) ->
    (Z.to_nat count < fuel)%nat ->
    (translatedFormatTag w = DR_WAVE_FORMAT_ALAW ->
     drwav_read_f32 fuel sampleData (Some w) samplesToRead (Some pBufferOut)
     = Ret (count,
            Some (overwrite pBufferOut (map alaw_value (samples_from start index count w))),
            Some (move_to start (index + count) w)))
    /\ (translatedFormatTag w = DR_WAVE_FORMAT_MULAW ->
        drwav_read_f32 fuel sampleData (Some w) samplesToRead (Some pBufferOut)
        = Ret (count,
               Some (overwrite pBufferOut (map ulaw_value (samples_from start index count w))),
               Some (move_to start (index + count) w))).
Proof.
  intros fuel sampleData start index w n out Hat Hbps Hsd Hn count Hroom Hfuel.
  pose proof Hat as (_ & _ & _ & _ & _ & _ & Hidx & _ & _).
  assert (Hzero : n = 0 -> count = 0) by (unfold count; lia).
  split; intros Htag; unfold drwav_read_f32; rewrite Htag, Hbps; cbn [Z.eqb andb Pos.eqb
    DR_WAVE_FORMAT_ALAW DR_WAVE_FORMAT_MULAW DR_WAVE_FORMAT_IEEE_FLOAT DR_WAVE_FORMAT_PCM].
  - destruct (Z.eqb_spec n 0) as [E|_].
    + rewrite (Hzero E), Z.add_0_r, (move_to_same start index w Hat). reflexivity.
    + rewrite (drwav_read_f32__loop_memory PathALAW 1 (map alaw_value) ltac:(lia)
                 convert_samples_alaw (map_length_scaled alaw_value)
                 (fun _ a b _ => map_app alaw_value a b) start fuel w index n sampleData
                 [] out 0 Hat Hbps Hsd);
        try assumption; try lia.
      reflexivity.
  - destruct (Z.eqb_spec n 0) as [E|_].
    + rewrite (Hzero E), Z.add_0_r, (move_to_same start index w Hat). reflexivity.
    + rewrite (drwav_read_f32__loop_memory PathMULAW 1 (map ulaw_value) ltac:(lia)
                 convert_samples_ulaw (map_length_scaled ulaw_value)
                 (fun _ a b _ => map_app ulaw_value a b) start fuel w index n sampleData
                 [] out 0 Hat Hbps Hsd);
        try assumption; try lia.
      reflexivity.
Qed.

(** The samples of a PCM payload of 1, 2, 3 or 4 bytes per sample, as
    the converters of [drwav__pcm_to_f32] take them. *)
Fixpoint s24_samples (bytes : list byte) : list f32 :=
  match bytes with
  | s0 :: s1 :: s2 :: rest => s24_sample_to_f32 s0 s1 s2 :: s24_samples rest
  | _ => []
  end.

Definition pcm_samples (bytesPerSample : Z) (bytes : list byte) : list f32 :=
  if bytesPerSample =? 1 then map u8_sample_to_f32 bytes
  else if bytesPerSample =? 2 then map s16_sample_to_f32 (as_shorts bytes)
  else if bytesPerSample =? 3 then s24_samples bytes
  else map int_over_2p31 (as_ints bytes).

Lemma as_shorts_app (k : nat) :
  forall a b : list byte,
    length a = (2 * k)%nat -> as_shorts (a ++ b) = as_shorts a ++ as_shorts b.
Proof.
  induction k as [|k IH]; intros a b H.
  - destruct a; [reflexivity|discriminate].
  - do 2 (destruct a as [|? a]; [simpl in H; lia|]).
    cbn [app as_shorts]. f_equal. apply IH. simpl in H. lia.
Qed.

Lemma as_shorts_length (k : nat) :
  forall a : list byte, length a = (2 * k)%nat -> length (as_shorts a) = k.
Proof.
  induction k as [|k IH]; intros a H.
  - destruct a; [reflexivity|discriminate].
  - do 2 (destruct a as [|? a]; [simpl in H; lia|]).
    cbn [as_shorts length]. f_equal. apply IH. simpl in H. lia.
Qed.

Lemma as_ints_app (k : nat) :
  forall a b : list byte,
    length a = (4 * k)%nat -> as_ints (a ++ b) = as_ints a ++ as_ints b.
Proof.
  induction k as [|k IH]; intros a b H.
  - destruct a; [reflexivity|discriminate].
  - do 4 (destruct a as [|? a]; [simpl in H; lia|]).
    cbn [app as_ints]. f_equal. apply IH. simpl in H. lia.
Qed.

Lemma as_ints_length (k : nat) :
  forall a : list byte, length a = (4 * k)%nat -> length (as_ints a) = k.
Proof.
  induction k as [|k IH]; intros a H.
  - destruct a; [reflexivity|discriminate].
  - do 4 (destruct a as [|? a]; [simpl in H; lia|]).
    cbn [as_ints length]. f_equal. apply IH. simpl in H. lia.
Qed.

Lemma s24_samples_app (k : nat) :
  forall a b : list byte,
    length a = (3 * k)%nat -> s24_samples (a ++ b) = s24_samples a ++ s24_samples b.
Proof.
  induction k as [|k IH]; intros a b H.
  - destruct a; [reflexivity|discriminate].
  - do 3 (destruct a as [|? a]; [simpl in H; lia|]).
    cbn [app s24_samples]. f_equal. apply IH. simpl in H. lia.
Qed.

Lemma s24_samples_length (k : nat) :
  forall a : list byte, length a = (3 * k)%nat -> length (s24_samples a) = k.
Proof.
  induction k as [|k IH]; intros a H.
  - destruct a; [reflexivity|discriminate].
  - do 3 (destruct a as [|? a]; [simpl in H; lia|]).
    cbn [s24_samples length]. f_equal. apply IH. simpl in H. lia.
Qed.

Lemma load_app_at {A : Type} (pre rest : list A) (x : A) (i : Z) :
  i = Z.of_nat (length pre) -> load (pre ++ x :: rest) i = Ret x.
Proof. intros ->. apply load_app_here. Qed.

(** The loop of [drwav_s24PCM_to_f32] on the [k] samples that follow the
    first [p]. *)
Lemma for_each_s24 (k : nat) :
  forall (p : nat) (pre mid post : list byte),
    length pre = (3 * p)%nat ->
    length mid = (3 * k)%nat ->
    for_each (fun i =>
                s0 <- load (pre ++ mid ++ post) (i * 3 + 0) ;;
                s1 <- load (pre ++ mid ++ post) (i * 3 + 1) ;;
                s2 <- load (pre ++ mid ++ post) (i * 3 + 2) ;;
                Ret (s24_sample_to_f32 s0 s1 s2))
             (Z.of_nat p) k
    = Ret (s24_samples mid).
Proof.
  induction k as [|k IH]; intros p pre mid post Hpre Hmid.
  - destruct mid; [reflexivity|discriminate].
  - destruct mid as [|s0 [|s1 [|s2 mid]]]; try (simpl in Hmid; lia).
    cbn [for_each s24_samples app].
    rewrite (load_app_at pre _ s0) by lia. rewrite bind_ret.
    replace (pre ++ s0 :: s1 :: s2 :: mid ++ post)
      with ((pre ++ [s0]) ++ s1 :: s2 :: mid ++ post) at 1
      by (rewrite <- app_assoc; reflexivity).
    rewrite (load_app_at (pre ++ [s0]) _ s1) by (rewrite length_app; simpl; lia).
    rewrite bind_ret.
    replace (pre ++ s0 :: s1 :: s2 :: mid ++ post)
      with ((pre ++ [s0; s1]) ++ s2 :: mid ++ post) at 1
      by (rewrite <- app_assoc; reflexivity).
    rewrite (load_app_at (pre ++ [s0; s1]) _ s2) by (rewrite length_app; simpl; lia).
    rewrite bind_ret.
    replace (pre ++ s0 :: s1 :: s2 :: mid ++ post)
      with ((pre ++ [s0; s1; s2]) ++ mid ++ post)
      by (rewrite <- app_assoc; reflexivity).
    replace (Z.of_nat p + 1) with (Z.of_nat (S p)) by lia.
    rewrite (IH (S p)); [reflexivity| |simpl in Hmid; lia].
    rewrite length_app. simpl. lia.
Qed.

Lemma convert_samples_pcm (bps k : Z) (bytes post : list byte) (dst : list f32) :
  1 <= bps <= 4 ->
  0 < k ->
  Z.of_nat (length bytes) = k * bps ->
  k * bps <= 4096 ->
  k <= Z.of_nat (length dst) ->
  convert_samples PathPCM k (bytes ++ post) bps dst
  = Ret (Some (overwrite dst (pcm_samples bps bytes))).
Proof.
  intros Hbps Hk Hlen _ Hroom. cbn [convert_samples]. unfold drwav__pcm_to_f32, pcm_samples.
  assert (Hcases : bps = 1 \/ bps = 2 \/ bps = 3 \/ bps = 4) by lia.
  destruct Hcases as [-> | [-> | [-> | ->]]]; cbn [Z.eqb Pos.eqb].
  - unfold drwav_u8PCM_to_f32.
    replace (Z.to_nat k) with (length bytes) by lia.
    rewrite (for_each_load_prefix (fun x => Ret (u8_sample_to_f32 x)) u8_sample_to_f32)
      by reflexivity.
    rewrite !bind_ret, store_all_fits by (rewrite length_map; lia).
    reflexivity.
  - unfold drwav_s16PCM_to_f32.
    rewrite (as_shorts_app (Z.to_nat k)) by lia.
    replace (Z.to_nat k) with (length (as_shorts bytes))
      by (apply as_shorts_length; lia).
    rewrite (for_each_load_prefix (fun v => Ret (s16_sample_to_f32 v)) s16_sample_to_f32)
      by reflexivity.
    rewrite !bind_ret, store_all_fits
      by (rewrite length_map, (as_shorts_length (Z.to_nat k)); lia).
    reflexivity.
  - unfold drwav_s24PCM_to_f32.
    pose proof (for_each_s24 (Z.to_nat k) 0 [] bytes post eq_refl ltac:(lia)) as Hloop.
    cbn [app] in Hloop. change (Z.of_nat 0) with 0 in Hloop. rewrite Hloop.
    rewrite !bind_ret, store_all_fits
      by (rewrite (s24_samples_length (Z.to_nat k)); lia).
    reflexivity.
  - unfold drwav_s32PCM_to_f32.
    rewrite (as_ints_app (Z.to_nat k)) by lia.
    replace (Z.to_nat k) with (length (as_ints bytes))
      by (apply as_ints_length; lia).
    rewrite (for_each_load_prefix (fun v => Ret (int_over_2p31 v)) int_over_2p31)
      by reflexivity.
    rewrite !bind_ret, store_all_fits
      by (rewrite length_map, (as_ints_length (Z.to_nat k)); lia).
    reflexivity.
Qed.

Lemma pcm_samples_length (bps k : Z) (bytes : list byte) :
  1 <= bps <= 4 ->
  Z.of_nat (length bytes) = k * bps ->
  Z.of_nat (length (pcm_samples bps bytes)) = k.
Proof.
  intros Hbps Hlen. unfold pcm_samples.
  assert (Hcases : bps = 1 \/ bps = 2 \/ bps = 3 \/ bps = 4) by lia.
  destruct Hcases as [-> | [-> | [-> | ->]]]; cbn [Z.eqb Pos.eqb].
  - rewrite length_map. lia.
  - rewrite length_map, (as_shorts_length (Z.to_nat k)); lia.
  - rewrite (s24_samples_length (Z.to_nat k)); lia.
  - rewrite length_map, (as_ints_length (Z.to_nat k)); lia.
Qed.

Lemma pcm_samples_app (bps k : Z) (a b : list byte) :
  1 <= bps <= 4 ->
  Z.of_nat (length a) = k * bps ->
  pcm_samples bps (a ++ b) = pcm_samples bps a ++ pcm_samples bps b.
Proof.
  intros Hbps Hlen. unfold pcm_samples.
  assert (Hcases : bps = 1 \/ bps = 2 \/ bps = 3 \/ bps = 4) by lia.
  destruct Hcases as [-> | [-> | [-> | ->]]]; cbn [Z.eqb Pos.eqb].
  - apply map_app.
  - rewrite (as_shorts_app (Z.to_nat k)) by lia. apply map_app.
  - apply (s24_samples_app (Z.to_nat k)). lia.
  - rewrite (as_ints_app (Z.to_nat k)) by lia. apply map_app.
Qed.

Lemma pcm_samples_nil (bps : Z) : pcm_samples bps [] = [].
Proof.
  unfold pcm_samples.
  destruct (bps =? 1); [reflexivity|].
  destruct (bps =? 2); [reflexivity|].
  destruct (bps =? 3); reflexivity.
Qed.

Lemma to_short_range (z : Z) : -32768 <= to_short z <= 32767.
Proof.
  unfold to_short, to_signed.
  change (2 ^ 16) with 65536. change (2 ^ (16 - 1)) with 32768.
  pose proof (Z.mod_pos_bound z 65536 ltac:(lia)).
  destruct (Z.ltb_spec (z mod 65536) 32768); lia.
Qed.

Lemma as_shorts_range (bytes : list byte) :
  Forall (fun v => -32768 <= v <= 32767) (as_shorts bytes).
Proof.
  assert (H : forall (n : nat) (l : list byte),
             (length l <= n)%nat -> Forall (fun v => -32768 <= v <= 32767) (as_shorts l)).
  { induction n as [|n IH]; intros l Hl.
    - destruct l; [constructor|simpl in Hl; lia].
    - destruct l as [|b0 [|b1 l]]; try constructor.
      + apply to_short_range.
      + apply IH. simpl in Hl. lia. }
  exact (H (length bytes) bytes (le_n _)).
Qed.

Lemma drwav_read_f32_pcm_runs (fuel : nat) (sampleData : list byte) (start index : Z)
      (w : drwav drwav_memory) (samplesToRead : Z) (pBufferOut : list f32) :
  at_sample start index w ->
  translatedFormatTag w = DR_WAVE_FORMAT_PCM ->
  1 <= bytesPerSample w <= 4 ->
  Z.of_nat (length sampleData) = 4096 ->
  0 <= samplesToRead <= SIZE_MAX ->
  let count := Z.min samplesToRead (totalSampleCount w - index) in
  count <= Z.of_nat (length pBufferOut) ->
  (Z.to_nat count < fuel)%nat ->
  drwav_read_f32 fuel sampleData (Some w) samplesToRead (Some pBufferOut)
  = Ret (count,
         Some (overwrite pBufferOut
                 (pcm_samples (bytesPerSample w) (samples_from start index count w))),
         Some (move_to start (index + count) w)).
Proof.
  intros Hat Htag Hbps Hsd Hn count Hroom Hfuel. rename samplesToRead into n.
  rename pBufferOut into out.
  pose proof Hat as (_ & _ & _ & _ & _ & _ & Hidx & _ & _).
  assert (Hzero : n = 0 -> count = 0) by (unfold count; lia).
  unfold drwav_read_f32. rewrite Htag.
  cbn [Z.eqb andb Pos.eqb DR_WAVE_FORMAT_IEEE_FLOAT DR_WAVE_FORMAT_PCM].
  destruct (Z.eqb_spec n 0) as [E|_].
  - rewrite (Hzero E), Z.add_0_r, (move_to_same start index w Hat).
    change (samples_from start index 0 w) with (@nil byte).
    rewrite pcm_samples_nil. reflexivity.
  - rewrite (drwav_read_f32__loop_memory PathPCM (bytesPerSample w)
               (pcm_samples (bytesPerSample w)) ltac:(lia)
               (fun k bytes post dst => convert_samples_pcm _ k bytes post dst Hbps)
               (fun k bytes => pcm_samples_length _ k bytes Hbps)
               (fun k a b => pcm_samples_app _ k a b Hbps)
               start fuel w index n sampleData [] out 0 Hat eq_refl Hsd);
      try assumption; try lia.
    reflexivity.
Qed.

(** X14. [drwav_read_f32] on a memory-backed PCM decoder of 1, 2, 3 or 4
    bytes per sample that stands at sample [index] of its payload delivers
    min(samplesToRead, samples left) samples and stores, from the start of
    the output on, what the converter of that width gives for the payload
    bytes in order, whatever the number of 4096-byte rounds; the rest of
    the output is untouched and the decoder is left behind the last sample
    delivered.  At 2 bytes per sample each float is exactly the signed
    little-endian 16-bit value over 32768. *)
Theorem drwav_read_f32_pcm :
  forall (fuel : nat) (sampleData : list byte) (start index : Z)
         (w : drwav drwav_memory) (samplesToRead : Z) (pBufferOut : list f32),
    at_sample start index w ->
    translatedFormatTag w = DR_WAVE_FORMAT_PCM ->
    1 <= bytesPerSample w <= 4 ->
    Z.of_nat (length sampleData) = 4096 ->
    0 <= samplesToRead <= SIZE_MAX ->
    let count := Z.min samplesToRead (totalSampleCount w - index) in
    count <= Z.of_nat (length pBufferOut) ->
    (Z.to_nat count < fuel)%nat ->
    drwav_read_f32 fuel sampleData (Some w) samplesToRead (Some pBufferOut)
    = Ret (count,
           Some (overwrite pBufferOut
                   (pcm_samples (bytesPerSample w) (samples_from start index count w))),
           Some (move_to start (index + count) w))
    /\ (forall bytes : list byte,
          pcm_samples 2 bytes = map s16_sample_to_f32 (as_shorts bytes)
          /\ Forall (fun v => -32768 <= v <= 32767
                              /\ exactly (s16_sample_to_f32 v) (v # 32768))
                    (as_shorts bytes)).
Proof.
  intros fuel sampleData start index w n out Hat Htag Hbps Hsd Hn count Hroom Hfuel.
  split.
  - now apply drwav_read_f32_pcm_runs.
  - intros bytes. split; [reflexivity|].
    eapply Forall_impl; [|apply as_shorts_range].
    cbv beta. intros v Hv. split; [exact Hv|]. now apply s16_sample_exact.
Qed.

(** ** The patterns of canonical floats *)

Lemma digits2_pos_bounds (m : positive) :
  2 ^ (Z.pos (digits2_pos m) - 1) <= Z.pos m < 2 ^ Z.pos (digits2_pos m).
Proof.
  induction m as [m IH|m IH|]; cbn [digits2_pos].
  - rewrite Pos2Z.inj_succ, (Pos2Z.inj_xI m).
    replace (Z.succ (Z.pos (digits2_pos m)) - 1) with (Z.succ (Z.pos (digits2_pos m) - 1))
      by lia.
    rewrite !Z.pow_succ_r by lia. lia.
  - rewrite Pos2Z.inj_succ, (Pos2Z.inj_xO m).
    replace (Z.succ (Z.pos (digits2_pos m)) - 1) with (Z.succ (Z.pos (digits2_pos m) - 1))
      by lia.
    rewrite !Z.pow_succ_r by lia. lia.
  - cbn. lia.
Qed.

Lemma f32_fields (sign : bool) (e m : Z) :
  0 <= e < 256 ->
  0 <= m < 8388608 ->
  let bits := (if sign then 2147483648 else 0) + e * 8388608 + m in
  Z.testbit bits 31 = sign
  /\ Z.land (Z.shiftr bits 23) 0xFF = e
  /\ Z.land bits 0x7FFFFF = m.
Proof.
  intros He Hm bits.
  change 0xFF with (Z.ones 8). change 0x7FFFFF with (Z.ones 23).
  rewrite !Z.land_ones, Z.shiftr_div_pow2, Z.testbit_eqb by lia.
  change (2 ^ 31) with 2147483648. change (2 ^ 23) with 8388608. change (2 ^ 8) with 256.
  unfold bits. destruct sign.
  - repeat split; [apply Z.eqb_eq| |]; Z.div_mod_to_equations; lia.
  - repeat split; [apply Z.eqb_neq| |]; Z.div_mod_to_equations; lia.
Qed.

Lemma canonical_f32 (s : bool) (m : positive) (e : Z) :
  valid_binary 24 128 (S754_finite s m e) = true ->
  (Z.pos m < 8388608 /\ e = -149)
  \/ (8388608 <= Z.pos m < 16777216 /\ -149 <= e <= 104).
Proof.
  intros Hvalid.
  cbn [valid_binary] in Hvalid. unfold bounded, canonical_mantissa, fexp, emin in Hvalid.
  apply andb_prop in Hvalid as [Hcanon Hmax].
  apply Z.eqb_eq in Hcanon. apply Z.leb_le in Hmax.
  pose proof (digits2_pos_bounds m) as Hdigits.
  set (d := Z.pos (digits2_pos m)) in *.
  assert (Hd : 1 <= d) by (unfold d; lia).
  destruct (Z.lt_ge_cases (Z.pos m) 8388608) as [Hsub|Hnorm].
  - left. split; [exact Hsub|].
    assert (Hd23 : d <= 23).
    { destruct (Z.le_gt_cases d 23) as [|Hgt]; [assumption|].
      assert (2 ^ 23 <= 2 ^ (d - 1)) by (apply Z.pow_le_mono_r; lia).
      change (2 ^ 23) with 8388608 in *. lia. }
    lia.
  - right.
    assert (Hd24 : d = 24).
    { assert (d <= 24) by lia.
      destruct (Z.le_gt_cases 24 d) as [|Hlt]; [lia|].
      assert (2 ^ d <= 2 ^ 23) by (apply Z.pow_le_mono_r; lia).
      change (2 ^ 23) with 8388608 in *. lia. }
    rewrite Hd24 in Hdigits. change (2 ^ 24) with 16777216 in Hdigits. lia.
Qed.

Lemma bits_of_f32_range (x : f32) :
  valid_binary 24 128 x = true -> 0 <= bits_of_f32 x < 4294967296.
Proof.
  destruct x as [s|s| |s m e]; intros Hvalid;
    [destruct s; cbn; lia|destruct s; cbn; lia|cbn; lia|].
  unfold bits_of_f32.
  destruct (canonical_f32 s m e Hvalid) as [[Hm He]|[Hm He]];
    destruct (Z.ltb_spec (Z.pos m) 0x800000); destruct s; lia.
Qed.

(** A canonical binary32 value is the value of its pattern. *)
Lemma f32_of_bits_of_f32 (x : f32) :
  valid_binary 24 128 x = true -> f32_of_bits (bits_of_f32 x) = x.
Proof.
  destruct x as [s|s| |s m e]; intros Hvalid;
    [destruct s; reflexivity|destruct s; reflexivity|reflexivity|].
  unfold bits_of_f32, f32_of_bits.
  destruct (canonical_f32 s m e Hvalid) as [[Hm He]|[Hm He]];
    destruct (Z.ltb_spec (Z.pos m) 0x800000) as [Hsub|Hnorm]; try lia.
  - destruct (f32_fields s 0 (Z.pos m) ltac:(lia) ltac:(lia)) as (Hs & Hexp & Hman).
    cbv zeta in Hs, Hexp, Hman.
    replace ((if s then 2147483648 else 0) + Z.pos m)
      with ((if s then 2147483648 else 0) + 0 * 8388608 + Z.pos m) by lia.
    rewrite Hs, Hexp, Hman. cbn [Z.eqb]. subst e. reflexivity.
  - destruct (f32_fields s (e + 150) (Z.pos m - 8388608) ltac:(lia) ltac:(lia))
      as (Hs & Hexp & Hman).
    cbv zeta in Hs, Hexp, Hman.
    replace ((if s then 2147483648 else 0) + ((e + 150) * 8388608 + (Z.pos m - 8388608)))
      with ((if s then 2147483648 else 0) + (e + 150) * 8388608 + (Z.pos m - 8388608))
      by lia.
    rewrite Hs, Hexp, Hman.
    destruct (Z.eqb_spec (e + 150) 0) as [|_]; [lia|].
    destruct (Z.eqb_spec (e + 150) 255) as [|_]; [lia|].
    replace (Z.pos m - 8388608 + 8388608) with (Z.pos m) by lia.
    replace (e + 150 - 150) with e by lia.
    reflexivity.
Qed.

Lemma byte_val_octet (z : Z) :
  0 <= z < 256 ->
  byte_val (match Byte.of_N (Z.to_N z) with Some b => b | None => "000"%byte end) = z.
Proof.
  intros Hz. unfold byte_val.
  destruct (Byte.of_N (Z.to_N z)) as [b|] eqn:E.
  - apply Byte.to_of_N in E. lia.
  - apply Byte.of_N_None_iff in E. lia.
Qed.

Lemma as_floats_le32 (v : Z) (rest : list byte) :
  0 <= v < 4294967296 ->
  as_floats (octets (le32 v) ++ rest) = f32_of_bits v :: as_floats rest.
Proof.
  intros Hv. unfold octets, le32. cbn [map app as_floats].
  rewrite !byte_val_octet by (apply Z.mod_pos_bound; lia).
  do 2 f_equal.
  change (2 ^ 8) with 256. change (2 ^ 16) with 65536. change (2 ^ 24) with 16777216.
  Z.div_mod_to_equations. lia.
Qed.

Lemma as_floats_f32_object_repr (floats : list f32) :
  Forall (fun x => valid_binary 24 128 x = true) floats ->
  as_floats (f32_object_repr floats) = floats.
Proof.
  induction 1 as [|x floats Hx _ IH]; [reflexivity|].
  unfold f32_object_repr. cbn [flat_map].
  fold (f32_object_repr floats).
  rewrite as_floats_le32 by now apply bits_of_f32_range.
  now rewrite f32_of_bits_of_f32, IH.
Qed.

Lemma as_doubles_app (k : nat) :
  forall a b : list byte,
    length a = (8 * k)%nat -> as_doubles (a ++ b) = as_doubles a ++ as_doubles b.
Proof.
  induction k as [|k IH]; intros a b H.
  - destruct a; [reflexivity|discriminate].
  - do 8 (destruct a as [|? a]; [simpl in H; lia|]).
    cbn [app as_doubles]. f_equal. apply IH. simpl in H. lia.
Qed.

Lemma as_doubles_length (k : nat) :
  forall a : list byte, length a = (8 * k)%nat -> length (as_doubles a) = k.
Proof.
  induction k as [|k IH]; intros a H.
  - destruct a; [reflexivity|discriminate].
  - do 8 (destruct a as [|? a]; [simpl in H; lia|]).
    cbn [as_doubles length]. f_equal. apply IH. simpl in H. lia.
Qed.

Lemma as_floats_app (k : nat) :
  forall a b : list byte,
    length a = (4 * k)%nat -> as_floats (a ++ b) = as_floats a ++ as_floats b.
Proof.
  induction k as [|k IH]; intros a b H.
  - destruct a; [reflexivity|discriminate].
  - do 4 (destruct a as [|? a]; [simpl in H; lia|]).
    cbn [app as_floats]. f_equal. apply IH. simpl in H. lia.
Qed.

Lemma convert_samples_doubles (k : Z) (bytes post : list byte) (dst : list f32) :
  0 < k ->
  Z.of_nat (length bytes) = k * 8 ->
  k * 8 <= 4096 ->
  k <= Z.of_nat (length dst) ->
  convert_samples PathIEEE k (bytes ++ post) 8 dst
  = Ret (Some (overwrite dst (map f32_of_f64 (as_doubles bytes)))).
Proof.
  intros Hk Hlen _ Hroom. cbn [convert_samples]. unfold drwav__ieee_to_f32.
  cbn [Z.eqb Pos.eqb]. unfold drwav_f64_to_f32.
  rewrite (as_doubles_app (Z.to_nat k)) by lia.
  replace (Z.to_nat k) with (length (as_doubles bytes))
    by (apply as_doubles_length; lia).
  rewrite (for_each_load_prefix (fun x => Ret (f32_of_f64 x)) f32_of_f64) by reflexivity.
  rewrite !bind_ret, store_all_fits
    by (rewrite length_map, (as_doubles_length (Z.to_nat k)); lia).
  reflexivity.
Qed.

Lemma skipn_f32_object_repr (k : nat) :
  forall floats : list f32,
    skipn (4 * k) (f32_object_repr floats) = f32_object_repr (skipn k floats).
Proof.
  induction k as [|k IH]; intros floats; [reflexivity|].
  destruct floats as [|x floats]; [reflexivity|].
  replace (4 * S k)%nat with (4 * k + 4)%nat by lia.
  rewrite <- skipn_skipn.
  change (skipn 4 (f32_object_repr (x :: floats))) with (f32_object_repr floats).
  apply IH.
Qed.

Lemma as_floats_length (k : nat) :
  forall a : list byte, length a = (4 * k)%nat -> length (as_floats a) = k.
Proof.
  induction k as [|k IH]; intros a H.
  - destruct a; [reflexivity|discriminate].
  - do 4 (destruct a as [|? a]; [simpl in H; lia|]).
    cbn [as_floats length]. f_equal. apply IH. simpl in H. lia.
Qed.

Lemma Forall_skipn_of {A : Type} (P : A -> Prop) (k : nat) :
  forall l : list A, Forall P l -> Forall P (skipn k l).
Proof.
  induction k as [|k IH]; intros l H; [exact H|].
  destruct H; [constructor|]. cbn [skipn]. now apply IH.
Qed.

(** X15. [drwav_read_f32] on a memory-backed IEEE-float decoder that stands
    at sample [index] of its payload delivers min(samplesToRead, samples
    left) samples.  At 4 bytes per sample the payload bytes are copied into
    the output, whose first floats are then the binary32 values of the
    little-endian patterns of the payload; at 8 bytes per sample every
    binary64 value of the payload is stored rounded to binary32.  The rest
    of the output is untouched and the decoder is left behind the last
    sample delivered. *)
Theorem drwav_read_f32_ieee :
  forall (fuel : nat) (sampleData : list byte) (start index : Z)
         (w : drwav drwav_memory) (samplesToRead : Z) (pBufferOut : list f32),
    at_sample start index w ->
    translatedFormatTag w = DR_WAVE_FORMAT_IEEE_FLOAT ->
    Z.of_nat (length sampleData) = 4096 ->
    Forall (fun x => valid_binary 24 128 x = true) pBufferOut ->
    0 <= samplesToRead ->
    samplesToRead * 4 <= SIZE_MAX ->
    let count := Z.min samplesToRead (totalSampleCount w - index) in
    count <= Z.of_nat (length pBufferOut) ->
    (Z.to_nat count < fuel)%nat ->
    (bytesPerSample w = 4 ->
     drwav_read_f32 fuel sampleData (Some w) samplesToRead (Some pBufferOut)
     = Ret (count,
            Some (overwrite pBufferOut (as_floats (samples_from start index count w))),
            Some (move_to start (index + count) w)))
    /\ (bytesPerSample w = 8 ->
        drwav_read_f32 fuel sampleData (Some w) samplesToRead (Some pBufferOut)
        = Ret (count,
               Some (overwrite pBufferOut
                       (map f32_of_f64 (as_doubles (samples_from start index count w)))),
               Some (move_to start (index + count) w))).
Proof.
  intros fuel sampleData start index w n out Hat Htag Hsd Hvalid Hn Hn4 count Hroom Hfuel.
  pose proof Hat as (_ & _ & _ & _ & _ & _ & Hidx & _ & _).
  assert (Hzero : n = 0 -> count = 0) by (unfold count; lia).
  split; intros Hbps; unfold drwav_read_f32; rewrite Htag, Hbps;
    cbn [Z.eqb andb Pos.eqb DR_WAVE_FORMAT_IEEE_FLOAT DR_WAVE_FORMAT_PCM].
  - destruct (Z.eqb_spec n 0) as [E|Hnz].
    + rewrite (Hzero E), Z.add_0_r, (move_to_same start index w Hat). reflexivity.
    + rewrite (to_size_t_small (n * 4)) by lia.
      rewrite (drwav_read_at_sample start index w n (f32_object_repr out) (n * 4) Hat Hn)
        by lia.
      rewrite Hbps, Z.div_mul, Z.min_id by lia. fold count.
      rewrite bind_ret. cbn [option_map].
      assert (Hbytes : length (samples_from start index count w)
                       = (4 * Z.to_nat count)%nat).
      { pose proof (samples_from_length start index count w Hat
                      ltac:(unfold count; lia)) as Hl.
        rewrite Hbps in Hl. lia. }
      unfold overwrite at 1.
      rewrite (as_floats_app (Z.to_nat count)) by exact Hbytes.
      rewrite Hbytes, skipn_f32_object_repr.
      rewrite as_floats_f32_object_repr by now apply Forall_skipn_of.
      unfold overwrite. rewrite (as_floats_length (Z.to_nat count)) by exact Hbytes.
      reflexivity.
  - destruct (Z.eqb_spec n 0) as [E|_].
    + rewrite (Hzero E), Z.add_0_r, (move_to_same start index w Hat). reflexivity.
    + rewrite (drwav_read_f32__loop_memory PathIEEE 8
                 (fun bytes => map f32_of_f64 (as_doubles bytes)) ltac:(lia)
                 convert_samples_doubles) with (start := start) (index := index);
        try assumption; try lia.
      * reflexivity.
      * intros k bytes Hk. rewrite length_map, (as_doubles_length (Z.to_nat k)); lia.
      * intros k a b Hk. rewrite (as_doubles_app (Z.to_nat k)) by lia. apply map_app.
Qed.

(** ** PCM samples wider than four bytes *)

Lemma shl_uint_fault (a shift : Z) : 32 <= shift -> shl_uint a shift = Stuck ShiftOutOfRange.
Proof.
  intros H. unfold shl_uint.
  destruct (Z.ltb_spec shift 32); [lia|]. now rewrite andb_false_r.
Qed.

(** The generic converter on a sample of 5, 6, 7 or more than 8 bytes:
    the shift count starts at [(8 - bytesPerSample) * 8] as an [unsigned
    int] and reaches 32 or more while bytes are still to be taken. *)
Lemma pcm_generic_sample_shift_fault (bytesPerSample : Z) (b0 b1 b2 b3 : byte)
      (rest : list byte) :
  5 <= bytesPerSample <= 7 \/ 9 <= bytesPerSample <= 65535 ->
  pcm_generic_sample (b0 :: b1 :: b2 :: b3 :: rest) bytesPerSample
  = Stuck ShiftOutOfRange.
Proof.
  intros [Hsmall|Hbig].
  - assert (Hcases : bytesPerSample = 5 \/ bytesPerSample = 6 \/ bytesPerSample = 7) by lia.
    unfold pcm_generic_sample.
    destruct Hcases as [-> | [-> | ->]].
    + change (to_uint ((8 - 5) * 8)) with 24.
      rewrite pcm_accumulate_turn. change ((0 <? 5) && (0 <? 4)) with true. cbv iota.
      change (load (b0 :: b1 :: b2 :: b3 :: rest) 0) with (Ret b0).
      rewrite bind_ret, shl_uint_byte, bind_ret by lia.
      change (to_ushort (0 + 1)) with 1. change (to_uint (24 + 8)) with 32.
      rewrite pcm_accumulate_turn. change ((1 <? 5) && (1 <? 4)) with true. cbv iota.
      change (load (b0 :: b1 :: b2 :: b3 :: rest) 1) with (Ret b1).
      rewrite bind_ret, shl_uint_fault by lia. reflexivity.
    + change (to_uint ((8 - 6) * 8)) with 16.
      rewrite pcm_accumulate_turn. change ((0 <? 6) && (0 <? 4)) with true. cbv iota.
      change (load (b0 :: b1 :: b2 :: b3 :: rest) 0) with (Ret b0).
      rewrite bind_ret, shl_uint_byte, bind_ret by lia.
      change (to_ushort (0 + 1)) with 1. change (to_uint (16 + 8)) with 24.
      rewrite pcm_accumulate_turn. change ((1 <? 6) && (1 <? 4)) with true. cbv iota.
      change (load (b0 :: b1 :: b2 :: b3 :: rest) 1) with (Ret b1).
      rewrite bind_ret, shl_uint_byte, bind_ret by lia.
      change (to_ushort (1 + 1)) with 2. change (to_uint (24 + 8)) with 32.
      rewrite pcm_accumulate_turn. change ((2 <? 6) && (2 <? 4)) with true. cbv iota.
      change (load (b0 :: b1 :: b2 :: b3 :: rest) 2) with (Ret b2).
      rewrite bind_ret, shl_uint_fault by lia. reflexivity.
    + change (to_uint ((8 - 7) * 8)) with 8.
      rewrite pcm_accumulate_turn. change ((0 <? 7) && (0 <? 4)) with true. cbv iota.
      change (load (b0 :: b1 :: b2 :: b3 :: rest) 0) with (Ret b0).
      rewrite bind_ret, shl_uint_byte, bind_ret by lia.
      change (to_ushort (0 + 1)) with 1. change (to_uint (8 + 8)) with 16.
      rewrite pcm_accumulate_turn. change ((1 <? 7) && (1 <? 4)) with true. cbv iota.
      change (load (b0 :: b1 :: b2 :: b3 :: rest) 1) with (Ret b1).
      rewrite bind_ret, shl_uint_byte, bind_ret by lia.
      change (to_ushort (1 + 1)) with 2. change (to_uint (16 + 8)) with 24.
      rewrite pcm_accumulate_turn. change ((2 <? 7) && (2 <? 4)) with true. cbv iota.
      change (load (b0 :: b1 :: b2 :: b3 :: rest) 2) with (Ret b2).
      rewrite bind_ret, shl_uint_byte, bind_ret by lia.
      change (to_ushort (2 + 1)) with 3. change (to_uint (24 + 8)) with 32.
      rewrite pcm_accumulate_turn. change ((3 <? 7) && (3 <? 4)) with true. cbv iota.
      change (load (b0 :: b1 :: b2 :: b3 :: rest) 3) with (Ret b3).
      rewrite bind_ret, shl_uint_fault by lia. reflexivity.
  - unfold pcm_generic_sample.
    rewrite pcm_accumulate_turn.
    destruct (Z.ltb_spec 0 bytesPerSample); [|lia].
    change (0 <? 4) with true. cbn [andb].
    change (load (b0 :: b1 :: b2 :: b3 :: rest) 0) with (Ret b0).
    rewrite bind_ret, shl_uint_fault; [reflexivity|].
    unfold to_uint. change (2 ^ 32) with 4294967296.
    replace ((8 - bytesPerSample) * 8 mod 4294967296)
      with ((8 - bytesPerSample) * 8 + 4294967296).
    + lia.
    + apply (Zmod_unique _ 4294967296 (-1)); lia.
Qed.

Lemma drwav__pcm_to_f32_shift_fault (totalSampleCount bytesPerSample : Z)
      (pPCM : list byte) (f32Out : list f32) :
  5 <= bytesPerSample <= 7 \/ 9 <= bytesPerSample <= 65535 ->
  0 < totalSampleCount <= UINT_MAX ->
  (4 <= length pPCM)%nat ->
  drwav__pcm_to_f32 totalSampleCount (Some pPCM) bytesPerSample (Some f32Out)
  = Stuck ShiftOutOfRange.
Proof.
  intros Hbps Hn Hlen. unfold drwav__pcm_to_f32, uint_counter_reaches.
  destruct (Z.eqb_spec bytesPerSample 1); [lia|].
  destruct (Z.eqb_spec bytesPerSample 2); [lia|].
  destruct (Z.eqb_spec bytesPerSample 3); [lia|].
  destruct (Z.eqb_spec bytesPerSample 4); [lia|].
  destruct (Z.ltb_spec UINT_MAX totalSampleCount); [lia|].
  rewrite bind_ret.
  destruct (Z.to_nat totalSampleCount) as [|k] eqn:Ek; [lia|].
  do 4 (destruct pPCM as [|? pPCM]; [simpl in Hlen; lia|]).
  cbn [pcm_generic_loop]. now rewrite pcm_generic_sample_shift_fault.
Qed.

(** X16. [drwav_read_f32] on a memory-backed PCM decoder that has a sample
    left: with 5, 6, 7 or 9 to 4096 bytes per sample the conversion of the
    first round shifts an [unsigned int] by 32 bits or more; with more than
    4096 bytes per sample no sample fits the staging array and the call
    delivers nothing. *)
Theorem drwav_read_f32_pcm_wide :
  forall (fuel : nat) (sampleData : list byte) (start index : Z)
         (w : drwav drwav_memory) (samplesToRead : Z) (pBufferOut : list f32),
    at_sample start index w ->
    translatedFormatTag w = DR_WAVE_FORMAT_PCM ->
    Z.of_nat (length sampleData) = 4096 ->
    0 < samplesToRead <= SIZE_MAX ->
    index < totalSampleCount w ->
    (5 <= bytesPerSample w <= 7 \/ 9 <= bytesPerSample w <= 4096 ->
     drwav_read_f32 (S fuel) sampleData (Some w) samplesToRead (Some pBufferOut)
     = Stuck ShiftOutOfRange)
    /\ (4096 < bytesPerSample w ->
        drwav_read_f32 (S fuel) sampleData (Some w) samplesToRead (Some pBufferOut)
        = Ret (0, Some pBufferOut, Some w)).
Proof.
  intros fuel sampleData start index w n out Hat Htag Hsd Hn Hleft.
  pose proof Hat as (_ & _ & _ & Hpos & _ & _ & Hidx & _ & _).
  assert (Hread := drwav_read_at_sample start index w n sampleData 4096 Hat
                     ltac:(lia) ltac:(unfold SIZE_MAX; lia)).
  cbv zeta in Hread.
  split; intros Hbps; unfold drwav_read_f32; rewrite Htag;
    cbn [Z.eqb andb Pos.eqb DR_WAVE_FORMAT_IEEE_FLOAT DR_WAVE_FORMAT_PCM];
    (destruct (Z.eqb_spec n 0) as [|_]; [lia|]);
    cbn [drwav_read_f32__loop];
    (destruct (Z.gtb_spec n 0) as [_|]; [|lia]);
    rewrite Hread, bind_ret.
  - set (c1 := Z.min (Z.min n (4096 / bytesPerSample w)) (totalSampleCount w - index)).
    assert (Hchunk : 1 <= 4096 / bytesPerSample w)
      by (apply Z.div_le_lower_bound; lia).
    assert (Hc1 : 0 < c1 <= 4096).
    { assert (4096 / bytesPerSample w <= 4096)
        by (apply Z.div_le_upper_bound; lia).
      unfold c1. lia. }
    destruct (Z.eqb_spec c1 0) as [|_]; [lia|].
    cbn [bytesPerSample move_to with_stream convert_samples].
    rewrite drwav__pcm_to_f32_shift_fault; [reflexivity|lia|unfold UINT_MAX; lia|].
    unfold overwrite. rewrite length_app, length_skipn. lia.
  - assert (Hnone : 4096 / bytesPerSample w = 0) by (apply Z.div_small; lia).
    rewrite Hnone.
    replace (Z.min (Z.min n 0) (totalSampleCount w - index)) with 0 by lia.
    cbn [Z.eqb]. rewrite Z.add_0_r, (move_to_same start index w Hat). reflexivity.
Qed.

(** *** Witnesses on bare payloads *)

(** A decoder that stands at the start of a buffer holding only samples. *)
Definition payload_decoder (formatTag bytesPerSample : Z) (payload : list byte)
  : drwav drwav_memory :=
  mk_drwav (Some drwav__on_read_memory) (Some drwav__on_seek_memory)
           (mk_memory payload (Z.of_nat (length payload)) 0)
           zero_fmt 8000 1 (bytesPerSample * 8) bytesPerSample formatTag
           (Z.of_nat (length payload) / bytesPerSample) (Z.of_nat (length payload)).

Definition silence : list byte := repeat "000"%byte 4096.

Lemma drwav_read_f32_companded_witness :
  drwav_read_f32 5 silence (Some (payload_decoder 6 1 ["213"; "085"; "042"]%byte)) 2
                 (Some [S754_nan; S754_nan; S754_nan])
  = Ret (2,
         Some (overwrite [S754_nan; S754_nan; S754_nan]
                 (map alaw_value
                    (samples_from 0 0 2 (payload_decoder 6 1 ["213"; "085"; "042"]%byte)))),
         Some (move_to 0 2 (payload_decoder 6 1 ["213"; "085"; "042"]%byte))).
Proof.
  refine (proj1 (drwav_read_f32_companded 5 silence 0 0
                   (payload_decoder 6 1 ["213"; "085"; "042"]%byte) 2
                   [S754_nan; S754_nan; S754_nan] _ _ _ _ _ _) _).
  - unfold at_sample, memory_ok. repeat split; first [reflexivity | discriminate].
  - reflexivity.
  - reflexivity.
  - split; discriminate.
  - discriminate.
  - apply Nat.ltb_lt. reflexivity.
  - reflexivity.
Defined.

Lemma drwav_read_f32_pcm_witness :
  drwav_read_f32 10 silence (Some even_decoder) 10 (Some (repeat S754_nan 6))
  = Ret (4,
         Some (overwrite (repeat S754_nan 6)
                 (pcm_samples 2 (samples_from 44 0 4 even_decoder))),
         Some (move_to 44 4 even_decoder)).
Proof.
  refine (proj1 (drwav_read_f32_pcm 10 silence 44 0 even_decoder 10 (repeat S754_nan 6)
                   _ _ _ _ _ _ _)).
  - unfold at_sample, memory_ok. repeat split; first [reflexivity | discriminate].
  - reflexivity.
  - split; discriminate.
  - reflexivity.
  - split; discriminate.
  - discriminate.
  - apply Nat.ltb_lt. reflexivity.
Defined.

Lemma drwav_read_f32_ieee_witness :
  drwav_read_f32 5 silence
                 (Some (payload_decoder 3 4 (octets (le32 0x3F800000 ++ le32 0xBF000000)))) 1
                 (Some [S754_nan; S754_nan])
  = Ret (1,
         Some (overwrite [S754_nan; S754_nan]
                 (as_floats
                    (samples_from 0 0 1
                       (payload_decoder 3 4 (octets (le32 0x3F800000 ++ le32 0xBF000000)))))),
         Some (move_to 0 1
                 (payload_decoder 3 4 (octets (le32 0x3F800000 ++ le32 0xBF000000))))).
Proof.
  refine (proj1 (drwav_read_f32_ieee 5 silence 0 0
                   (payload_decoder 3 4 (octets (le32 0x3F800000 ++ le32 0xBF000000))) 1
                   [S754_nan; S754_nan] _ _ _ _ _ _ _ _) _).
  - unfold at_sample, memory_ok. repeat split; first [reflexivity | discriminate].
  - reflexivity.
  - reflexivity.
  - repeat constructor.
  - discriminate.
  - discriminate.
  - discriminate.
  - apply Nat.ltb_lt. reflexivity.
  - reflexivity.
Defined.

Lemma drwav_read_f32_pcm_wide_witness :
  drwav_read_f32 1 silence (Some (payload_decoder 1 5 (repeat "001"%byte 10))) 1
                 (Some [S754_nan])
  = Stuck ShiftOutOfRange.
Proof.
  refine (proj1 (drwav_read_f32_pcm_wide 0 silence 0 0
                   (payload_decoder 1 5 (repeat "001"%byte 10)) 1 [S754_nan]
                   _ _ _ _ _) _).
  - unfold at_sample, memory_ok. repeat split; first [reflexivity | discriminate].
  - reflexivity.
  - reflexivity.
  - split; [reflexivity|discriminate].
  - reflexivity.
  - left. split; discriminate.
Defined.

(** ** Containers that open *)

Section OpenAccepts.

Context {U : Type}.
Variable rd : drwav_read_proc U.
Variable sk : drwav_seek_proc U.

(** X17. [drwav_open] returns a decoder for every stream that starts with
    a RIFF/WAVE header of size 36 or more, has a format chunk that
    [drwav__read_fmt] accepts with a channel count that is not 0 and not
    above the block alignment, and has a "data" header in the chunks that
    follow, provided [malloc] succeeds; the decoder's fields are those of
    the format chunk and the size field of the data header. *)
Theorem drwav_open_accepts :
  forall (env : environment) (u : U) (riff : list byte) (u1 : U) (ok : Z)
         (f : drwav_fmt) (u2 : U) (dataSize : Z) (u3 : U),
    rd u 12 = (riff, u1) ->
    returned_count riff = 12 ->
    fourcc_is riff "R" "I" "F" "F" = true ->
    36 <= le_u32 (skipn 4 riff) ->
    fourcc_is (skipn 8 riff) "W" "A" "V" "E" = true ->
    drwav__read_fmt rd sk u1 (uninitialised_fmt env) = (ok, f, u2) ->
    ok <> 0 ->
    scans_to rd sk u2 (Some (dataSize, u3)) ->
    malloc_succeeds env = true ->
    0 < Fmt.channels f <= Fmt.blockAlign f ->
    exists fuel0 : nat,
      forall fuel : nat,
        (fuel0 <= fuel)%nat ->
        drwav_open fuel env (Some rd) (Some sk) u
        = Ret (Some (mk_drwav (Some rd) (Some sk) u3 f (Fmt.sampleRate f)
                       (Fmt.channels f) (Fmt.bitsPerSample f)
                       (Fmt.blockAlign f / Fmt.channels f)
                       (if Fmt.formatTag f =? 0xFFFE
                        then le_u16 (Fmt.subFormat f) else Fmt.formatTag f)
                       (dataSize / (Fmt.blockAlign f / Fmt.channels f))
                       dataSize)).
Proof.
  intros env u riff u1 ok f u2 dataSize u3 Hriff Hcount Hid Hsize Hwave Hfmt Hok Hscan
         Hmalloc Hch.
  destruct (drwav_open__find_data_complete rd sk u2 _ Hscan) as [fuel0 Hfind].
  exists fuel0. intros fuel Hfuel.
  destruct (drwav__read_fmt_field_ranges rd sk u1 _ ok f u2 Hfmt Hok) as (_ & Halign).
  change (2 ^ 16) with 65536 in Halign.
  set (q := Fmt.blockAlign f / Fmt.channels f).
  assert (Hq : 1 <= q < 65536).
  { unfold q. split; [apply Z.div_le_lower_bound; lia|].
    apply Z.div_lt_upper_bound; nia. }
  assert (Hwrap : to_ushort (to_uint q) = q).
  { unfold to_ushort, to_uint.
    rewrite (Z.mod_small q (2 ^ 32)) by (change (2 ^ 32) with 4294967296; lia).
    apply Z.mod_small. change (2 ^ 16) with 65536. lia. }
  unfold drwav_open. rewrite Hriff, Hcount, Hid, Hwave, drwav__read_u32_le.
  cbn [Z.eqb Pos.eqb negb].
  destruct (Z.ltb_spec (le_u32 (skipn 4 riff)) 36) as [|_]; [lia|].
  rewrite Hfmt.
  destruct (Z.eqb_spec ok 0) as [|_]; [contradiction|].
  rewrite (Hfind fuel Hfuel), bind_ret, Hmalloc. cbn [negb].
  rewrite udiv_pos, bind_ret by lia. fold q. rewrite Hwrap.
  rewrite udiv_pos, bind_ret by lia.
  rewrite drwav__read_u16_le. reflexivity.
Qed.

End OpenAccepts.

Lemma drwav_open_accepts_witness :
  exists fuel0 : nat,
    forall fuel : nat,
      (fuel0 <= fuel)%nat ->
      drwav_open fuel plain_env (Some drwav__on_read_memory) (Some drwav__on_seek_memory)
                 (mk_memory even_container 52 0)
      = Ret (Some even_decoder).
Proof.
  refine (drwav_open_accepts drwav__on_read_memory drwav__on_seek_memory plain_env
            (mk_memory even_container 52 0) (firstn 12 even_container)
            (mk_memory even_container 52 12) 1
            (Fmt.mk 1 1 44100 88200 2 16 0 0 0 (repeat "000"%byte 16))
            (mk_memory even_container 52 36) 8
            (mk_memory even_container 52 44) _ _ _ _ _ _ _ _ _ _).
  - reflexivity.
  - reflexivity.
  - reflexivity.
  - discriminate.
  - reflexivity.
  - reflexivity.
  - discriminate.
  - exact (scan_data_found drwav__on_read_memory drwav__on_seek_memory
             (mk_memory even_container 52 36) (firstn 8 (skipn 36 even_container))
             (mk_memory even_container 52 44) eq_refl eq_refl eq_refl).
  - reflexivity.
  - split; [reflexivity|discriminate].
Defined.

(** ** Canonical 16-bit containers *)

(** The payload of 16-bit samples, low byte first, and the mono container
    at 44100 Hz around it. *)
Definition pcm16_payload (samples : list Z) : list Z :=
  flat_map (fun v => le16 (v mod 65536)) samples.

Definition canonical_pcm16 (samples : list Z) : list byte :=
  wav_file 1 44100 2 16 (pcm16_payload samples).

Definition canonical_pcm16_decoder (samples : list Z) : drwav drwav_memory :=
  mk_drwav (Some drwav__on_read_memory) (Some drwav__on_seek_memory)
           (mk_memory (canonical_pcm16 samples)
                      (Z.of_nat (length (canonical_pcm16 samples))) 44)
           (Fmt.mk 1 1 44100 88200 2 16 0 0 0 (repeat "000"%byte 16))
           44100 1 16 2 1 (Z.of_nat (length samples)) (2 * Z.of_nat (length samples)).

Lemma pcm16_payload_length (samples : list Z) :
  length (pcm16_payload samples) = (2 * length samples)%nat.
Proof.
  induction samples as [|v samples IH]; [reflexivity|].
  unfold pcm16_payload in *. cbn [flat_map le16 app length]. rewrite IH. lia.
Qed.

Lemma canonical_pcm16_length (samples : list Z) :
  Z.of_nat (length (canonical_pcm16 samples)) = 44 + 2 * Z.of_nat (length samples).
Proof.
  unfold canonical_pcm16, wav_file, octets.
  rewrite length_map. cbn [app length le32 le16].
  rewrite pcm16_payload_length. lia.
Qed.

Lemma drwav__on_read_memory_inside (m : drwav_memory) (k : Z) :
  memory_ok m ->
  0 <= k ->
  currentReadPos m + k <= dataSize m ->
  drwav__on_read_memory m k
  = (firstn (Z.to_nat k) (skipn (Z.to_nat (currentReadPos m)) (data m)),
     mk_memory (data m) (dataSize m) (currentReadPos m + k)).
Proof.
  intros Hok Hk Hfit. pose proof Hok as (_ & Hp & Hmax). unfold PTRDIFF_MAX in Hmax.
  pose proof (drwav__on_read_memory_ok m k Hok ltac:(unfold SIZE_MAX; lia)) as H.
  destruct (drwav__on_read_memory m k) as [bytes m'].
  rewrite Z.min_l in H by lia. destruct H as (_ & -> & -> & _). reflexivity.
Qed.

Lemma le_u32_octets (v : Z) (rest : list byte) :
  0 <= v < 4294967296 -> le_u32 (octets (le32 v) ++ rest) = v.
Proof.
  intros Hv. unfold le_u32, at_, octets, le32. cbn [map app nth].
  rewrite !byte_val_octet by (apply Z.mod_pos_bound; lia).
  change (2 ^ 8) with 256. change (2 ^ 16) with 65536. change (2 ^ 24) with 16777216.
  Z.div_mod_to_equations. lia.
Qed.

Lemma as_shorts_pcm16_payload (samples : list Z) :
  Forall (fun v => -32768 <= v <= 32767) samples ->
  as_shorts (octets (pcm16_payload samples)) = samples.
Proof.
  induction 1 as [|v samples Hv _ IH]; [reflexivity|].
  unfold pcm16_payload, octets in *. cbn [flat_map le16 app map as_shorts].
  rewrite IH. f_equal.
  rewrite !byte_val_octet by (apply Z.mod_pos_bound; lia).
  unfold to_short, to_signed.
  change (2 ^ 8) with 256. change (2 ^ 16) with 65536. change (2 ^ (16 - 1)) with 32768.
  replace ((v mod 65536) mod 256 + (v mod 65536 / 256) mod 256 * 256) with (v mod 65536)
    by (Z.div_mod_to_equations; lia).
  rewrite Z.mod_mod by lia.
  destruct (Z.ltb_spec (v mod 65536) 32768); Z.div_mod_to_equations; lia.
Qed.

Lemma drwav_open_memory_canonical_pcm16 (samples : list Z) :
  2 * Z.of_nat (length samples) + 36 < 4294967296 ->
  drwav_open_memory true plain_env (canonical_pcm16 samples)
  = Ret (Some (canonical_pcm16_decoder samples)).
Proof.
  intros Hsize.
  pose proof (canonical_pcm16_length samples) as Hlen.
  set (n := Z.of_nat (length samples)) in *.
  unfold drwav_open_memory. cbn [negb].
  set (file := canonical_pcm16 samples) in *.
  set (size := Z.of_nat (length file)) in *.
  assert (Hok : forall pos, 0 <= pos <= size -> memory_ok (mk_memory file size pos)).
  { intros pos Hpos. unfold memory_ok, PTRDIFF_MAX. cbn [data dataSize currentReadPos].
    repeat split; try reflexivity; lia. }
  assert (Hfmt : drwav__read_fmt drwav__on_read_memory drwav__on_seek_memory
                   (mk_memory file size 12) zero_fmt
                 = (1, Fmt.mk 1 1 44100 88200 2 16 0 0 0 (repeat "000"%byte 16),
                    mk_memory file size 36)).
  { unfold drwav__read_fmt.
    rewrite (drwav__on_read_memory_inside (mk_memory file size 12) 24)
      by (try apply Hok; cbn [currentReadPos dataSize]; lia).
    reflexivity. }
  unfold drwav_open.
  rewrite (drwav__on_read_memory_inside (mk_memory file size 0) 12)
    by (try apply Hok; cbn [currentReadPos dataSize]; lia).
  cbn [data dataSize currentReadPos Z.add].
  change (firstn (Z.to_nat 12) (skipn (Z.to_nat 0) file))
    with (octets [82; 73; 70; 70]
          ++ octets (le32 (36 + Z.of_nat (length (pcm16_payload samples))))
          ++ octets [87; 65; 86; 69]).
  set (riff := octets [82; 73; 70; 70]
               ++ octets (le32 (36 + Z.of_nat (length (pcm16_payload samples))))
               ++ octets [87; 65; 86; 69]).
  change (negb (returned_count riff =? 12)) with false.
  change (negb (fourcc_is riff "R" "I" "F" "F")) with false.
  change (negb (fourcc_is (skipn 8 riff) "W" "A" "V" "E")) with false.
  cbv iota.
  rewrite drwav__read_u32_le.
  change (skipn 4 riff)
    with (octets (le32 (36 + Z.of_nat (length (pcm16_payload samples))))
          ++ octets [87; 65; 86; 69]).
  rewrite le_u32_octets by (rewrite pcm16_payload_length; lia).
  destruct (Z.ltb_spec (36 + Z.of_nat (length (pcm16_payload samples))) 36) as [|_]; [lia|].
  change (uninitialised_fmt plain_env) with zero_fmt. rewrite Hfmt.
  cbn [Z.eqb Fmt.formatTag Fmt.subFormat Fmt.channels Fmt.blockAlign Fmt.sampleRate
       Fmt.bitsPerSample DR_WAVE_FORMAT_EXTENSIBLE Pos.eqb].
  rewrite drwav_open__find_data_turn.
  rewrite (drwav__on_read_memory_inside (mk_memory file size 36) 8)
    by (try apply Hok; cbn [currentReadPos dataSize]; lia).
  cbn [data dataSize currentReadPos Z.add].
  change (firstn (Z.to_nat 8) (skipn (Z.to_nat 36) file))
    with (octets [100; 97; 116; 97]
          ++ octets (le32 (Z.of_nat (length (pcm16_payload samples)))) ++ []).
  set (chunk := octets [100; 97; 116; 97]
                ++ octets (le32 (Z.of_nat (length (pcm16_payload samples)))) ++ []).
  change (negb (returned_count chunk =? 8)) with false.
  change (fourcc_is chunk "d" "a" "t" "a") with true.
  cbv iota.
  change (skipn 4 chunk)
    with (octets (le32 (Z.of_nat (length (pcm16_payload samples)))) ++ []).
  rewrite le_u32_octets by (rewrite pcm16_payload_length; lia).
  rewrite bind_ret. change (negb (malloc_succeeds plain_env)) with false. cbv iota.
  change (udiv 2 1) with (Ret 2). rewrite bind_ret.
  change (to_ushort (to_uint 2)) with 2.
  rewrite udiv_pos, bind_ret by lia.
  rewrite pcm16_payload_length.
  unfold canonical_pcm16_decoder. fold file. fold size. fold n.
  do 3 f_equal.
  - rewrite Nat2Z.inj_mul. fold n. change (Z.of_nat 2) with 2.
    rewrite Z.mul_comm. apply Z.div_mul. lia.
  - rewrite Nat2Z.inj_mul. reflexivity.
Qed.

Lemma canonical_pcm16_decoder_at_start (samples : list Z) :
  2 * Z.of_nat (length samples) + 36 < 4294967296 ->
  at_sample 44 0 (canonical_pcm16_decoder samples).
Proof.
  intros Hsize. pose proof (canonical_pcm16_length samples) as Hlen.
  unfold at_sample, memory_ok, PTRDIFF_MAX, canonical_pcm16_decoder.
  cbn [onRead onSeek pUserData bytesPerSample totalSampleCount bytesRemaining
       data dataSize currentReadPos].
  repeat split; try reflexivity; lia.
Qed.

Lemma canonical_pcm16_samples (samples : list Z) :
  samples_from 44 0 (Z.of_nat (length samples)) (canonical_pcm16_decoder samples)
  = octets (pcm16_payload samples).
Proof.
  unfold samples_from.
  change (skipn (Z.to_nat (44 + 0 * bytesPerSample (canonical_pcm16_decoder samples)))
                (data (pUserData (canonical_pcm16_decoder samples))))
    with (octets (pcm16_payload samples)).
  apply firstn_all2. unfold octets. rewrite length_map, pcm16_payload_length.
  cbn [bytesPerSample canonical_pcm16_decoder]. lia.
Qed.

(** X18. Round trip through the canonical container: for every list of
    16-bit samples, [drwav_open_memory] on the 44-byte mono header followed
    by the samples low byte first returns a decoder of that many samples,
    and [drwav_read_f32] on it stores, for each sample v in order, the
    binary32 value that is exactly v/32768. *)
Theorem canonical_pcm16_round_trip :
  forall (fuel : nat) (sampleData : list byte) (samples : list Z)
         (pBufferOut : list f32),
    Forall (fun v => -32768 <= v <= 32767) samples ->
    2 * Z.of_nat (length samples) + 36 < 4294967296 ->
    Z.of_nat (length sampleData) = 4096 ->
    (length samples <= length pBufferOut)%nat ->
    (length samples < fuel)%nat ->
    drwav_open_memory true plain_env (canonical_pcm16 samples)
    = Ret (Some (canonical_pcm16_decoder samples))
    /\ drwav_read_f32 fuel sampleData (Some (canonical_pcm16_decoder samples))
                      (Z.of_nat (length samples)) (Some pBufferOut)
       = Ret (Z.of_nat (length samples),
              Some (overwrite pBufferOut (map s16_sample_to_f32 samples)),
              Some (move_to 44 (Z.of_nat (length samples))
                            (canonical_pcm16_decoder samples)))
    /\ Forall (fun v => exactly (s16_sample_to_f32 v) (v # 32768)) samples.
Proof.
  intros fuel sampleData samples out Hrange Hsize Hsd Hroom Hfuel.
  split; [now apply drwav_open_memory_canonical_pcm16|]. split.
  - pose proof (canonical_pcm16_decoder_at_start samples Hsize) as Hat.
    assert (Hcount : Z.min (Z.of_nat (length samples))
                           (totalSampleCount (canonical_pcm16_decoder samples) - 0)
                     = Z.of_nat (length samples))
      by (cbn [totalSampleCount canonical_pcm16_decoder]; lia).
    rewrite (drwav_read_f32_pcm_runs fuel sampleData 44 0 (canonical_pcm16_decoder samples)
               (Z.of_nat (length samples)) out Hat eq_refl);
      rewrite ?Hcount;
      try (cbn [bytesPerSample canonical_pcm16_decoder]; unfold SIZE_MAX; lia);
      try assumption.
    change (bytesPerSample (canonical_pcm16_decoder samples)) with 2.
    rewrite canonical_pcm16_samples.
    change (pcm_samples 2 (octets (pcm16_payload samples)))
      with (map s16_sample_to_f32 (as_shorts (octets (pcm16_payload samples)))).
    now rewrite as_shorts_pcm16_payload.
  - eapply Forall_impl; [|exact Hrange]. intros v. apply s16_sample_exact.
Qed.

Lemma canonical_pcm16_round_trip_witness :
  drwav_open_memory true plain_env (canonical_pcm16 [0; 16384; -16384; 32767])
  = Ret (Some (canonical_pcm16_decoder [0; 16384; -16384; 32767]))
  /\ drwav_read_f32 5 silence (Some (canonical_pcm16_decoder [0; 16384; -16384; 32767])) 4
                    (Some (repeat S754_nan 4))
     = Ret (4,
            Some [S754_zero false; S754_finite false 8388608 (-24);
                  S754_finite true 8388608 (-24); S754_finite false 16776704 (-24)],
            Some (move_to 44 4 (canonical_pcm16_decoder [0; 16384; -16384; 32767])))
  /\ Forall (fun v => exactly (s16_sample_to_f32 v) (v # 32768))
            [0; 16384; -16384; 32767].
Proof.
  refine (canonical_pcm16_round_trip 5 silence [0; 16384; -16384; 32767]
            (repeat S754_nan 4) _ _ _ _ _).
  - repeat constructor; discriminate.
  - reflexivity.
  - reflexivity.
  - apply Nat.leb_le. reflexivity.
  - apply Nat.ltb_lt. reflexivity.
Defined.

(** ** IEEE samples narrower than a double *)

Lemma load_past_end {A : Type} (a : list A) :
  load a (Z.of_nat (length a)) = Stuck OutOfBounds.
Proof.
  unfold load.
  destruct (Z.ltb_spec (Z.of_nat (length a)) 0); [reflexivity|].
  rewrite Nat2Z.id.
  now replace (nth_error a (length a)) with (@None A)
    by (symmetry; apply nth_error_None; lia).
Qed.

Lemma for_each_load_overrun {A B : Type} (g : A -> B) :
  forall (rest pre : list A) (count : nat),
    (length rest < count)%nat ->
    for_each (fun i => x <- load (pre ++ rest) i ;; Ret (g x))
             (Z.of_nat (length pre)) count
    = Stuck OutOfBounds.
Proof.
  induction rest as [|x rest IH]; intros pre count Hcount;
    (destruct count as [|count]; [simpl in Hcount; lia|]); cbn [for_each].
  - rewrite app_nil_r, load_past_end. reflexivity.
  - rewrite load_app_here, !bind_ret.
    replace (Z.of_nat (length pre) + 1) with (Z.of_nat (length (pre ++ [x])))
      by (rewrite length_app; simpl; lia).
    replace (pre ++ x :: rest) with ((pre ++ [x]) ++ rest)
      by (now rewrite <- app_assoc).
    rewrite IH by (simpl in Hcount; lia).
    reflexivity.
Qed.

(** X19. [drwav_read_f32] on a memory-backed IEEE-float decoder with 1, 2,
    3, 5, 6 or 7 bytes per sample converts the staging array as an array of
    doubles: when 513 samples or more are asked for and left, the first
    round reads past the 512 doubles the 4096-byte array holds. *)
Theorem drwav_read_f32_ieee_narrow_overruns :
  forall (fuel : nat) (sampleData : list byte) (start index : Z)
         (w : drwav drwav_memory) (samplesToRead : Z) (pBufferOut : list f32),
    at_sample start index w ->
    translatedFormatTag w = DR_WAVE_FORMAT_IEEE_FLOAT ->
    1 <= bytesPerSample w <= 7 ->
    bytesPerSample w <> 4 ->
    Z.of_nat (length sampleData) = 4096 ->
    513 <= samplesToRead <= SIZE_MAX ->
    index + 513 <= totalSampleCount w ->
    drwav_read_f32 (S fuel) sampleData (Some w) samplesToRead (Some pBufferOut)
    = Stuck OutOfBounds.
Proof.
  intros fuel sampleData start index w n out Hat Htag Hbps Hnot4 Hsd Hn Hleft.
  pose proof Hat as (_ & _ & _ & _ & _ & _ & Hidx & _ & _).
  assert (Hread := drwav_read_at_sample start index w n sampleData 4096 Hat
                     ltac:(lia) ltac:(unfold SIZE_MAX; lia)).
  cbv zeta in Hread.
  unfold drwav_read_f32. rewrite Htag.
  cbn [Z.eqb andb Pos.eqb DR_WAVE_FORMAT_IEEE_FLOAT DR_WAVE_FORMAT_PCM].
  destruct (Z.eqb_spec (bytesPerSample w) 4) as [|_]; [contradiction|].
  destruct (Z.eqb_spec n 0) as [|_]; [lia|].
  cbn [drwav_read_f32__loop].
  destruct (Z.gtb_spec n 0) as [_|]; [|lia].
  rewrite Hread, bind_ret.
  set (c1 := Z.min (Z.min n (4096 / bytesPerSample w)) (totalSampleCount w - index)).
  assert (Hchunk : 513 <= 4096 / bytesPerSample w)
    by (apply Z.div_le_lower_bound; lia).
  assert (Hc1 : 513 <= c1) by (unfold c1; lia).
  destruct (Z.eqb_spec c1 0) as [|_]; [lia|].
  cbn [bytesPerSample move_to with_stream convert_samples].
  unfold drwav__ieee_to_f32.
  destruct (Z.eqb_spec (bytesPerSample w) 32) as [|_]; [lia|].
  unfold drwav_f64_to_f32.
  set (staged := overwrite sampleData (samples_from start index c1 w)).
  assert (Hstaged : length (as_doubles staged) = 512%nat).
  { apply as_doubles_length. unfold staged, overwrite.
    rewrite length_app, length_skipn.
    assert (Z.of_nat (length (samples_from start index c1 w)) <= 4096); [|lia].
    rewrite (samples_from_length start index c1 w Hat) by (unfold c1; lia).
    assert (c1 * bytesPerSample w <= 4096 / bytesPerSample w * bytesPerSample w).
    { apply Z.mul_le_mono_nonneg_r; unfold c1; lia. }
    pose proof (Z.mul_div_le 4096 (bytesPerSample w) ltac:(lia)). lia. }
  pose proof (for_each_load_overrun f32_of_f64 (as_doubles staged) [] (Z.to_nat c1)
                ltac:(lia)) as Hover.
  cbn [app length] in Hover. change (Z.of_nat 0) with 0 in Hover.
  rewrite Hover. reflexivity.
Qed.

Lemma drwav_read_f32_ieee_narrow_overruns_witness :
  drwav_read_f32 1 silence (Some (payload_decoder 3 2 (repeat "000"%byte 1026))) 513
                 (Some (repeat S754_nan 513))
  = Stuck OutOfBounds.
Proof.
  refine (drwav_read_f32_ieee_narrow_overruns 0 silence 0 0
            (payload_decoder 3 2 (repeat "000"%byte 1026)) 513 (repeat S754_nan 513)
            _ _ _ _ _ _ _).
  - unfold at_sample, memory_ok. repeat split; first [reflexivity | discriminate].
  - reflexivity.
  - split; discriminate.
  - discriminate.
  - reflexivity.
  - split; discriminate.
  - discriminate.
Defined.

(** ** Termination of the conversion loop *)

Lemma bind_returns {A B : Type} (m : outcome A) (k : A -> outcome B) :
  m <> OutOfFuel -> (forall a, k a <> OutOfFuel) -> bind m k <> OutOfFuel.
Proof. destruct m; cbn; auto; discriminate. Qed.

Lemma load_returns {A : Type} (a : list A) (i : Z) : load a i <> OutOfFuel.
Proof.
  unfold load. destruct (i <? 0); [discriminate|].
  destruct (nth_error a (Z.to_nat i)); discriminate.
Qed.

Lemma store_all_returns {A : Type} (dst vals : list A) : store_all dst vals <> OutOfFuel.
Proof. unfold store_all. destruct (length vals <=? length dst)%nat; discriminate. Qed.

Lemma for_each_returns {A : Type} (body : Z -> outcome A) (count : nat) :
  (forall i, body i <> OutOfFuel) ->
  forall i, for_each body i count <> OutOfFuel.
Proof.
  intros Hbody. induction count as [|count IH]; intros i; cbn [for_each];
    [discriminate|].
  apply bind_returns; [apply Hbody|]. intros x.
  apply bind_returns; [apply IH|]. discriminate.
Qed.

Lemma shl_uint_returns (a n : Z) : shl_uint a n <> OutOfFuel.
Proof. unfold shl_uint. destruct ((0 <=? n) && (n <? 32)); discriminate. Qed.

(** The inner loop of the generic converter takes four turns at most. *)
Lemma pcm_accumulate_returns (fuel : nat) :
  forall (pPCM : list byte) (bytesPerSample j sample shift : Z),
    0 <= j <= 4 ->
    (5 <= Z.to_nat j + fuel)%nat ->
    pcm_accumulate fuel pPCM bytesPerSample j sample shift <> OutOfFuel.
Proof.
  induction fuel as [|fuel IH]; intros pPCM bps j sample shift Hj Hfuel; [lia|].
  rewrite pcm_accumulate_turn.
  destruct (Z.ltb_spec j 4) as [Hlt|]; [|rewrite andb_false_r; discriminate].
  destruct (j <? bps); cbn [andb]; [|discriminate].
  apply bind_returns; [apply load_returns|]. intros b.
  apply bind_returns; [apply shl_uint_returns|]. intros v.
  assert (Hnext : to_ushort (j + 1) = j + 1).
  { unfold to_ushort. apply Z.mod_small. change (2 ^ 16) with 65536. lia. }
  rewrite Hnext. apply IH; lia.
Qed.

Lemma pcm_generic_loop_returns (count : nat) :
  forall (pPCM : list byte) (bytesPerSample : Z),
    pcm_generic_loop count pPCM bytesPerSample <> OutOfFuel.
Proof.
  induction count as [|count IH]; intros pPCM bps; cbn [pcm_generic_loop];
    [discriminate|].
  apply bind_returns.
  - unfold pcm_generic_sample. apply bind_returns; [|discriminate].
    apply pcm_accumulate_returns; simpl; lia.
  - intros x. apply bind_returns; [apply IH|]. discriminate.
Qed.

Lemma alaw_sample_no_fuel_fault (x : byte) : alaw_sample_to_f32 x <> OutOfFuel.
Proof. rewrite alaw_sample_returns. discriminate. Qed.

Lemma ulaw_sample_no_fuel_fault (x : byte) : ulaw_sample_to_f32 x <> OutOfFuel.
Proof. rewrite ulaw_sample_returns. discriminate. Qed.

Ltac returns_step :=
  first [ discriminate
        | apply alaw_sample_no_fuel_fault
        | apply ulaw_sample_no_fuel_fault
        | apply store_all_returns
        | apply load_returns
        | apply pcm_generic_loop_returns
        | (apply for_each_returns; intros ?)
        | (apply bind_returns; [|intros ?]) ].

Lemma convert_samples_returns (path : slow_path) (samplesRead : Z)
      (sampleData : list byte) (bytesPerSample : Z) (pBufferOut : list f32) :
  convert_samples path samplesRead sampleData bytesPerSample pBufferOut <> OutOfFuel.
Proof.
  destruct path; cbn [convert_samples].
  - apply bind_returns; [|intros [? ?]; discriminate].
    unfold drwav__pcm_to_f32, drwav_u8PCM_to_f32, drwav_s16PCM_to_f32,
      drwav_s24PCM_to_f32, drwav_s32PCM_to_f32, uint_counter_reaches.
    destruct (bytesPerSample =? 1); [repeat returns_step|].
    destruct (bytesPerSample =? 2); [repeat returns_step|].
    destruct (bytesPerSample =? 3); [repeat returns_step|].
    destruct (bytesPerSample =? 4); [repeat returns_step|].
    destruct (UINT_MAX <? samplesRead); repeat returns_step.
  - apply bind_returns; [|intros [? ?]; discriminate].
    unfold drwav__ieee_to_f32, drwav_f64_to_f32, uint_counter_reaches.
    destruct (bytesPerSample =? 32); [|repeat returns_step].
    destruct (UINT_MAX <? samplesRead); repeat returns_step.
  - unfold drwav_alaw_to_f32. repeat returns_step.
  - unfold drwav_ulaw_to_f32, uint_counter_reaches.
    destruct (UINT_MAX <? samplesRead); repeat returns_step.
Qed.

Section Terminates.

Context {U : Type}.
Variable rd : drwav_read_proc U.
Hypothesis Hrd : returns_at_most_requested rd.

(** One typed read over a source that returns at most what it is asked
    for. *)
Lemma drwav_read_step (w : drwav U) (samplesToRead : Z) (buf : list byte)
      (bufferOutSize : Z) :
  onRead w = Some rd ->
  0 < bytesPerSample w ->
  0 <= bytesRemaining w <= SIZE_MAX ->
  0 <= samplesToRead <= SIZE_MAX ->
  0 <= bufferOutSize <= SIZE_MAX ->
  exists samplesRead buf' w',
    drwav_read (Some w) samplesToRead (Some buf) bufferOutSize
    = Ret (samplesRead, Some buf', Some w')
    /\ 0 <= samplesRead <= samplesToRead
    /\ onRead w' = onRead w
    /\ bytesPerSample w' = bytesPerSample w
    /\ translatedFormatTag w' = translatedFormatTag w
    /\ 0 <= bytesRemaining w' <= bytesRemaining w.
Proof.
  intros Hon Hbps Hrem Hn Hcap.
  destruct (drwav_read_unfold w samplesToRead buf bufferOutSize Hbps (proj1 Hn) Hcap)
    as [Hfit Hcode].
  rewrite Hcode.
  set (clamped := Z.min samplesToRead (bufferOutSize / bytesPerSample w)) in *.
  assert (Hclamped : 0 <= clamped <= samplesToRead).
  { unfold clamped. pose proof (Z.div_pos bufferOutSize (bytesPerSample w)). lia. }
  destruct (Z.eq_dec (clamped * bytesPerSample w) 0) as [E|Hnz].
  - rewrite E. change (drwav_read_raw (Some w) (Some buf) 0) with (Ret (0, Some buf, Some w)).
    rewrite bind_ret. change (0 / bytesPerSample w) with 0.
    exists 0, buf, w. repeat split; lia.
  - rewrite (drwav_read_raw_unfold w rd buf _ Hon) by lia.
    pose proof (Hrd (pUserData w) (raw_request w (clamped * bytesPerSample w))) as Hlen.
    destruct (rd (pUserData w) (raw_request w (clamped * bytesPerSample w)))
      as [bytes u].
    cbn [fst] in Hlen.
    assert (Hreq : 0 <= raw_request w (clamped * bytesPerSample w)
                   <= clamped * bytesPerSample w) by (unfold raw_request; lia).
    assert (Hreq' : raw_request w (clamped * bytesPerSample w) <= bytesRemaining w)
      by (unfold raw_request; lia).
    specialize (Hlen (proj1 Hreq)).
    assert (Hcount : returned_count bytes = Z.of_nat (length bytes)).
    { unfold returned_count. apply to_size_t_small. lia. }
    rewrite bind_ret, Hcount.
    eexists _, _, _. split; [reflexivity|].
    cbn [onRead bytesPerSample translatedFormatTag bytesRemaining with_stream].
    rewrite to_uint64_small by lia.
    assert (Hq : Z.of_nat (length bytes) / bytesPerSample w <= clamped).
    { apply Z.div_le_upper_bound; [lia|]. rewrite Z.mul_comm. lia. }
    pose proof (Z.div_pos (Z.of_nat (length bytes)) (bytesPerSample w)).
    repeat split; try reflexivity; lia.
Qed.

(** What the loop returns, when it returns. *)
Definition loop_result_bounded (w : drwav U) (lo hi : Z)
    (r : outcome (Z * list f32 * drwav U)) : Prop :=
  match r with
  | Ret (total, _, w') =>
      lo <= total <= hi /\ 0 <= bytesRemaining w' <= bytesRemaining w
  | Stuck _ => True
  | OutOfFuel => False
  end.

Lemma drwav_read_f32__loop_terminates (path : slow_path) (fuel : nat) :
  forall (w : drwav U) (samplesToRead : Z) (sampleData : list byte)
         (written pBufferOut : list f32) (totalSamplesRead : Z),
    onRead w = Some rd ->
    0 < bytesPerSample w ->
    0 <= bytesRemaining w <= SIZE_MAX ->
    0 <= samplesToRead ->
    0 <= totalSamplesRead ->
    totalSamplesRead + samplesToRead <= SIZE_MAX ->
    (Z.to_nat samplesToRead < fuel)%nat ->
    loop_result_bounded w totalSamplesRead (totalSamplesRead + samplesToRead)
      (drwav_read_f32__loop fuel path w samplesToRead sampleData written pBufferOut
                            totalSamplesRead).
Proof.
  induction fuel as [|fuel IH];
    intros w n sd written out tot Hon Hbps Hrem Hn Htot Hmax Hfuel; [lia|].
  cbn [drwav_read_f32__loop].
  destruct (Z.gtb_spec n 0) as [Hpos|Hzero]; [|cbn; lia].
  destruct (drwav_read_step w n sd 4096 Hon Hbps Hrem ltac:(lia)
              ltac:(unfold SIZE_MAX; lia))
    as (k & sd' & w' & Hread & Hk & Hon' & Hbps' & _ & Hrem').
  rewrite Hread, bind_ret.
  destruct (Z.eqb_spec k 0) as [E|Hnz]; [cbn; lia|].
  pose proof (convert_samples_returns path k sd' (bytesPerSample w') out) as Hconv.
  destruct (convert_samples path k sd' (bytesPerSample w') out) as [[out'|]|f|];
    cbn [bind]; try exact I; [|contradiction].
  rewrite (to_size_t_small (n - k)), (to_size_t_small (tot + k)) by lia.
  pose proof (IH w' (n - k) sd' (written ++ firstn (Z.to_nat k) out')
                (skipn (Z.to_nat k) out') (tot + k)
                ltac:(congruence) ltac:(lia) ltac:(lia) ltac:(lia) ltac:(lia)
                ltac:(lia) ltac:(lia)) as Hrec.
  destruct (drwav_read_f32__loop fuel path w' (n - k) sd'
              (written ++ firstn (Z.to_nat k) out') (skipn (Z.to_nat k) out') (tot + k))
    as [[[total out''] w'']|f|]; cbn in *; try exact I; [lia|contradiction].
Qed.

(** X20. Over a byte source whose read callback returns at most the bytes
    requested, [drwav_read_f32] comes to an end on every decoder with
    [bytesPerSample] above 0: after at most [samplesToRead] rounds it
    returns or stops at a fault of a converter.  When it returns, it
    delivers at most [samplesToRead] samples and [bytesRemaining] has not
    grown. *)
Theorem drwav_read_f32_terminates :
  forall (fuel : nat) (sampleData : list byte) (w : drwav U) (samplesToRead : Z)
         (pBufferOut : list f32),
    onRead w = Some rd ->
    0 < bytesPerSample w ->
    0 <= bytesRemaining w <= SIZE_MAX ->
    0 <= samplesToRead <= SIZE_MAX ->
    (Z.to_nat samplesToRead < fuel)%nat ->
    match drwav_read_f32 fuel sampleData (Some w) samplesToRead (Some pBufferOut) with
    | Ret (samplesRead, Some _, Some w') =>
        0 <= samplesRead <= samplesToRead
        /\ 0 <= bytesRemaining w' <= bytesRemaining w
    | Ret _ => False
    | Stuck _ => True
    | OutOfFuel => False
    end.
Proof.
  intros fuel sampleData w n out Hon Hbps Hrem Hn Hfuel.
  unfold drwav_read_f32.
  destruct (Z.eqb_spec n 0) as [->|Hnz]; [lia|].
  destruct ((translatedFormatTag w =? DR_WAVE_FORMAT_IEEE_FLOAT) && (bytesPerSample w =? 4)).
  - assert (Hcap : 0 <= to_size_t (n * 4) <= SIZE_MAX) by apply to_uint64_range.
    destruct (drwav_read_step w n (f32_object_repr out) (to_size_t (n * 4)) Hon Hbps Hrem
                Hn Hcap) as (k & buf' & w' & Hread & Hk & _ & _ & _ & Hrem').
    rewrite Hread, bind_ret. cbn [option_map]. lia.
  - assert (Hslow : forall path,
               match ('(total, out', w') <-
                        drwav_read_f32__loop fuel path w n sampleData [] out 0 ;;
                      Ret (total, Some out', Some w')) with
               | Ret (samplesRead, Some _, Some w') =>
                   0 <= samplesRead <= n /\ 0 <= bytesRemaining w' <= bytesRemaining w
               | Ret _ => False
               | Stuck _ => True
               | OutOfFuel => False
               end).
    { intros path.
      pose proof (drwav_read_f32__loop_terminates path fuel w n sampleData [] out 0
                    Hon Hbps Hrem ltac:(lia) ltac:(lia) ltac:(lia) Hfuel) as H.
      destruct (drwav_read_f32__loop fuel path w n sampleData [] out 0)
        as [[[total out'] w']|f|]; cbn in *; [lia|exact I|contradiction]. }
    destruct (translatedFormatTag w =? DR_WAVE_FORMAT_PCM); [apply Hslow|].
    destruct (translatedFormatTag w =? DR_WAVE_FORMAT_IEEE_FLOAT); [apply Hslow|].
    destruct (translatedFormatTag w =? DR_WAVE_FORMAT_ALAW); [apply Hslow|].
    destruct (translatedFormatTag w =? DR_WAVE_FORMAT_MULAW); [apply Hslow|].
    lia.
Qed.

End Terminates.

Lemma drwav_read_f32_terminates_witness :
  match drwav_read_f32 10 silence (Some even_decoder) 4 (Some (repeat S754_nan 4)) with
  | Ret (samplesRead, Some _, Some w') =>
      0 <= samplesRead <= 4
      /\ 0 <= bytesRemaining w' <= bytesRemaining even_decoder
  | Ret _ => False
  | Stuck _ => True
  | OutOfFuel => False
  end.
Proof.
  refine (drwav_read_f32_terminates drwav__on_read_memory _ 10 silence even_decoder 4
            (repeat S754_nan 4) _ _ _ _ _).
  - exact drwav__on_read_memory_at_most.
  - reflexivity.
  - reflexivity.
  - split; discriminate.
  - split; discriminate.
  - apply Nat.ltb_lt. reflexivity.
Defined.
